(** * The SSE stream decoders of the NimbleBrain TypeScript SDK

    Two decoders live in the repository:
    - [MessagesAPI.stream] (async generator of the namespaced SDK class),
      which frames the text on blank lines;
    - [NimbleBrain.streamMessage] (src/nimblebrain.ts), which works line by
      line and keeps the current event type across lines.

    Both are embedded below as pure functions from the HTTP response (status,
    body text, body chunks, how the body ends) to the run of the generator:
    the events it yields, in order, and how it completes.  The platform
    pieces the code calls ([JSON.parse], [TextDecoder]) are parameters of the
    development; concrete instances are given for the examples. *)

From Stdlib Require Import String Ascii.
From Stdlib Require Import Strings.Byte.
From Stdlib Require Import List NArith ZArith Bool Lia.
From Stdlib Require DecimalString.
Set Warnings "-register-all,-notation-for-abbreviation".
Import ListNotations.
Open Scope list_scope.

(** ** JavaScript strings *)

Module JS.

(** A JavaScript string is a sequence of 16-bit code units. *)
Definition codeunit := N.
Definition jsstring := list codeunit.

(** Source-style literals: [\n] and [\r] are the usual escapes and an
    apostrophe stands for the double-quote code unit (34). *)
Fixpoint lit (s : string) : jsstring :=
  match s with
  | EmptyString => []
  | String "\"%char (String "n"%char r) => 10%N :: lit r
  | String "\"%char (String "r"%char r) => 13%N :: lit r
  | String "'"%char r => 34%N :: lit r
  | String c r => N_of_ascii c :: lit r
  end.

(** [a === b] on strings. *)
Fixpoint eqb (a b : jsstring) : bool :=
  match a, b with
  | [], [] => true
  | x :: a', y :: b' => N.eqb x y && eqb a' b'
  | _, _ => false
  end.

(** [s.startsWith(p)]. *)
Fixpoint startsWith (p s : jsstring) : bool :=
  match p, s with
  | [], _ => true
  | x :: p', y :: s' => N.eqb x y && startsWith p' s'
  | _ :: _, [] => false
  end.

(** The regular-expression class [\s]: WhiteSpace and LineTerminator. *)
Definition isWhiteSpace (c : codeunit) : bool :=
  (N.leb 9 c && N.leb c 13) || N.eqb c 32 || N.eqb c 160 || N.eqb c 5760
  || (N.leb 8192 c && N.leb c 8202) || N.eqb c 8232 || N.eqb c 8233
  || N.eqb c 8239 || N.eqb c 8287 || N.eqb c 12288 || N.eqb c 65279.

Fixpoint dropWhile (f : codeunit -> bool) (s : jsstring) : jsstring :=
  match s with
  | [] => []
  | c :: s' => if f c then dropWhile f s' else s
  end.

(** [s.replace(/^p\s*/, '')] for a literal prefix [p]: when [s] starts with
    [p], the prefix and the white space after it are removed; a string the
    pattern does not match is returned unchanged. *)
Definition replacePrefixWs (p s : jsstring) : jsstring :=
  if startsWith p s then dropWhile isWhiteSpace (skipn (length p) s) else s.

(** [s.slice(n)] for [0 <= n]. *)
Definition slice (n : nat) (s : jsstring) : jsstring := skipn n s.

(** [lines.join(sep)]. *)
Fixpoint join (sep : jsstring) (l : list jsstring) : jsstring :=
  match l with
  | [] => []
  | [x] => x
  | x :: l' => x ++ sep ++ join sep l'
  end.

(** StringIndexOf: the text before the first occurrence of [sep] and the text
    after it, when there is one. *)
Fixpoint breakAt (sep s : jsstring) {struct s} : option (jsstring * jsstring) :=
  if startsWith sep s then Some ([], skipn (length sep) s)
  else match s with
       | [] => None
       | c :: s' =>
           match breakAt sep s' with
           | Some (t, rest) => Some (c :: t, rest)
           | None => None
           end
       end.

(** The loop of [String.prototype.split] for a non-empty separator; every
    round consumes at least one code unit, so [length s] rounds are enough. *)
Fixpoint splitLoop (fuel : nat) (sep s : jsstring) : list jsstring :=
  match fuel with
  | O => [s]
  | S n =>
      match breakAt sep s with
      | None => [s]
      | Some (t, rest) => t :: splitLoop n sep rest
      end
  end.

(** [s.split(sep)]: an empty separator splits into code units. *)
Definition split (sep s : jsstring) : list jsstring :=
  match sep with
  | [] => map (fun c => [c]) s
  | _ :: _ => splitLoop (length s) sep s
  end.

(** [a.pop()] leaves [removelast a] in the array and returns [last a]. *)
Definition pop (a : list jsstring) : option jsstring :=
  match a with
  | [] => None
  | _ => Some (last a [])
  end.

(** [Number.prototype.toString] for a non-negative integer. *)
Definition Number_toString (n : N) : jsstring :=
  map N_of_ascii
      (list_ascii_of_string (DecimalString.NilZero.string_of_uint (N.to_uint n))).

End JS.
Import JS.

(** ** Data model *)

(** A JavaScript value: [undefined] and what [JSON.parse] can return.  A
    number keeps the sign, the decimal digits and the power of ten of its
    literal; an object keeps its members in the order of the text (for a
    repeated key the last one is the property). *)
Inductive JSValue : Type :=
| JUndefined
| JNull
| JBool (b : bool)
| JNumber (negative : bool) (digits : N) (exp10 : Z)
| JString (s : jsstring)
| JArray (items : list JSValue)
| JObject (members : list (jsstring * JSValue)).

(** [interface StreamEvent { type; data }]; the cast [as StreamEvent['type']]
    is erased at run time, so [type] is whatever string the stream named. *)
Record StreamEvent : Type := { type : jsstring; data : JSValue }.

(** What the generator can throw. *)
Inductive Exception : Type :=
| Error (message : JSValue)       (* [new Error(message)], argument as passed *)
| TypeError                       (* a property read on [null] *)
| ReadFailure (reason : jsstring) (* [reader.read()] rejected *).

Inductive Completion : Type :=
| Returned
| Thrown (e : Exception).

(** One run of the async generator, iterated to its end. *)
Record Run : Type := { yielded : list StreamEvent; completion : Completion }.

(** How the body stream ends: closed by the server, or broken. *)
Inductive ReadEnd : Type :=
| CleanClose
| Broken (reason : jsstring).

Record Body : Type := { chunks : list (list byte); ending : ReadEnd }.

(** The response of [fetch]: [text] is what [response.text()] resolves to,
    [body] is [response.body] ([None] for [null]). *)
Record Response : Type := { status : N; text : jsstring; body : option Body }.

(** [response.ok]: the status is in the range 200 to 299. *)
Definition ok (r : Response) : bool :=
  N.leb 200 (status r) && N.leb (status r) 299.

(** ** The platform's text decoder

    A [TextDecoder] is driven byte by byte; its state carries an unfinished
    character from one chunk to the next. *)
Record TextDecoder : Type := {
  DState : Type;
  fresh : DState;
  decodeByte : DState -> byte -> DState * jsstring;
  finish : DState -> jsstring
}.

Section Decoding.

Variable D : TextDecoder.

(** [decoder.decode(value, { stream: true })]. *)
Fixpoint decode (st : DState D) (value : list byte) : DState D * jsstring :=
  match value with
  | [] => (st, [])
  | b :: bs =>
      let (st1, t1) := decodeByte D st b in
      let (st2, t2) := decode st1 bs in
      (st2, t1 ++ t2)
  end.

(** [body.pipeThrough(new TextDecoderStream())]: every chunk is decoded with
    the running state and enqueued unless it decodes to the empty string; at
    a clean close the decoder is flushed the same way. *)
Fixpoint pipeThrough (st : DState D) (cs : list (list byte)) (e : ReadEnd)
  : list jsstring :=
  match cs with
  | [] =>
      match e with
      | CleanClose => match finish D st with [] => [] | t => [t] end
      | Broken _ => []
      end
  | c :: cs' =>
      let (st1, t) := decode st c in
      match t with
      | [] => pipeThrough st1 cs' e
      | _ => t :: pipeThrough st1 cs' e
      end
  end.

End Decoding.

Arguments decode D st value : clear implicits.
Arguments pipeThrough D st cs e : clear implicits.

Definition NL : jsstring := Eval cbv in lit "\n".
Definition NLNL : jsstring := Eval cbv in lit "\n\n".

(** ** [MessagesAPI.stream] *)

Module MessagesAPI.

Section Platform.

(** [JSON.parse]: [None] when it throws a SyntaxError. *)
Variable JSON_parse : jsstring -> option JSValue.
Variable D : TextDecoder.

(** [eventType] and [dataLines] of the frame under construction. *)
Record Frame : Type := { eventType : option jsstring; dataLines : list jsstring }.

(** The body of [for (const line of lines)]. *)
Definition forLine (f : Frame) (line : jsstring) : Frame :=
  if startsWith (lit "event:") line then
    {| eventType := Some (replacePrefixWs (lit "event:") line);
       dataLines := dataLines f |}
  else if startsWith (lit "data:") line then
    {| eventType := eventType f;
       dataLines := dataLines f ++ [replacePrefixWs (lit "data:") line] |}
  else f.

Definition parseLines (lines : list jsstring) : Frame :=
  fold_left forLine lines {| eventType := None; dataLines := [] |}.

(** [eventType || 'content']. *)
Definition typeOrContent (t : option jsstring) : jsstring :=
  match t with
  | Some (c :: s) => c :: s
  | _ => lit "content"
  end.

(** [eventType === 'done']. *)
Definition isDone (t : option jsstring) : bool :=
  match t with
  | Some s => eqb s (lit "done")
  | None => false
  end.

(** [try { data = JSON.parse(rawData) } catch { data = { raw: rawData } }]. *)
Definition parseData (rawData : jsstring) : JSValue :=
  match JSON_parse rawData with
  | Some v => v
  | None => JObject [(lit "raw", JString rawData)]
  end.

(** The event a frame yields, under the guard [dataLines.length > 0]. *)
Definition frameEvent (f : Frame) : option StreamEvent :=
  match dataLines f with
  | [] => None
  | _ :: _ =>
      Some {| type := typeOrContent (eventType f);
              data := parseData (join NL (dataLines f)) |}
  end.

(** [for (const chunk of chunks)]: the events yielded, and whether the
    generator returned on a [done] event. *)
Fixpoint forChunks (chunks : list jsstring) : list StreamEvent * bool :=
  match chunks with
  | [] => ([], false)
  | chunk :: rest =>
      let f := parseLines (split NL chunk) in
      match frameEvent f with
      | None => forChunks rest
      | Some ev =>
          if isDone (eventType f) then ([ev], true)
          else let (evs, r) := forChunks rest in (ev :: evs, r)
      end
  end.

(** The state of the [while (true)] loop. *)
Record LoopState : Type := {
  buffer : jsstring;
  out : list StreamEvent;
  returned : bool
}.

Definition start : LoopState := {| buffer := []; out := []; returned := false |}.

(** One round of the loop on the string [value] the reader delivered. *)
Definition iteration (st : LoopState) (value : jsstring) : LoopState :=
  if returned st then st
  else
    let buffer1 := buffer st ++ value in
    let chunks := split NLNL buffer1 in
    let buffer2 := match pop chunks with Some s => s | None => [] end in
    let (evs, r) := forChunks (removelast chunks) in
    {| buffer := buffer2; out := out st ++ evs; returned := r |}.

Definition whileLoop (reads : list jsstring) : LoopState :=
  fold_left iteration reads start.

Definition stream (response : Response) : Run :=
  if negb (ok response) then
    {| yielded := [];
       completion :=
         Thrown (Error (JString (lit "Stream request failed: "
                                   ++ Number_toString (status response)
                                   ++ lit " " ++ text response))) |}
  else
    match body response with
    | None =>
        {| yielded := [];
           completion := Thrown (Error (JString (lit "No response body for streaming"))) |}
    | Some b =>
        let st := whileLoop (pipeThrough D (fresh D) (chunks b) (ending b)) in
        {| yielded := out st;
           completion :=
             if returned st then Returned
             else match ending b with
                  | CleanClose => Returned
                  | Broken reason => Thrown (ReadFailure reason)
                  end |}
    end.

End Platform.

End MessagesAPI.

(** ** [NimbleBrain.streamMessage] *)

Module NimbleBrain.

Section Platform.

Variable JSON_parse : jsstring -> option JSValue.
Variable D : TextDecoder.

(** ToBoolean of a number literal: false exactly when it denotes a zero,
    that is when it has no non-zero digit or rounds to zero as a double
    (magnitude at most 2^-1075). *)
Definition numberIsZero (digits : N) (exp10 : Z) : bool :=
  N.eqb digits 0
  || (Z.ltb exp10 0 && Z.leb (Z.of_N digits * 2 ^ 1075) (10 ^ (- exp10))).

(** ToBoolean. *)
Definition truthy (v : JSValue) : bool :=
  match v with
  | JUndefined => false
  | JNull => false
  | JBool b => b
  | JNumber _ digits exp10 => negb (numberIsZero digits exp10)
  | JString s => match s with [] => false | _ => true end
  | JArray _ => true
  | JObject _ => true
  end.

(** [a || b]. *)
Definition or (a b : JSValue) : JSValue := if truthy a then a else b.

(** The member a key names: the last one written, [undefined] without one. *)
Fixpoint member (k : jsstring) (ms : list (jsstring * JSValue)) : JSValue :=
  match ms with
  | [] => JUndefined
  | (k', v) :: ms' =>
      match member k ms' with
      | JUndefined => if eqb k' k then v else JUndefined
      | w => w
      end
  end.

(** [v.k] for [k] among [error] and [message], on a value that is neither
    [null] nor [undefined]: only objects have such a property. *)
Definition getProperty (v : JSValue) (k : jsstring) : JSValue :=
  match v with
  | JObject ms => member k ms
  | _ => JUndefined
  end.

(** The rejection path:
    [error = await response.json().catch(() => ({ error: 'Unknown error' }))]
    and [throw new Error(error.error || error.message || `HTTP ${status}`)]. *)
Definition rejection (response : Response) : Exception :=
  let error :=
    match JSON_parse (text response) with
    | Some v => v
    | None => JObject [(lit "error", JString (lit "Unknown error"))]
    end in
  match error with
  | JNull | JUndefined => TypeError
  | _ =>
      Error (or (getProperty error (lit "error"))
                (or (getProperty error (lit "message"))
                    (JString (lit "HTTP " ++ Number_toString (status response)))))
  end.

(** The variables of the loop that outlive a line. *)
Record LineState : Type := {
  currentEventType : jsstring;
  out : list StreamEvent
}.

(** The body of [for (const line of lines)]. *)
Definition forLine (st : LineState) (line : jsstring) : LineState :=
  if startsWith (lit "event: ") line then
    {| currentEventType := slice 7 line; out := out st |}
  else if startsWith (lit "data: ") line
          && match currentEventType st with [] => false | _ => true end then
    match JSON_parse (slice 6 line) with
    | Some data =>
        {| currentEventType := currentEventType st;
           out := out st ++ [{| type := currentEventType st; data := data |}] |}
    | None => st
    end
  else st.

Record LoopState : Type := {
  decoder : DState D;
  buffer : jsstring;
  lineState : LineState
}.

Definition start : LoopState :=
  {| decoder := fresh D;
     buffer := [];
     lineState := {| currentEventType := []; out := [] |} |}.

(** One round of [while (true)] on the bytes [value]. *)
Definition iteration (st : LoopState) (value : list byte) : LoopState :=
  let (d, t) := decode D (decoder st) value in
  let buffer1 := buffer st ++ t in
  let lines := split NL buffer1 in
  {| decoder := d;
     buffer := match pop lines with Some (c :: s) => c :: s | _ => [] end;
     lineState := fold_left forLine (removelast lines) (lineState st) |}.

Definition whileLoop (values : list (list byte)) : LoopState :=
  fold_left iteration values start.

Definition streamMessage (response : Response) : Run :=
  if negb (ok response) then
    {| yielded := []; completion := Thrown (rejection response) |}
  else
    match body response with
    | None =>
        {| yielded := [];
           completion := Thrown (Error (JString (lit "No response body"))) |}
    | Some b =>
        let st := whileLoop (chunks b) in
        {| yielded := out (lineState st);
           completion :=
             match ending b with
             | CleanClose => Returned
             | Broken reason => Thrown (ReadFailure reason)
             end |}
    end.

End Platform.

End NimbleBrain.

(** ** Instances of the platform *)

(** The UTF-8 decoder of the Encoding Standard, with the byte order mark
    removed as [new TextDecoder()] does by default. *)
Module UTF8.

Record state : Type := {
  bomSeen : bool;
  codePoint : N;
  bytesSeen : N;
  bytesNeeded : N;
  lower : N;
  upper : N
}.

Definition reset (bom : bool) : state :=
  {| bomSeen := bom; codePoint := 0; bytesSeen := 0; bytesNeeded := 0;
     lower := 128; upper := 191 |}.

Definition between (lo b hi : N) : bool := N.leb lo b && N.leb b hi.

(** A byte met when no character is under way. *)
Definition lead (bom : bool) (b : N) : state * list N :=
  if N.leb b 127 then (reset bom, [b])
  else if between 194 b 223 then
    ({| bomSeen := bom; codePoint := N.land b 31; bytesSeen := 0;
        bytesNeeded := 1; lower := 128; upper := 191 |}, [])
  else if between 224 b 239 then
    ({| bomSeen := bom; codePoint := N.land b 15; bytesSeen := 0;
        bytesNeeded := 2;
        lower := if N.eqb b 224 then 160 else 128;
        upper := if N.eqb b 237 then 159 else 191 |}, [])
  else if between 240 b 244 then
    ({| bomSeen := bom; codePoint := N.land b 7; bytesSeen := 0;
        bytesNeeded := 3;
        lower := if N.eqb b 240 then 144 else 128;
        upper := if N.eqb b 244 then 143 else 191 |}, [])
  else (reset bom, [65533%N]).

(** The handler: the code points a byte completes.  A byte that cannot
    continue the character under way ends it with U+FFFD and is read again
    as a lead byte. *)
Definition handler (st : state) (b : N) : state * list N :=
  if N.eqb (bytesNeeded st) 0 then lead (bomSeen st) b
  else if negb (between (lower st) b (upper st)) then
    let (st', cps) := lead (bomSeen st) b in (st', 65533%N :: cps)
  else
    let cp := N.lor (N.shiftl (codePoint st) 6) (N.land b 63) in
    let seen := (bytesSeen st + 1)%N in
    if N.eqb seen (bytesNeeded st) then (reset (bomSeen st), [cp])
    else ({| bomSeen := bomSeen st; codePoint := cp; bytesSeen := seen;
             bytesNeeded := bytesNeeded st; lower := 128; upper := 191 |}, []).

(** A code point as UTF-16 code units. *)
Definition utf16 (cp : N) : jsstring :=
  if N.ltb cp 65536 then [cp]
  else [(55296 + (cp - 65536) / 1024)%N; (56320 + (cp - 65536) mod 1024)%N].

(** Serialising the code points: the first one is dropped when it is the
    byte order mark. *)
Fixpoint serialize (bom : bool) (cps : list N) : bool * jsstring :=
  match cps with
  | [] => (bom, [])
  | cp :: rest =>
      let (bom', t) := serialize true rest in
      (bom', if negb bom && N.eqb cp 65279 then t else utf16 cp ++ t)
  end.

Definition step (st : state) (b : byte) : state * jsstring :=
  let (st1, cps) := handler st (Byte.to_N b) in
  let (bom, t) := serialize (bomSeen st) cps in
  ({| bomSeen := bom; codePoint := codePoint st1; bytesSeen := bytesSeen st1;
      bytesNeeded := bytesNeeded st1; lower := lower st1; upper := upper st1 |},
   t).

Definition flush (st : state) : jsstring :=
  if N.eqb (bytesNeeded st) 0 then [] else [65533%N].

Definition decoder : TextDecoder :=
  {| DState := state; fresh := reset false;
     decodeByte := step; finish := flush |}.

(** [new TextEncoder().encode(s)] for a string of ASCII code units. *)
Definition encodeAscii (s : jsstring) : list byte :=
  map (fun c => match Byte.of_N c with Some b => b | None => x00 end) s.

End UTF8.

(** A parser for the JSON grammar (ECMA-404), as [JSON.parse] reads it. *)
Module JSON.

Definition isWs (c : N) : bool :=
  N.eqb c 32 || N.eqb c 10 || N.eqb c 13 || N.eqb c 9.

Definition isDigit (c : N) : bool := N.leb 48 c && N.leb c 57.

Definition hexDigit (c : N) : option N :=
  if isDigit c then Some (c - 48)%N
  else if N.leb 97 c && N.leb c 102 then Some (c - 87)%N
  else if N.leb 65 c && N.leb c 70 then Some (c - 55)%N
  else None.

(** A run of digits: its value on top of [acc], its length, and the rest. *)
Fixpoint digitsRun (acc : N) (s : jsstring) : N * nat * jsstring :=
  match s with
  | c :: r =>
      if isDigit c then
        let '(v, n, rest) := digitsRun (acc * 10 + (c - 48))%N r in (v, S n, rest)
      else (acc, O, s)
  | [] => (acc, O, [])
  end.

Definition exponent (s : jsstring) : option (Z * jsstring) :=
  match s with
  | c :: r =>
      if N.eqb c 101 || N.eqb c 69 then
        let '(neg, r1) :=
          match r with
          | 45%N :: r' => (true, r')
          | 43%N :: r' => (false, r')
          | _ => (false, r)
          end in
        match digitsRun 0 r1 with
        | (_, O, _) => None
        | (v, _, rest) => Some (if neg then (- Z.of_N v)%Z else Z.of_N v, rest)
        end
      else Some (0%Z, s)
  | [] => Some (0%Z, [])
  end.

Definition number (s : jsstring) : option (JSValue * jsstring) :=
  let '(neg, s1) := match s with 45%N :: r => (true, r) | _ => (false, s) end in
  let int :=
    match s1 with
    | 48%N :: r => Some (0%N, r)
    | _ => match digitsRun 0 s1 with
           | (_, O, _) => None
           | (v, _, rest) => Some (v, rest)
           end
    end in
  match int with
  | None => None
  | Some (i, s2) =>
      let frac :=
        match s2 with
        | 46%N :: r =>
            match digitsRun i r with
            | (_, O, _) => None
            | (v, n, rest) => Some (v, n, rest)
            end
        | _ => Some (i, O, s2)
        end in
      match frac with
      | None => None
      | Some (m, n, s3) =>
          match exponent s3 with
          | None => None
          | Some (e, s4) => Some (JNumber neg m (e - Z.of_nat n), s4)
          end
      end
  end.

(** The characters of a string after its opening quote. *)
Fixpoint chars (acc : jsstring) (s : jsstring) : option (jsstring * jsstring) :=
  match s with
  | [] => None
  | c :: r =>
      if N.eqb c 34 then Some (rev acc, r)
      else if N.eqb c 92 then
        match r with
        | 117%N :: h1 :: h2 :: h3 :: h4 :: r' =>
            match hexDigit h1, hexDigit h2, hexDigit h3, hexDigit h4 with
            | Some a, Some b, Some c', Some d =>
                chars (((a * 16 + b) * 16 + c') * 16 + d :: acc)%N r'
            | _, _, _, _ => None
            end
        | e :: r' =>
            if N.eqb e 34 || N.eqb e 92 || N.eqb e 47 then chars (e :: acc) r'
            else if N.eqb e 98 then chars (8%N :: acc) r'
            else if N.eqb e 102 then chars (12%N :: acc) r'
            else if N.eqb e 110 then chars (10%N :: acc) r'
            else if N.eqb e 114 then chars (13%N :: acc) r'
            else if N.eqb e 116 then chars (9%N :: acc) r'
            else None
        | [] => None
        end
      else if N.ltb c 32 then None
      else chars (c :: acc) r
  end.

Definition keyword (k : string) (v : JSValue) (s : jsstring)
  : option (JSValue * jsstring) :=
  if startsWith (lit k) s then Some (v, skipn (List.length (lit k)) s) else None.

Fixpoint value (fuel : nat) (s : jsstring) : option (JSValue * jsstring) :=
  match fuel with
  | O => None
  | S n =>
      match dropWhile isWs s with
      | 123%N :: r =>
          match dropWhile isWs r with
          | 125%N :: r' => Some (JObject [], r')
          | r' => members n [] r'
          end
      | 91%N :: r =>
          match dropWhile isWs r with
          | 93%N :: r' => Some (JArray [], r')
          | r' => elements n [] r'
          end
      | 34%N :: r =>
          match chars [] r with
          | Some (t, r') => Some (JString t, r')
          | None => None
          end
      | 116%N :: r => keyword "true" (JBool true) (116%N :: r)
      | 102%N :: r => keyword "false" (JBool false) (102%N :: r)
      | 110%N :: r => keyword "null" JNull (110%N :: r)
      | s' => number s'
      end
  end
with elements (fuel : nat) (acc : list JSValue) (s : jsstring)
  : option (JSValue * jsstring) :=
  match fuel with
  | O => None
  | S n =>
      match value n s with
      | None => None
      | Some (v, r) =>
          match dropWhile isWs r with
          | 44%N :: r' => elements n (v :: acc) r'
          | 93%N :: r' => Some (JArray (rev (v :: acc)), r')
          | _ => None
          end
      end
  end
with members (fuel : nat) (acc : list (jsstring * JSValue)) (s : jsstring)
  : option (JSValue * jsstring) :=
  match fuel with
  | O => None
  | S n =>
      match dropWhile isWs s with
      | 34%N :: r =>
          match chars [] r with
          | None => None
          | Some (k, r1) =>
              match dropWhile isWs r1 with
              | 58%N :: r2 =>
                  match value n r2 with
                  | None => None
                  | Some (v, r3) =>
                      match dropWhile isWs r3 with
                      | 44%N :: r4 => members n ((k, v) :: acc) r4
                      | 125%N :: r4 => Some (JObject (rev ((k, v) :: acc)), r4)
                      | _ => None
                      end
                  end
              | _ => None
              end
          end
      | _ => None
      end
  end.

(** [JSON.parse(text)]; [None] stands for the SyntaxError. *)
Definition parse (text : jsstring) : option JSValue :=
  match value (2 * List.length text + 2) text with
  | Some (v, rest) =>
      match dropWhile isWs rest with
      | [] => Some v
      | _ => None
      end
  | None => None
  end.

End JSON.

(** The two generators on this platform, fed with ASCII text chunks. *)
Definition respond (st : N) (t : jsstring) (cs : list jsstring) (e : ReadEnd) : Response :=
  {| status := st; text := t;
     body := Some {| chunks := map UTF8.encodeAscii cs; ending := e |} |}.

Definition event (t : string) (d : JSValue) : StreamEvent :=
  {| type := lit t; data := d |}.

Definition stream := MessagesAPI.stream JSON.parse UTF8.decoder.
Definition streamMessage := NimbleBrain.streamMessage JSON.parse UTF8.decoder.

(** A stream with a two-byte character in a payload, and its delivery one
    byte at a time. *)
Definition sampleBytes : list byte :=
  UTF8.encodeAscii (lit "event: content\ndata: {'text':'")
  ++ [xc3; xa9]
  ++ UTF8.encodeAscii (lit "'}\n\nevent: done\ndata: {}\n\n").

Definition byteByByte (bytes : list byte) : list (list byte) :=
  map (fun b => [b]) bytes.

(** ** Vocabulary of the statements *)

(** The complete pieces a scan for [sep] cuts from a text, and the text left
    open after the last separator it consumed. *)
Definition complete (sep text : jsstring) : list jsstring :=
  removelast (split sep text).

Definition pending (sep text : jsstring) : jsstring :=
  last (split sep text) [].

(** The decode buffer in the words of the specification: scan for the
    delimiter; while there is one, remove the text before it and the
    delimiter, and keep the remainder. *)
Fixpoint unresolved (fuel : nat) (text : jsstring) : jsstring :=
  match fuel with
  | O => text
  | S n =>
      match breakAt NLNL text with
      | Some (_, remainder) => unresolved n remainder
      | None => text
      end
  end.

Definition afterLastDelimiter (text : jsstring) : jsstring :=
  unresolved (List.length text) text.


(** The lines a server writes. *)
Definition eventLine (t : jsstring) : jsstring := lit "event: " ++ t.
Definition dataLine (j : jsstring) : jsstring := lit "data: " ++ j.

Definition noNewline (s : jsstring) : Prop := Forall (fun c => c <> 10%N) s.

(** No white space at the start, for a value written right after
    [event: ] or [data: ]. *)
Definition noLeadingSpace (s : jsstring) : Prop := dropWhile isWhiteSpace s = s.

(** A frame as the server of the tests writes it: one [event: ] line naming
    a type, one [data: ] line holding one line of JSON. *)
Record WireFrame : Type := {
  frameType : jsstring;
  frameData : jsstring;
  frameValue : JSValue
}.

Definition frameText (f : WireFrame) : jsstring :=
  eventLine (frameType f) ++ NL ++ dataLine (frameData f).

(** The frames followed each by the blank-line delimiter. *)
Definition wire (fs : list WireFrame) : jsstring :=
  concat (map (fun f => frameText f ++ NLNL) fs).

(** Complete, valid and not terminal. *)
Definition validFrame (JSON_parse : jsstring -> option JSValue) (f : WireFrame) : Prop :=
  frameType f <> [] /\ noNewline (frameType f) /\ noLeadingSpace (frameType f)
  /\ frameType f <> lit "done"
  /\ noNewline (frameData f) /\ noLeadingSpace (frameData f)
  /\ JSON_parse (frameData f) = Some (frameValue f).

Definition frameEventOf (f : WireFrame) : StreamEvent :=
  {| type := frameType f; data := frameValue f |}.

(** A frame of [MessagesAPI.stream] given by its text: no blank line inside
    and no newline at its end, so that the delimiter written after it is the
    first one of the scan; at least one [data:] line; a type other than
    [done]. *)
Definition dataFrame (f : jsstring) : Prop :=
  breakAt NLNL f = None /\ last f 0%N <> 10%N
  /\ MessagesAPI.dataLines (MessagesAPI.parseLines (split NL f)) <> []
  /\ MessagesAPI.isDone (MessagesAPI.eventType (MessagesAPI.parseLines (split NL f)))
     = false.

(** The event [MessagesAPI.stream] makes of a frame with data. *)
Definition eventOfFrame (JSON_parse : jsstring -> option JSValue) (f : jsstring)
  : StreamEvent :=
  let fr := MessagesAPI.parseLines (split NL f) in
  {| type := MessagesAPI.typeOrContent (MessagesAPI.eventType fr);
     data := MessagesAPI.parseData JSON_parse (join NL (MessagesAPI.dataLines fr)) |}.

(** Frames on the wire, each followed by the blank-line delimiter. *)
Definition delimited (fs : list jsstring) : jsstring :=
  concat (map (fun f => f ++ NLNL) fs).

(** The text a [TextDecoder] makes of the bytes received so far, and the
    text a [TextDecoderStream] has delivered when the body ended. *)
Definition decoded (D : TextDecoder) (bytes : list byte) : jsstring :=
  snd (decode D (fresh D) bytes).

Definition delivered (D : TextDecoder) (b : Body) : jsstring :=
  decoded D (concat (chunks b))
  ++ match ending b with
     | CleanClose => finish D (fst (decode D (fresh D) (concat (chunks b))))
     | Broken _ => []
     end.

Definition endOf (b : Body) : Completion :=
  match ending b with
  | CleanClose => Returned
  | Broken reason => Thrown (ReadFailure reason)
  end.

(** The events [NimbleBrain.streamMessage] yields for a sequence of complete
    lines, from the start of the stream. *)
Definition linesRun (JSON_parse : jsstring -> option JSValue) (ls : list jsstring)
  : list StreamEvent :=
  NimbleBrain.out
    (fold_left (NimbleBrain.forLine JSON_parse) ls
               {| NimbleBrain.currentEventType := []; NimbleBrain.out := [] |}).

(** A response to a request the server accepted, with a body. *)
Definition accepted (r : Response) (b : Body) : Prop :=
  ok r = true /\ body r = Some b.

(** A frame as [NimbleBrain.streamMessage] reads it: one [event: ] line
    naming a type, then one [data: ] line holding JSON text.  What stands
    after the space is taken as it is, leading white space included. *)
Definition lineFrame (JSON_parse : jsstring -> option JSValue) (f : WireFrame) : Prop :=
  frameType f <> [] /\ noNewline (frameType f)
  /\ noNewline (frameData f)
  /\ JSON_parse (frameData f) = Some (frameValue f).

(** Lines on the wire, each followed by its newline. *)
Definition lined (ls : list jsstring) : jsstring :=
  concat (map (fun l => l ++ NL) ls).

(** ** Samples from the test suite *)

(** Two frames of the test suite, and the response that delivers them in
    two chunks cut inside the first payload. *)
Definition sampleFrames : list WireFrame :=
  [ {| frameType := lit "content"; frameData := lit "{'text':'Hello'}";
       frameValue := JObject [(lit "text", JString (lit "Hello"))] |};
    {| frameType := lit "tool.complete"; frameData := lit "{'tool':'search'}";
       frameValue := JObject [(lit "tool", JString (lit "search"))] |} ].

Definition sampleBody : Body :=
  {| chunks := map UTF8.encodeAscii
                 [lit "event: content\ndata: {'te";
                  lit "xt':'Hello'}\n\nevent: tool.complete\ndata: {'tool':'search'}\n\n"];
     ending := CleanClose |}.

Definition sampleResponse : Response :=
  {| status := 200; text := []; body := Some sampleBody |}.

(** The rejection of the test suite: status 401, body [Unauthorized]. *)
Definition unauthorized : Response :=
  respond 401 (lit "Unauthorized") [lit "Unauthorized"] CleanClose.

(** ** Vocabulary of the further properties *)

(** The lines the two generators look at. *)
Definition isField (l : jsstring) : bool :=
  startsWith (lit "event:") l || startsWith (lit "data:") l.

Definition isSpacedField (l : jsstring) : bool :=
  startsWith (lit "event: ") l || startsWith (lit "data: ") l.

(** Lines sent with CRLF line endings. *)
Definition crlf (ls : list jsstring) : jsstring :=
  concat (map (fun l => l ++ lit "\r\n") ls).

(** A frame of the test suite's form that may be the [done] frame. *)
Definition typedFrame (JSON_parse : jsstring -> option JSValue) (f : WireFrame) : Prop :=
  frameType f <> [] /\ noNewline (frameType f) /\ noLeadingSpace (frameType f)
  /\ noNewline (frameData f) /\ noLeadingSpace (frameData f)
  /\ JSON_parse (frameData f) = Some (frameValue f).

(** The same bytes, once with the body closed and once with it broken. *)
Definition closed (cs : list (list byte)) : Response :=
  {| status := 200; text := []; body := Some {| chunks := cs; ending := CleanClose |} |}.

Definition broken (cs : list (list byte)) (reason : jsstring) : Response :=
  {| status := 200; text := []; body := Some {| chunks := cs; ending := Broken reason |} |}.

(** The current type is empty or ends with CR, and so does every type
    yielded. *)
Definition crTyped (st : NimbleBrain.LineState) : Prop :=
  (NimbleBrain.currentEventType st = []
   \/ last (NimbleBrain.currentEventType st) 0%N = 13%N)
  /\ Forall (fun ev => last (type ev) 0%N = 13%N) (NimbleBrain.out st).

(** ** Waiting for an execution: [waitForCompletion]

    Both versions of the SDK poll [getV1ExecutionsById] (generated code)
    until the execution has finished or a deadline has passed.  The
    environment is what that call comes to, call after call, and what
    [Date.now()] reads, reading after reading. *)

(** [interface Execution]; [executionId] and [executionStatus] are its
    fields [id] and [status]. *)
Record Execution : Type := {
  executionId : jsstring;
  executionStatus : jsstring;
  targetType : option jsstring;
  targetId : option jsstring;
  targetName : option jsstring;
  result : JSValue;
  startedAt : option jsstring;
  completedAt : option jsstring;
  durationMs : option Z
}.

(** What a call of [getV1ExecutionsById] comes to: data, an error answer of
    the server, or a request that failed. *)
Inductive ApiResult : Type :=
| ApiData (e : Execution)
| ApiError (error : JSValue)
| ApiFailure (x : Exception).

Record World : Type := {
  now : nat -> Z;          (* the readings of [Date.now()], in order *)
  answer : nat -> ApiResult (* the calls of [getV1ExecutionsById], in order *)
}.

(** What a promise is rejected with: an exception, or a value thrown as it
    is. *)
Inductive Raised : Type :=
| Threw (x : Exception)
| ThrewValue (v : JSValue).

Inductive Settled : Type :=
| Fulfilled (e : Execution)
| RejectedWith (x : Raised).

(** How a wait ended, after how many calls of [get] and which sleeps. *)
Record Waited : Type := { settled : Settled; calls : nat; sleeps : list Z }.

(** [interface WaitForCompletionOptions]. *)
Record WaitForCompletionOptions : Type := {
  timeoutMs : option Z;
  pollIntervalMs : option Z
}.

(** [options?.timeoutMs ?? 60000] and [options?.pollIntervalMs ?? 1000]. *)
Definition timeoutOf (options : option WaitForCompletionOptions) : Z :=
  match options with
  | Some {| timeoutMs := Some t |} => t
  | _ => 60000%Z
  end.

Definition intervalOf (options : option WaitForCompletionOptions) : Z :=
  match options with
  | Some {| pollIntervalMs := Some i |} => i
  | _ => 1000%Z
  end.

(** [['completed', 'completed_with_errors', 'failed', 'cancelled'].includes(status)]. *)
Definition isFinished (status : jsstring) : bool :=
  existsb (fun s => eqb s status)
          [lit "completed"; lit "completed_with_errors"; lit "failed"; lit "cancelled"].

(** [ExecutionsAPI] of the namespaced SDK class. *)
Module ExecutionsAPI.

Section Platform.

(** Number to string, as a template literal does it. *)
Variable showNumber : Z -> jsstring.
Variable w : World.

(** [get(id)]: with [throwOnError: true] the generated client throws the
    server's error value. *)
Definition get (k : nat) : Execution + Raised :=
  match answer w k with
  | ApiData e => inl e
  | ApiError v => inr (ThrewValue v)
  | ApiFailure x => inr (Threw x)
  end.

Section Wait.

Variable id : jsstring.
Variable options : option WaitForCompletionOptions.

Definition timedOut (status : jsstring) : Raised :=
  Threw (Error (JString (lit "Execution " ++ id ++ lit " timed out after "
                           ++ showNumber (timeoutOf options)
                           ++ lit "ms (status: " ++ status ++ lit ")"))).

(** The rounds of [while (true)], from the round with [k] calls of [get]
    behind it; the clock has been read [k + 1] times by then. *)
Fixpoint polling (fuel k : nat) (slept : list Z) : option Waited :=
  match fuel with
  | O => None
  | S n =>
      match get k with
      | inr x => Some {| settled := RejectedWith x; calls := S k; sleeps := slept |}
      | inl execution =>
          if isFinished (executionStatus execution) then
            Some {| settled := Fulfilled execution; calls := S k; sleeps := slept |}
          else if Z.gtb (now w (S k) - now w 0) (timeoutOf options) then
            Some {| settled := RejectedWith (timedOut (executionStatus execution));
                    calls := S k; sleeps := slept |}
          else polling n (S k) (slept ++ [intervalOf options])
      end
  end.

(** [waitForCompletion(id, options)], run for at most [fuel] rounds. *)
Definition waitForCompletion (fuel : nat) : option Waited := polling fuel 0 [].

End Wait.

End Platform.

End ExecutionsAPI.

(** [executions] of the class [NimbleBrain] in src/nimblebrain.ts. *)
Module Executions.

Section Platform.

Variable showNumber : Z -> jsstring.
Variable w : World.

(** [get(executionId)]: [None] is the [undefined] data of an answer whose
    error is falsy. *)
Definition get (k : nat) : option Execution + Raised :=
  match answer w k with
  | ApiData e => inl (Some e)
  | ApiError v =>
      if NimbleBrain.truthy v then
        inr (Threw (Error (JString (lit "Failed to get execution"))))
      else inl None
  | ApiFailure x => inr (Threw x)
  end.

Section Wait.

Variable executionId : jsstring.
Variable options : option WaitForCompletionOptions.

Definition timedOut : Raised :=
  Threw (Error (JString (lit "Execution timed out after "
                           ++ showNumber (timeoutOf options) ++ lit "ms"))).

(** The rounds of [while (Date.now() - startTime < timeout)]. *)
Fixpoint polling (fuel k : nat) (slept : list Z) : option Waited :=
  match fuel with
  | O => None
  | S n =>
      if Z.ltb (now w (S k) - now w 0) (timeoutOf options) then
        match get k with
        | inr x => Some {| settled := RejectedWith x; calls := S k; sleeps := slept |}
        | inl None =>
            Some {| settled := RejectedWith (Threw TypeError);
                    calls := S k; sleeps := slept |}
        | inl (Some execution) =>
            if isFinished (executionStatus execution) then
              Some {| settled := Fulfilled execution; calls := S k; sleeps := slept |}
            else polling n (S k) (slept ++ [intervalOf options])
        end
      else Some {| settled := RejectedWith timedOut; calls := k; sleeps := slept |}
  end.

Definition waitForCompletion (fuel : nat) : option Waited := polling fuel 0 [].

End Wait.

End Platform.

End Executions.

(** Decimal digits of an integer, the instance of [showNumber] for integers
    of less than 22 digits. *)
Definition showInteger (z : Z) : jsstring :=
  if Z.ltb z 0 then lit "-" ++ Number_toString (Z.abs_N z)
  else Number_toString (Z.to_N z).

(** An execution known by its status only. *)
Definition executionOf (st : string) : Execution :=
  {| executionId := lit "exec-1"; executionStatus := lit st;
     targetType := None; targetId := None; targetName := None;
     result := JUndefined; startedAt := None; completedAt := None;
     durationMs := None |}.

(** A world of the test suite: the execution runs for two polls and is
    completed at the third; the clock gains a second per reading. *)
Definition sampleWorld : World :=
  {| now := fun i => (1000 * Z.of_nat i)%Z;
     answer := fun k => if Nat.ltb k 2 then ApiData (executionOf "running")
                        else ApiData (executionOf "completed") |}.

(** The clock the sleeps make: every round reads it at least one interval
    after the round before, and never before the start. *)
Definition ticking (w : World) (interval : Z) : Prop :=
  (now w 0 <= now w 1)%Z
  /\ forall k, (now w (S k) + interval <= now w (S (S k)))%Z.

(** The first [k] answers are executions that have not finished. *)
Definition unfinishedUntil (w : World) (k : nat) : Prop :=
  forall j, j < k ->
    exists e, answer w j = ApiData e /\ isFinished (executionStatus e) = false.

(** ** The demo application: [sendMessage]

    The chat view consumes the events of [sdk.messages.stream] and rewrites
    the assistant's message with functional updates of its message list.
    The updates are applied in order, with no other update of the list in
    between; an update that throws brings the view down. *)

Module App.

Section Platform.

(** [a + b] in the cases the definition of [plus] below leaves open;
    [None] when the conversion to a primitive throws. *)
Variable plusOther : JSValue -> JSValue -> option JSValue.

(** [error instanceof Error ? error.message : 'Unknown error'] for an
    exception other than [new Error(<string>)]. *)
Variable messageOther : Exception -> jsstring.

(** [interface UIMessage]; [content] and [toolActivity] hold what the
    events put there. *)
Record UIMessage : Type := {
  id : jsstring;
  role : jsstring;
  content : JSValue;
  isStreaming : option bool;
  toolActivity : JSValue
}.

(** [a + b]: a string followed by a string, [undefined], [null] or a
    boolean is the concatenation with the other converted to a string. *)
Definition plus (a b : JSValue) : option JSValue :=
  match a, b with
  | JString x, JString y => Some (JString (x ++ y))
  | JString x, JUndefined => Some (JString (x ++ lit "undefined"))
  | JString x, JNull => Some (JString (x ++ lit "null"))
  | JString x, JBool true => Some (JString (x ++ lit "true"))
  | JString x, JBool false => Some (JString (x ++ lit "false"))
  | _, _ => plusOther a b
  end.

(** [event.data.k] for [k] among [text], [display], [tool] and [error]:
    [None] when [event.data] is [null] or [undefined] and the read throws. *)
Definition dataField (event : StreamEvent) (k : string) : option JSValue :=
  match data event with
  | JNull | JUndefined => None
  | d => Some (NimbleBrain.getProperty d (lit k))
  end.

(** [prev.map(m => m.id === assistantId ? change(m) : m)]; [None] when
    [change] throws. *)
Fixpoint update (assistantId : jsstring) (change : UIMessage -> option UIMessage)
    (prev : list UIMessage) : option (list UIMessage) :=
  match prev with
  | [] => Some []
  | m :: rest =>
      match (if eqb (id m) assistantId then change m else Some m) with
      | None => None
      | Some m' =>
          match update assistantId change rest with
          | None => None
          | Some rest' => Some (m' :: rest')
          end
      end
  end.

(** The [switch (event.type)] of the loop: the update an event asks for. *)
Definition onEvent (assistantId : jsstring) (event : StreamEvent)
    (prev : list UIMessage) : option (list UIMessage) :=
  if eqb (type event) (lit "content") then
    update assistantId
      (fun m =>
         match dataField event "text" with
         | None => None
         | Some t =>
             match plus (content m) t with
             | None => None
             | Some c =>
                 Some {| id := id m; role := role m; content := c;
                         isStreaming := isStreaming m;
                         toolActivity := toolActivity m |}
             end
         end)
      prev
  else if eqb (type event) (lit "tool.start") then
    update assistantId
      (fun m =>
         match dataField event "display", dataField event "tool" with
         | Some d, Some t =>
             Some {| id := id m; role := role m; content := content m;
                     isStreaming := isStreaming m;
                     toolActivity := NimbleBrain.or d t |}
         | _, _ => None
         end)
      prev
  else if eqb (type event) (lit "tool.complete") then
    update assistantId
      (fun m =>
         Some {| id := id m; role := role m; content := content m;
                 isStreaming := isStreaming m; toolActivity := JUndefined |})
      prev
  else if eqb (type event) (lit "message.complete")
          || eqb (type event) (lit "done") then
    update assistantId
      (fun m =>
         Some {| id := id m; role := role m; content := content m;
                 isStreaming := Some false; toolActivity := JUndefined |})
      prev
  else if eqb (type event) (lit "error") then
    update assistantId
      (fun m =>
         match dataField event "error" with
         | None => None
         | Some e =>
             Some {| id := id m; role := role m;
                     content := NimbleBrain.or e (JString (lit "An error occurred"));
                     isStreaming := Some false;
                     toolActivity := toolActivity m |}
         end)
      prev
  else Some prev.

(** [for await (const event of ...)]: the updates of the events in turn. *)
Fixpoint onEvents (assistantId : jsstring) (events : list StreamEvent)
    (prev : list UIMessage) : option (list UIMessage) :=
  match events with
  | [] => Some prev
  | event :: rest =>
      match onEvent assistantId event prev with
      | None => None
      | Some next => onEvents assistantId rest next
      end
  end.

(** [error instanceof Error ? error.message : 'Unknown error'] for what the
    stream throws. *)
Definition messageOf (x : Exception) : jsstring :=
  match x with
  | Error (JString s) => s
  | _ => messageOther x
  end.

(** The [catch] block. *)
Definition onError (assistantId : jsstring) (x : Exception)
    (prev : list UIMessage) : option (list UIMessage) :=
  update assistantId
    (fun m =>
       Some {| id := id m; role := role m;
               content := JString (lit "Error: " ++ messageOf x);
               isStreaming := Some false; toolActivity := toolActivity m |})
    prev.

(** [input.trim()]. *)
Definition trim (s : jsstring) : jsstring :=
  rev (dropWhile isWhiteSpace (rev (dropWhile isWhiteSpace s))).

(** The messages and the flag [isStreaming] of the view. *)
Record View : Type := { messages : list UIMessage; streaming : bool }.

(** [sendMessage]: [ready] stands for [sdk && currentAgent && conversation],
    [userId] and [assistantId] for the two ids made from [Date.now()], and
    [stream] for what [sdk.messages.stream] does with the content sent.
    [None] is the view brought down by an update that threw. *)
Definition sendMessage (ready : bool) (input userId assistantId : jsstring)
    (stream : jsstring -> Run) (v : View) : option View :=
  match trim input with
  | [] => Some v
  | userContent =>
      if negb ready || streaming v then Some v
      else
        let started :=
          messages v
          ++ [{| id := userId; role := lit "user"; content := JString userContent;
                 isStreaming := None; toolActivity := JUndefined |}]
          ++ [{| id := assistantId; role := lit "assistant";
                 content := JString []; isStreaming := Some true;
                 toolActivity := JUndefined |}] in
        let run := stream userContent in
        match onEvents assistantId (yielded run) started with
        | None => None
        | Some after =>
            match completion run with
            | Returned => Some {| messages := after; streaming := false |}
            | Thrown x =>
                match onError assistantId x after with
                | None => None
                | Some final => Some {| messages := final; streaming := false |}
                end
            end
        end
  end.

(** *** Vocabulary of the properties *)

(** What one event does to the message being streamed. *)
Definition change (event : StreamEvent) (m : UIMessage) : option UIMessage :=
  if eqb (type event) (lit "content") then
    match dataField event "text" with
    | None => None
    | Some t =>
        match plus (content m) t with
        | None => None
        | Some c =>
            Some {| id := id m; role := role m; content := c;
                    isStreaming := isStreaming m;
                    toolActivity := toolActivity m |}
        end
    end
  else if eqb (type event) (lit "tool.start") then
    match dataField event "display", dataField event "tool" with
    | Some d, Some t =>
        Some {| id := id m; role := role m; content := content m;
                isStreaming := isStreaming m;
                toolActivity := NimbleBrain.or d t |}
    | _, _ => None
    end
  else if eqb (type event) (lit "tool.complete") then
    Some {| id := id m; role := role m; content := content m;
            isStreaming := isStreaming m; toolActivity := JUndefined |}
  else if eqb (type event) (lit "message.complete")
          || eqb (type event) (lit "done") then
    Some {| id := id m; role := role m; content := content m;
            isStreaming := Some false; toolActivity := JUndefined |}
  else if eqb (type event) (lit "error") then
    match dataField event "error" with
    | None => None
    | Some e =>
        Some {| id := id m; role := role m;
                content := NimbleBrain.or e (JString (lit "An error occurred"));
                isStreaming := Some false;
                toolActivity := toolActivity m |}
    end
  else Some m.

Fixpoint changes (events : list StreamEvent) (m : UIMessage) : option UIMessage :=
  match events with
  | [] => Some m
  | event :: rest =>
      match change event m with
      | None => None
      | Some m' => changes rest m'
      end
  end.

(** The two messages [sendMessage] appends. *)
Definition userMessage (userId userContent : jsstring) : UIMessage :=
  {| id := userId; role := lit "user"; content := JString userContent;
     isStreaming := None; toolActivity := JUndefined |}.

Definition placeholder (assistantId : jsstring) : UIMessage :=
  {| id := assistantId; role := lit "assistant"; content := JString [];
     isStreaming := Some true; toolActivity := JUndefined |}.

(** The call goes through: there is something to send, the view is
    connected and no answer is being streamed. *)
Definition sent (ready : bool) (input : jsstring) (v : View) : Prop :=
  trim input <> [] /\ ready = true /\ streaming v = false.

(** No earlier message has the id of the placeholder. *)
Definition fresh (assistantId : jsstring) (l : list UIMessage) : Prop :=
  Forall (fun m => id m <> assistantId) l.

(** An event that ends the answer for the view. *)
Definition isTerminal (event : StreamEvent) : bool :=
  eqb (type event) (lit "message.complete") || eqb (type event) (lit "done")
  || eqb (type event) (lit "error").

(** An event whose handling reads a property of its data. *)
Definition readsData (event : StreamEvent) : bool :=
  eqb (type event) (lit "content") || eqb (type event) (lit "tool.start")
  || eqb (type event) (lit "error").

Definition isNullish (v : JSValue) : bool :=
  match v with
  | JNull | JUndefined => true
  | _ => false
  end.

(** The text of a [content] event that carries one, as a string. *)
Definition textOf (event : StreamEvent) : option jsstring :=
  if isNullish (data event) then None
  else match NimbleBrain.getProperty (data event) (lit "text") with
       | JString t => Some t
       | _ => None
       end.

(** The events of an answer that goes well: text in every [content]
    event, data in every [tool.start] event, no [error] event. *)
Definition wellFormed (event : StreamEvent) : bool :=
  if eqb (type event) (lit "content") then
    match textOf event with Some _ => true | None => false end
  else if eqb (type event) (lit "tool.start") then negb (isNullish (data event))
  else negb (eqb (type event) (lit "error")).

(** The text such events spell. *)
Fixpoint spoken (events : list StreamEvent) : jsstring :=
  match events with
  | [] => []
  | event :: rest =>
      (if eqb (type event) (lit "content")
       then match textOf event with Some t => t | None => [] end
       else [])
      ++ spoken rest
  end.

End Platform.

End App.

(** * Verification *)

(** ** Facts about [split] *)

Section SplitFacts.

Lemma eqb_eq (a b : jsstring) : eqb a b = true <-> a = b.
Proof.
  revert b; induction a as [|x a IH]; intros [|y b]; simpl; split;
    try congruence; try reflexivity.
  - intros H. apply andb_true_iff in H as [Hx Hab].
    apply N.eqb_eq in Hx. apply IH in Hab. congruence.
  - intros H. injection H as -> ->. rewrite N.eqb_refl. simpl. now apply IH.
Qed.

Lemma eqb_refl (a : jsstring) : eqb a a = true.
Proof. now apply eqb_eq. Qed.

Lemma eqb_neq (a b : jsstring) : eqb a b = false <-> a <> b.
Proof.
  split.
  - intros H E. apply eqb_eq in E. congruence.
  - intros H. destruct (eqb a b) eqn:E; [|reflexivity].
    apply eqb_eq in E. contradiction.
Qed.

Lemma startsWith_spec (p s : jsstring) :
  startsWith p s = true <-> exists t, s = p ++ t.
Proof.
  revert s; induction p as [|x p IH]; intros s; simpl.
  - split; [intros _; now exists s | reflexivity].
  - destruct s as [|y s].
    + split; [discriminate | intros [t Ht]; discriminate].
    + rewrite andb_true_iff, N.eqb_eq, IH. split.
      * intros [-> [t ->]]. now exists t.
      * intros [t Ht]. injection Ht as -> ->. split; [reflexivity | now exists t].
Qed.

Lemma startsWith_app (p t : jsstring) : startsWith p (p ++ t) = true.
Proof. apply startsWith_spec. now exists t. Qed.

Lemma startsWith_length (p s : jsstring) :
  startsWith p s = true -> length p <= length s.
Proof.
  intros H. apply startsWith_spec in H as [t ->]. rewrite length_app. lia.
Qed.

Lemma startsWith_app_l (p a b : jsstring) :
  startsWith p a = true -> startsWith p (a ++ b) = true.
Proof.
  intros H. apply startsWith_spec in H as [t ->].
  rewrite <- app_assoc. apply startsWith_app.
Qed.

Lemma startsWith_app_inv (p a b : jsstring) :
  length p <= length a -> startsWith p (a ++ b) = startsWith p a.
Proof.
  revert a; induction p as [|x p IH]; intros a Hl; simpl; [reflexivity|].
  destruct a as [|y a]; simpl in *; [lia|].
  rewrite IH by lia. reflexivity.
Qed.

Lemma breakAt_Some (sep s t rest : jsstring) :
  breakAt sep s = Some (t, rest) -> s = t ++ sep ++ rest.
Proof.
  revert t; induction s as [|c s IH]; intros t; simpl.
  - destruct (startsWith sep []) eqn:E; [|discriminate].
    intros H. injection H as <- <-.
    apply startsWith_spec in E as [u Hu].
    destruct sep; [|discriminate]. reflexivity.
  - destruct (startsWith sep (c :: s)) eqn:E.
    + intros H. injection H as <- <-.
      apply startsWith_spec in E as [u Hu]. rewrite Hu at 1.
      simpl. f_equal. rewrite Hu.
      replace (length sep) with (length sep + 0) by lia.
      rewrite skipn_app. rewrite Nat.add_0_r, skipn_all, Nat.sub_diag. reflexivity.
    + destruct (breakAt sep s) as [[t' r']|]; [|discriminate].
      intros H. injection H as <- <-. simpl. f_equal. now apply IH.
Qed.

Lemma breakAt_length (sep s t rest : jsstring) :
  breakAt sep s = Some (t, rest) ->
  length s = length t + length sep + length rest.
Proof.
  intros H. apply breakAt_Some in H. subst s.
  rewrite !length_app. lia.
Qed.

Lemma breakAt_app (sep a b t rest : jsstring) :
  breakAt sep a = Some (t, rest) ->
  breakAt sep (a ++ b) = Some (t, rest ++ b).
Proof.
  revert t; induction a as [|c a IH]; intros t H.
  - pose proof (breakAt_length _ _ _ _ H) as Hl. simpl in Hl.
    destruct sep; simpl in Hl; [|lia].
    destruct t; simpl in Hl; [|lia]. destruct rest; simpl in Hl; [|lia].
    simpl. destruct b; reflexivity.
  - pose proof (breakAt_length _ _ _ _ H) as Hl.
    simpl in H. simpl app. cbn [breakAt].
    destruct (startsWith sep (c :: a)) eqn:E.
    + injection H as <- <-.
      change (c :: a ++ b) with ((c :: a) ++ b).
      rewrite (startsWith_app_l _ _ _ E).
      f_equal. f_equal. rewrite skipn_app.
      apply startsWith_length in E.
      replace (length sep - length (c :: a)) with 0 by lia. reflexivity.
    + destruct (breakAt sep a) as [[t' r']|] eqn:B; [|discriminate].
      injection H as <- <-.
      change (c :: a ++ b) with ((c :: a) ++ b).
      rewrite startsWith_app_inv, E by (simpl in *; lia).
      rewrite (IH t' eq_refl). reflexivity.
Qed.

Lemma splitLoop_fuel (sep : jsstring) (n m : nat) (s : jsstring) :
  sep <> [] -> length s <= n -> length s <= m ->
  splitLoop n sep s = splitLoop m sep s.
Proof.
  intros Hsep. revert m s; induction n as [|n IH]; intros [|m] s Hn Hm;
    try reflexivity.
  - destruct s; simpl in Hn; [|lia]. simpl.
    destruct sep; [contradiction|]. reflexivity.
  - destruct s; simpl in Hm; [|lia]. simpl.
    destruct sep; [contradiction|]. reflexivity.
  - simpl. destruct (breakAt sep s) as [[t rest]|] eqn:B; [|reflexivity].
    f_equal. apply breakAt_length in B.
    assert (0 < length sep) by (destruct sep; [contradiction | simpl; lia]).
    apply IH; lia.
Qed.

(** The unfolding of [split] along the first separator. *)
Lemma split_eq (sep s : jsstring) :
  sep <> [] ->
  split sep s = match breakAt sep s with
                | None => [s]
                | Some (t, rest) => t :: split sep rest
                end.
Proof.
  intros Hsep. unfold split. destruct sep as [|x sep]; [contradiction|].
  destruct s as [|c s].
  - reflexivity.
  - cbn [length splitLoop].
    destruct (breakAt (x :: sep) (c :: s)) as [[t rest]|] eqn:B; [|reflexivity].
    f_equal. apply breakAt_length in B. simpl in B.
    apply splitLoop_fuel; [discriminate | lia | lia].
Qed.

Lemma split_nonempty (sep s : jsstring) : sep <> [] -> split sep s <> [].
Proof.
  intros Hsep. rewrite split_eq by assumption.
  destruct (breakAt sep s) as [[t rest]|]; discriminate.
Qed.

(** Feeding more text: the pieces already cut stay, and the scan goes on from
    the piece left open. *)
Lemma split_app (sep a b : jsstring) :
  sep <> [] ->
  split sep (a ++ b) =
  removelast (split sep a) ++ split sep (last (split sep a) [] ++ b).
Proof.
  intros Hsep.
  remember (length a) as n eqn:Hn. revert a Hn.
  induction n as [n IH] using lt_wf_ind. intros a Hn.
  rewrite (split_eq sep a) by assumption.
  destruct (breakAt sep a) as [[t rest]|] eqn:B.
  - rewrite (split_eq sep (a ++ b)) by assumption.
    rewrite (breakAt_app _ _ b _ _ B).
    pose proof (split_nonempty sep rest Hsep) as Hne.
    assert (0 < length sep) by (destruct sep; [contradiction | simpl; lia]).
    apply breakAt_length in B.
    rewrite (IH (length rest)) with (a := rest) by lia.
    destruct (split sep rest) as [|p ps] eqn:E; [contradiction|].
    reflexivity.
  - reflexivity.
Qed.

End SplitFacts.

(** ** Facts about the text decoder *)

Section DecodingFacts.

Variable D : TextDecoder.

Lemma decode_app (st : DState D) (a b : list byte) :
  decode D st (a ++ b) =
  (fst (decode D (fst (decode D st a)) b),
   snd (decode D st a) ++ snd (decode D (fst (decode D st a)) b)).
Proof.
  revert st; induction a as [|x a IH]; intros st; simpl.
  - destruct (decode D st b); reflexivity.
  - destruct (decodeByte D st x) as [st1 t1].
    rewrite IH. destruct (decode D st1 a) as [st2 t2]. simpl.
    now rewrite app_assoc.
Qed.

(** The text that reaches the reader is the decoding of the whole stream. *)
Lemma pipeThrough_concat (st : DState D) (cs : list (list byte)) (e : ReadEnd) :
  concat (pipeThrough D st cs e) =
  snd (decode D st (concat cs)) ++
  match e with
  | CleanClose => finish D (fst (decode D st (concat cs)))
  | Broken _ => []
  end.
Proof.
  revert st; induction cs as [|c cs IH]; intros st; simpl.
  - destruct e; [|reflexivity].
    destruct (finish D st); simpl; [reflexivity | now rewrite app_nil_r].
  - rewrite decode_app. destruct (decode D st c) as [st1 t] eqn:E. simpl.
    destruct t as [|u t]; simpl; rewrite IH; [reflexivity|].
    now rewrite app_assoc.
Qed.

End DecodingFacts.

(** ** Facts about [MessagesAPI.stream] *)

Lemma NLNL_nonempty : NLNL <> [].
Proof. discriminate. Qed.

Lemma NL_nonempty : NL <> [].
Proof. discriminate. Qed.

Lemma pop_split (sep s : jsstring) :
  sep <> [] -> pop (split sep s) = Some (pending sep s).
Proof.
  intros Hsep. pose proof (split_nonempty sep s Hsep) as H.
  unfold pop, pending. destruct (split sep s); [contradiction | reflexivity].
Qed.

Lemma split_complete_pending (sep s : jsstring) :
  sep <> [] -> split sep s = complete sep s ++ [pending sep s].
Proof.
  intros Hsep. apply app_removelast_last. now apply split_nonempty.
Qed.

(** The open piece holds no separator. *)
Lemma split_pending (sep a : jsstring) :
  sep <> [] -> split sep (pending sep a) = [pending sep a].
Proof.
  intros Hsep.
  pose proof (split_app sep a [] Hsep) as H.
  rewrite !app_nil_r in H.
  rewrite (split_complete_pending sep a Hsep) in H at 1.
  now apply app_inv_head in H.
Qed.

Lemma last_app_nonempty {A : Type} (l l' : list A) (d : A) :
  l' <> [] -> last (l ++ l') d = last l' d.
Proof.
  intros H. induction l as [|x l IH]; [reflexivity|].
  simpl app. cbn [last]. destruct (l ++ l') eqn:E; [|exact IH].
  apply app_eq_nil in E as [_ ->]. contradiction.
Qed.

Lemma complete_app (sep a b : jsstring) :
  sep <> [] ->
  complete sep (a ++ b) = complete sep a ++ complete sep (pending sep a ++ b).
Proof.
  intros Hsep. unfold complete at 1. rewrite split_app by assumption.
  rewrite removelast_app by now apply split_nonempty. reflexivity.
Qed.

Lemma pending_app (sep a b : jsstring) :
  sep <> [] -> pending sep (a ++ b) = pending sep (pending sep a ++ b).
Proof.
  intros Hsep. unfold pending at 1. rewrite split_app by assumption.
  rewrite last_app_nonempty by now apply split_nonempty. reflexivity.
Qed.

Lemma complete_open (sep s : jsstring) :
  split sep s = [s] -> complete sep s = [] /\ pending sep s = s.
Proof. unfold complete, pending. intros ->. split; reflexivity. Qed.

Lemma pending_eq (sep s : jsstring) :
  sep <> [] ->
  pending sep s = match breakAt sep s with
                  | None => s
                  | Some (_, rest) => pending sep rest
                  end.
Proof.
  intros Hsep. unfold pending. rewrite (split_eq sep s Hsep).
  destruct (breakAt sep s) as [[t rest]|]; [|reflexivity].
  change (t :: split sep rest) with ([t] ++ split sep rest).
  apply last_app_nonempty. now apply split_nonempty.
Qed.

Lemma pending_closed (sep s : jsstring) :
  sep <> [] -> breakAt sep (pending sep s) = None.
Proof.
  intros Hsep. pose proof (split_pending sep s Hsep) as H.
  rewrite split_eq in H by assumption.
  destruct (breakAt sep (pending sep s)) as [[t rest]|]; [|reflexivity].
  pose proof (split_nonempty sep rest Hsep) as Hne.
  destruct (split sep rest); [contradiction | discriminate].
Qed.

Lemma pending_suffix (sep s : jsstring) :
  sep <> [] ->
  exists resolved,
    s = resolved ++ pending sep s
    /\ (resolved = [] \/ exists p, resolved = p ++ sep).
Proof.
  intros Hsep. remember (length s) as n eqn:Hn. revert s Hn.
  induction n as [n IH] using lt_wf_ind. intros s Hn.
  rewrite pending_eq by assumption.
  destruct (breakAt sep s) as [[t rest]|] eqn:B.
  - pose proof (breakAt_length _ _ _ _ B) as Hl.
    assert (0 < length sep) by (destruct sep; [contradiction | simpl; lia]).
    destruct (IH (length rest) ltac:(lia) rest eq_refl) as (res & Hres & Hshape).
    apply breakAt_Some in B.
    exists (t ++ sep ++ res). split.
    + rewrite B, Hres at 1. now rewrite <- !app_assoc.
    + right. destruct Hshape as [-> | [p ->]].
      * exists t. now rewrite app_nil_r.
      * exists (t ++ sep ++ p). now rewrite <- !app_assoc.
  - exists []. split; [reflexivity | now left].
Qed.

Lemma unresolved_pending (n : nat) (s : jsstring) :
  length s <= n -> unresolved n s = pending NLNL s.
Proof.
  revert s; induction n as [|n IH]; intros s Hl;
    rewrite pending_eq by apply NLNL_nonempty; simpl.
  - destruct s; [reflexivity | simpl in Hl; lia].
  - destruct (breakAt NLNL s) as [[t rest]|] eqn:B; [|reflexivity].
    apply breakAt_length in B. simpl in B. apply IH. lia.
Qed.

Lemma afterLastDelimiter_pending (s : jsstring) :
  afterLastDelimiter s = pending NLNL s.
Proof. apply unresolved_pending. lia. Qed.

Section StreamFacts.

Variable JSON_parse : jsstring -> option JSValue.
Variable D : TextDecoder.

Notation forChunks := (MessagesAPI.forChunks JSON_parse).
Notation iteration := (MessagesAPI.iteration JSON_parse).
Notation whileLoop := (MessagesAPI.whileLoop JSON_parse).
Notation frameEvent := (MessagesAPI.frameEvent JSON_parse).

Lemma forChunks_app (a b : list jsstring) :
  forChunks (a ++ b) =
  if snd (forChunks a) then forChunks a
  else (fst (forChunks a) ++ fst (forChunks b), snd (forChunks b)).
Proof.
  induction a as [|c a IH]; simpl.
  - destruct (forChunks b); reflexivity.
  - destruct (frameEvent _) as [ev|]; [|exact IH].
    destruct (MessagesAPI.isDone _); [reflexivity|].
    rewrite IH. destruct (forChunks a) as [e1 r1]. simpl.
    destruct r1; [reflexivity|]. destruct (forChunks b); reflexivity.
Qed.

Lemma iterations_returned (reads : list jsstring) (st : MessagesAPI.LoopState) :
  MessagesAPI.returned st = true -> fold_left iteration reads st = st.
Proof.
  intros H. induction reads as [|v vs IH]; simpl; [reflexivity|].
  unfold MessagesAPI.iteration at 2. rewrite H. exact IH.
Qed.

Lemma iteration_eq (st : MessagesAPI.LoopState) (v : jsstring) :
  MessagesAPI.returned st = false ->
  iteration st v =
  {| MessagesAPI.buffer := pending NLNL (MessagesAPI.buffer st ++ v);
     MessagesAPI.out :=
       MessagesAPI.out st
       ++ fst (forChunks (complete NLNL (MessagesAPI.buffer st ++ v)));
     MessagesAPI.returned :=
       snd (forChunks (complete NLNL (MessagesAPI.buffer st ++ v))) |}.
Proof.
  intros Hr. unfold MessagesAPI.iteration. rewrite Hr.
  rewrite pop_split by apply NLNL_nonempty.
  fold (complete NLNL (MessagesAPI.buffer st ++ v)).
  destruct (forChunks _); reflexivity.
Qed.

(** The loop computes a function of the whole text received: the events of
    its complete frames up to the first [done] event. *)
Lemma iterations_spec (reads : list jsstring) (st : MessagesAPI.LoopState) :
  MessagesAPI.returned st = false ->
  split NLNL (MessagesAPI.buffer st) = [MessagesAPI.buffer st] ->
  let text := MessagesAPI.buffer st ++ concat reads in
  let st' := fold_left iteration reads st in
  MessagesAPI.out st' = MessagesAPI.out st ++ fst (forChunks (complete NLNL text))
  /\ MessagesAPI.returned st' = snd (forChunks (complete NLNL text))
  /\ (MessagesAPI.returned st' = false ->
      MessagesAPI.buffer st' = pending NLNL text).
Proof.
  revert st; induction reads as [|v vs IH]; intros st Hr Hopen; cbn zeta.
  - simpl. rewrite app_nil_r.
    destruct (complete_open _ _ Hopen) as [-> ->]. simpl.
    rewrite app_nil_r. auto.
  - simpl fold_left. simpl concat. rewrite app_assoc.
    rewrite (complete_app NLNL (MessagesAPI.buffer st ++ v)) by apply NLNL_nonempty.
    rewrite (pending_app NLNL (MessagesAPI.buffer st ++ v)) by apply NLNL_nonempty.
    rewrite forChunks_app, (iteration_eq st v Hr).
    destruct (forChunks (complete NLNL (MessagesAPI.buffer st ++ v))) as [evs r] eqn:E.
    cbn [fst snd]. destruct r.
    + rewrite iterations_returned by reflexivity. simpl.
      split; [reflexivity|]. split; [reflexivity|]. discriminate.
    + match goal with |- context [fold_left _ vs ?s] => specialize (IH s) end.
      simpl in IH. specialize (IH eq_refl (split_pending _ _ NLNL_nonempty)).
      destruct IH as (Ho & Hret & Hb). simpl.
      rewrite Ho, app_assoc. split; [reflexivity|]. split; [exact Hret | exact Hb].
Qed.

Lemma whileLoop_spec (reads : list jsstring) :
  let st := whileLoop reads in
  MessagesAPI.out st = fst (forChunks (complete NLNL (concat reads)))
  /\ MessagesAPI.returned st = snd (forChunks (complete NLNL (concat reads)))
  /\ (MessagesAPI.returned st = false ->
      MessagesAPI.buffer st = pending NLNL (concat reads)).
Proof.
  exact (iterations_spec reads MessagesAPI.start eq_refl eq_refl).
Qed.

End StreamFacts.

Section StreamRun.

Variable JSON_parse : jsstring -> option JSValue.
Variable D : TextDecoder.

(** [MessagesAPI.stream] as a function of the text delivered. *)
Lemma stream_accepted (r : Response) (b : Body) :
  accepted r b ->
  MessagesAPI.stream JSON_parse D r =
  let res := MessagesAPI.forChunks JSON_parse (complete NLNL (delivered D b)) in
  {| yielded := fst res;
     completion := if snd res then Returned else endOf b |}.
Proof.
  intros [Hok Hb]. unfold MessagesAPI.stream. rewrite Hok, Hb. simpl negb. cbv iota.
  destruct (whileLoop_spec JSON_parse (pipeThrough D (fresh D) (chunks b) (ending b)))
    as (Ho & Hr & _).
  cbv zeta. rewrite Ho, Hr, pipeThrough_concat. reflexivity.
Qed.

End StreamRun.

(** ** Facts about [NimbleBrain.streamMessage] *)

Section StreamMessageFacts.

Variable JSON_parse : jsstring -> option JSValue.
Variable D : TextDecoder.

Notation forLine := (NimbleBrain.forLine JSON_parse).
Notation iteration := (NimbleBrain.iteration JSON_parse D).

Lemma iteration_eq' (st : NimbleBrain.LoopState D) (v : list byte) :
  let dec := decode D (NimbleBrain.decoder D st) v in
  let text := NimbleBrain.buffer D st ++ snd dec in
  iteration st v =
  {| NimbleBrain.decoder := fst dec;
     NimbleBrain.buffer := pending NL text;
     NimbleBrain.lineState :=
       fold_left forLine (complete NL text) (NimbleBrain.lineState D st) |}.
Proof.
  cbv zeta. unfold NimbleBrain.iteration.
  destruct (decode D (NimbleBrain.decoder D st) v) as [d t]. cbn [fst snd].
  rewrite pop_split by apply NL_nonempty.
  fold (complete NL (NimbleBrain.buffer D st ++ t)).
  destruct (pending NL (NimbleBrain.buffer D st ++ t)); reflexivity.
Qed.

(** The loop computes a function of the whole text decoded: the lines that
    are complete, read in order. *)
Lemma iterations_spec' (values : list (list byte)) (st : NimbleBrain.LoopState D) :
  split NL (NimbleBrain.buffer D st) = [NimbleBrain.buffer D st] ->
  let dec := decode D (NimbleBrain.decoder D st) (concat values) in
  let text := NimbleBrain.buffer D st ++ snd dec in
  fold_left iteration values st =
  {| NimbleBrain.decoder := fst dec;
     NimbleBrain.buffer := pending NL text;
     NimbleBrain.lineState :=
       fold_left forLine (complete NL text) (NimbleBrain.lineState D st) |}.
Proof.
  revert st; induction values as [|v vs IH]; intros st Hopen; cbv zeta.
  - simpl. rewrite app_nil_r.
    destruct (complete_open _ _ Hopen) as [-> ->]. destruct st; reflexivity.
  - simpl fold_left. simpl concat. rewrite decode_app. cbn [fst snd].
    rewrite iteration_eq'. cbv zeta.
    rewrite IH by (cbn [NimbleBrain.buffer]; apply split_pending, NL_nonempty).
    cbn [NimbleBrain.decoder NimbleBrain.buffer NimbleBrain.lineState].
    rewrite app_assoc.
    rewrite (complete_app NL (NimbleBrain.buffer D st ++ _)) by apply NL_nonempty.
    rewrite (pending_app NL (NimbleBrain.buffer D st ++ _)) by apply NL_nonempty.
    rewrite fold_left_app. reflexivity.
Qed.

Lemma whileLoop_spec' (values : list (list byte)) :
  NimbleBrain.whileLoop JSON_parse D values =
  {| NimbleBrain.decoder := fst (decode D (fresh D) (concat values));
     NimbleBrain.buffer := pending NL (decoded D (concat values));
     NimbleBrain.lineState :=
       fold_left forLine (complete NL (decoded D (concat values)))
                 (NimbleBrain.lineState D (NimbleBrain.start D)) |}.
Proof.
  exact (iterations_spec' values (NimbleBrain.start D) eq_refl).
Qed.

(** [NimbleBrain.streamMessage] as a function of the text decoded. *)
Lemma streamMessage_accepted (r : Response) (b : Body) :
  accepted r b ->
  NimbleBrain.streamMessage JSON_parse D r =
  {| yielded :=
       NimbleBrain.out
         (fold_left forLine (complete NL (decoded D (concat (chunks b))))
                    (NimbleBrain.lineState D (NimbleBrain.start D)));
     completion := endOf b |}.
Proof.
  intros [Hok Hb]. unfold NimbleBrain.streamMessage. rewrite Hok, Hb.
  simpl negb. cbv iota zeta. rewrite whileLoop_spec'. reflexivity.
Qed.

End StreamMessageFacts.

(** ** Facts about the frames of [MessagesAPI.stream] *)

(** Literals are replaced by their code units. *)
Ltac lits :=
  repeat match goal with
         | |- context [lit ?s] =>
             let v := eval vm_compute in (lit s) in change (lit s) with v
         end.

Lemma data_not_event (l : jsstring) :
  startsWith (lit "data:") l = true -> startsWith (lit "event:") l = false.
Proof.
  destruct l as [|c l]; [discriminate|].
  lits. cbn [startsWith].
  destruct (N.eqb_spec 100 c) as [<-|]; [reflexivity | discriminate].
Qed.

Lemma forLine_event (f : MessagesAPI.Frame) (l : jsstring) :
  startsWith (lit "event:") l = true ->
  MessagesAPI.forLine f l =
  {| MessagesAPI.eventType := Some (replacePrefixWs (lit "event:") l);
     MessagesAPI.dataLines := MessagesAPI.dataLines f |}.
Proof. intros H. unfold MessagesAPI.forLine. now rewrite H. Qed.

Lemma forLine_data (f : MessagesAPI.Frame) (l : jsstring) :
  startsWith (lit "data:") l = true ->
  MessagesAPI.forLine f l =
  {| MessagesAPI.eventType := MessagesAPI.eventType f;
     MessagesAPI.dataLines :=
       MessagesAPI.dataLines f ++ [replacePrefixWs (lit "data:") l] |}.
Proof.
  intros H. unfold MessagesAPI.forLine.
  now rewrite (data_not_event l H), H.
Qed.

Lemma fold_no_event (ls : list jsstring) (f : MessagesAPI.Frame) :
  Forall (fun l => startsWith (lit "event:") l = false) ls ->
  MessagesAPI.eventType (fold_left MessagesAPI.forLine ls f) = MessagesAPI.eventType f.
Proof.
  intros H; revert f; induction H as [|l ls Hl _ IH]; intros f; [reflexivity|].
  simpl. rewrite IH. unfold MessagesAPI.forLine. rewrite Hl.
  destruct (startsWith (lit "data:") l); reflexivity.
Qed.

Lemma fold_no_data (ls : list jsstring) (f : MessagesAPI.Frame) :
  Forall (fun l => startsWith (lit "data:") l = false) ls ->
  MessagesAPI.dataLines (fold_left MessagesAPI.forLine ls f) = MessagesAPI.dataLines f.
Proof.
  intros H; revert f; induction H as [|l ls Hl _ IH]; intros f; [reflexivity|].
  simpl. rewrite IH. unfold MessagesAPI.forLine. rewrite Hl.
  destruct (startsWith (lit "event:") l); reflexivity.
Qed.

(** The data lines only grow along a frame. *)
Lemma fold_dataLines_grow (ls : list jsstring) (f : MessagesAPI.Frame) :
  exists more,
    MessagesAPI.dataLines (fold_left MessagesAPI.forLine ls f)
    = MessagesAPI.dataLines f ++ more.
Proof.
  revert f; induction ls as [|l ls IH]; intros f; simpl.
  - exists []. now rewrite app_nil_r.
  - destruct (IH (MessagesAPI.forLine f l)) as [more ->].
    unfold MessagesAPI.forLine.
    destruct (startsWith (lit "event:") l); [now exists more|].
    destruct (startsWith (lit "data:") l); [|now exists more].
    cbn. rewrite <- app_assoc. now eexists.
Qed.

Section FrameFacts.

Variable JSON_parse : jsstring -> option JSValue.

Notation forChunks := (MessagesAPI.forChunks JSON_parse).
Notation frameEvent := (MessagesAPI.frameEvent JSON_parse).

Lemma frameEvent_none (f : MessagesAPI.Frame) :
  MessagesAPI.dataLines f = [] -> frameEvent f = None.
Proof. unfold MessagesAPI.frameEvent. now intros ->. Qed.

Lemma frameEvent_some (f : MessagesAPI.Frame) :
  MessagesAPI.dataLines f <> [] ->
  frameEvent f =
  Some {| type := MessagesAPI.typeOrContent (MessagesAPI.eventType f);
          data := MessagesAPI.parseData JSON_parse
                    (join NL (MessagesAPI.dataLines f)) |}.
Proof.
  unfold MessagesAPI.frameEvent. destruct (MessagesAPI.dataLines f); [contradiction|].
  reflexivity.
Qed.

(** A frame that yields no event leaves no trace in the run. *)
Lemma forChunks_skip (pre post : list jsstring) (chunk : jsstring) :
  frameEvent (MessagesAPI.parseLines (split NL chunk)) = None ->
  forChunks (pre ++ chunk :: post) = forChunks (pre ++ post).
Proof.
  intros H.
  assert (E : forChunks (chunk :: post) = forChunks post).
  { cbn [MessagesAPI.forChunks]. now rewrite H. }
  rewrite !forChunks_app, E. reflexivity.
Qed.

(** A frame with data yields its event; the generator returns right after it
    when the type is [done] and goes on to the next frame otherwise. *)
Lemma forChunks_cons (chunk : jsstring) (rest : list jsstring) :
  let f := MessagesAPI.parseLines (split NL chunk) in
  MessagesAPI.dataLines f <> [] ->
  let ev := {| type := MessagesAPI.typeOrContent (MessagesAPI.eventType f);
               data := MessagesAPI.parseData JSON_parse
                         (join NL (MessagesAPI.dataLines f)) |} in
  forChunks (chunk :: rest) =
  if MessagesAPI.isDone (MessagesAPI.eventType f) then ([ev], true)
  else (ev :: fst (forChunks rest), snd (forChunks rest)).
Proof.
  intros f Hd ev. cbn [MessagesAPI.forChunks]. fold f.
  rewrite (frameEvent_some f Hd). fold ev.
  destruct (MessagesAPI.isDone _); [reflexivity|].
  destruct (forChunks rest); reflexivity.
Qed.

End FrameFacts.

(** ** Facts about the lines of [NimbleBrain.streamMessage] *)

Section LineFacts.

Variable JSON_parse : jsstring -> option JSValue.

Notation forLine := (NimbleBrain.forLine JSON_parse).

Lemma data_not_event' (l : jsstring) :
  startsWith (lit "data: ") l = true -> startsWith (lit "event: ") l = false.
Proof.
  destruct l as [|c l]; [discriminate|].
  lits. cbn [startsWith].
  destruct (N.eqb_spec 100 c) as [<-|]; [reflexivity | discriminate].
Qed.

Lemma forLine_event' (st : NimbleBrain.LineState) (l : jsstring) :
  startsWith (lit "event: ") l = true ->
  forLine st l =
  {| NimbleBrain.currentEventType := slice 7 l; NimbleBrain.out := NimbleBrain.out st |}.
Proof. intros H. unfold NimbleBrain.forLine. now rewrite H. Qed.

Lemma forLine_eventLine (st : NimbleBrain.LineState) (t : jsstring) :
  forLine st (eventLine t) =
  {| NimbleBrain.currentEventType := t; NimbleBrain.out := NimbleBrain.out st |}.
Proof.
  rewrite forLine_event' by apply startsWith_app. reflexivity.
Qed.

Lemma forLine_data' (st : NimbleBrain.LineState) (l : jsstring) :
  startsWith (lit "data: ") l = true ->
  forLine st l =
  match NimbleBrain.currentEventType st, JSON_parse (slice 6 l) with
  | _ :: _, Some v =>
      {| NimbleBrain.currentEventType := NimbleBrain.currentEventType st;
         NimbleBrain.out :=
           NimbleBrain.out st
           ++ [{| type := NimbleBrain.currentEventType st; data := v |}] |}
  | _, _ => st
  end.
Proof.
  intros H. unfold NimbleBrain.forLine.
  rewrite (data_not_event' l H), H.
  destruct (NimbleBrain.currentEventType st); reflexivity.
Qed.

Lemma forLine_no_data (st : NimbleBrain.LineState) (l : jsstring) :
  startsWith (lit "data: ") l = false ->
  NimbleBrain.out (forLine st l) = NimbleBrain.out st.
Proof.
  intros H. unfold NimbleBrain.forLine. rewrite H.
  destruct (startsWith (lit "event: ") l); reflexivity.
Qed.

Lemma forLine_unparsed (st : NimbleBrain.LineState) (l : jsstring) :
  startsWith (lit "event: ") l = false ->
  JSON_parse (slice 6 l) = None ->
  forLine st l = st.
Proof.
  intros He Hp. unfold NimbleBrain.forLine. rewrite He, Hp.
  destruct (_ && _); reflexivity.
Qed.

Lemma fold_no_event' (ls : list jsstring) (st : NimbleBrain.LineState) :
  Forall (fun l => startsWith (lit "event: ") l = false) ls ->
  NimbleBrain.currentEventType (fold_left forLine ls st)
  = NimbleBrain.currentEventType st.
Proof.
  intros H; revert st; induction H as [|l ls Hl _ IH]; intros st; [reflexivity|].
  simpl. rewrite IH. unfold NimbleBrain.forLine. rewrite Hl.
  destruct (_ && _); [|reflexivity].
  destruct (JSON_parse _); reflexivity.
Qed.

(** Without a current type nothing is yielded. *)
Lemma fold_untyped (ls : list jsstring) (st : NimbleBrain.LineState) :
  Forall (fun l => startsWith (lit "event: ") l = false) ls ->
  NimbleBrain.currentEventType st = [] ->
  fold_left forLine ls st = st.
Proof.
  intros H; revert st; induction H as [|l ls Hl _ IH]; intros st Ht; [reflexivity|].
  simpl. assert (E : forLine st l = st).
  { unfold NimbleBrain.forLine. rewrite Hl, Ht, andb_false_r. reflexivity. }
  rewrite E. now apply IH.
Qed.

Lemma forLine_blank (st : NimbleBrain.LineState) : forLine st [] = st.
Proof. reflexivity. Qed.

Lemma fold_blank (st : NimbleBrain.LineState) : fold_left forLine [[]] st = st.
Proof. reflexivity. Qed.

(** A typed line of JSON yields its event under the type just set. *)
Lemma fold_frame (st : NimbleBrain.LineState) (t j : jsstring) (v : JSValue) :
  t <> [] -> JSON_parse j = Some v ->
  fold_left forLine [eventLine t; dataLine j] st =
  {| NimbleBrain.currentEventType := t;
     NimbleBrain.out := NimbleBrain.out st ++ [{| type := t; data := v |}] |}.
Proof.
  intros Ht Hj. cbn [fold_left]. rewrite forLine_eventLine.
  rewrite forLine_data' by apply startsWith_app.
  cbn [NimbleBrain.currentEventType NimbleBrain.out].
  replace (slice 6 (dataLine j)) with j by reflexivity.
  rewrite Hj. destruct t; [contradiction | reflexivity].
Qed.

End LineFacts.

(** ** Facts about the frames on the wire *)

Lemma breakAt_cons (sep : jsstring) (c : codeunit) (s : jsstring) :
  breakAt sep (c :: s)
  = if startsWith sep (c :: s) then Some ([], skipn (length sep) (c :: s))
    else match breakAt sep s with
         | Some (t, rest) => Some (c :: t, rest)
         | None => None
         end.
Proof. reflexivity. Qed.




Lemma startsWith_NL (c : codeunit) (x : jsstring) :
  startsWith NL (c :: x) = N.eqb 10 c.
Proof. cbn. apply andb_true_r. Qed.

Lemma startsWith_NLNL (c : codeunit) (x : jsstring) :
  startsWith NLNL (c :: x) = N.eqb 10 c && startsWith NL x.
Proof. reflexivity. Qed.

Lemma not_newline (c : codeunit) : c <> 10%N -> N.eqb 10 c = false.
Proof. intros H. apply N.eqb_neq. congruence. Qed.

Lemma breakAt_NL_line (a rest : jsstring) :
  noNewline a -> breakAt NL (a ++ NL ++ rest) = Some (a, rest).
Proof.
  induction a as [|c a IH]; intros H; [reflexivity|].
  apply Forall_cons_iff in H as [Hc Ha]. specialize (IH Ha).
  change ((c :: a) ++ NL ++ rest) with (c :: (a ++ NL ++ rest)).
  rewrite !breakAt_cons. rewrite startsWith_NL, (not_newline c Hc). now rewrite IH.
Qed.

Lemma breakAt_NL_none (a : jsstring) : noNewline a -> breakAt NL a = None.
Proof.
  induction a as [|c a IH]; intros H; [reflexivity|].
  apply Forall_cons_iff in H as [Hc Ha]. specialize (IH Ha).
  rewrite !breakAt_cons. rewrite startsWith_NL, (not_newline c Hc). now rewrite IH.
Qed.

Lemma split_NL_line (a rest : jsstring) :
  noNewline a -> split NL (a ++ NL ++ rest) = a :: split NL rest.
Proof.
  intros H. rewrite split_eq by apply NL_nonempty. now rewrite breakAt_NL_line.
Qed.

Lemma split_NL_last (a : jsstring) : noNewline a -> split NL a = [a].
Proof.
  intros H. rewrite split_eq by apply NL_nonempty. now rewrite breakAt_NL_none.
Qed.

(** A scan for the blank line passes over text without newlines... *)
Lemma breakAt_NLNL_skip (a x : jsstring) :
  noNewline a ->
  breakAt NLNL (a ++ x)
  = match breakAt NLNL x with
    | Some (t, r) => Some (a ++ t, r)
    | None => None
    end.
Proof.
  induction a as [|c a IH]; intros H;
    [|apply Forall_cons_iff in H as [Hc Ha]; specialize (IH Ha)].
  - simpl. destruct (breakAt NLNL x) as [[t r]|]; reflexivity.
  - change ((c :: a) ++ x) with (c :: (a ++ x)).
    rewrite !breakAt_cons. rewrite startsWith_NLNL, (not_newline c Hc).
    cbn [andb]. rewrite IH. destruct (breakAt NLNL x) as [[t r]|]; reflexivity.
Qed.

(** ... and over a single newline followed by a line that is not empty. *)
Lemma breakAt_NLNL_newline (c : codeunit) (x : jsstring) :
  c <> 10%N ->
  breakAt NLNL (NL ++ c :: x)
  = match breakAt NLNL (c :: x) with
    | Some (t, r) => Some (NL ++ t, r)
    | None => None
    end.
Proof.
  intros Hc. change (NL ++ c :: x) with (10%N :: c :: x).
  rewrite !breakAt_cons. rewrite !startsWith_NLNL, startsWith_NL, (not_newline c Hc).
  cbn [N.eqb Pos.eqb andb].
  destruct (breakAt NLNL x) as [[t r]|]; reflexivity.
Qed.

Lemma noNewline_eventLine (t : jsstring) : noNewline t -> noNewline (eventLine t).
Proof.
  intros H. apply Forall_app. split; [|exact H].
  vm_compute. repeat constructor; discriminate.
Qed.

Lemma noNewline_dataLine (j : jsstring) : noNewline j -> noNewline (dataLine j).
Proof.
  intros H. apply Forall_app. split; [|exact H].
  vm_compute. repeat constructor; discriminate.
Qed.

Lemma breakAt_frameText (f : WireFrame) (rest : jsstring) :
  noNewline (frameType f) -> noNewline (frameData f) ->
  breakAt NLNL (frameText f ++ NLNL ++ rest) = Some (frameText f, rest).
Proof.
  intros Ht Hd. unfold frameText. rewrite <- !app_assoc.
  rewrite breakAt_NLNL_skip by now apply noNewline_eventLine.
  unfold dataLine at 1. lits. cbn [app].
  rewrite breakAt_NLNL_newline by discriminate.
  change (100%N :: 97%N :: 116%N :: 97%N :: 58%N :: 32%N
            :: frameData f ++ NLNL ++ rest)
    with (dataLine (frameData f) ++ NLNL ++ rest).
  rewrite breakAt_NLNL_skip by now apply noNewline_dataLine.
  change (breakAt NLNL (NLNL ++ rest)) with (Some (@nil codeunit, rest)).
  cbv iota beta. now rewrite app_nil_r.
Qed.

Lemma breakAt_frame (f rest : jsstring) :
  breakAt NLNL f = None -> last f 0%N <> 10%N ->
  breakAt NLNL (f ++ NLNL ++ rest) = Some (f, rest).
Proof.
  induction f as [|c f IH]; intros Hin Hend.
  - reflexivity.
  - change ((c :: f) ++ NLNL ++ rest) with (c :: (f ++ NLNL ++ rest)).
    rewrite breakAt_cons in Hin. rewrite breakAt_cons.
    destruct (startsWith NLNL (c :: f)) eqn:Es; [discriminate|].
    destruct (breakAt NLNL f) as [[t r]|] eqn:Eb; [discriminate|].
    assert (Eg : startsWith NLNL (c :: f ++ NLNL ++ rest) = false).
    { rewrite startsWith_NLNL in *. destruct f as [|d f].
      - cbn [last] in Hend. rewrite (not_newline c Hend). reflexivity.
      - change ((d :: f) ++ NLNL ++ rest) with (d :: (f ++ NLNL ++ rest)).
        rewrite startsWith_NL in *. exact Es. }
    rewrite Eg, IH; [reflexivity | reflexivity |].
    destruct f as [|d f]; [discriminate | exact Hend].
Qed.

Lemma split_delimited (fs : list jsstring) :
  Forall dataFrame fs -> split NLNL (delimited fs) = fs ++ [[]].
Proof.
  intros H; induction H as [|f fs Hf _ IH]; [reflexivity|].
  destruct Hf as (Hin & Hend & _).
  unfold delimited. cbn [map concat]. fold (delimited fs). rewrite <- app_assoc.
  rewrite split_eq by apply NLNL_nonempty.
  rewrite breakAt_frame by assumption. now rewrite IH.
Qed.

Section WireFacts.

Variable JSON_parse : jsstring -> option JSValue.

Lemma split_wire (fs : list WireFrame) :
  Forall (validFrame JSON_parse) fs ->
  split NLNL (wire fs) = map frameText fs ++ [[]].
Proof.
  intros H; induction H as [|f fs Hf _ IH]; [reflexivity|].
  destruct Hf as (_ & Ht & _ & _ & Hd & _).
  unfold wire. cbn [map concat]. fold (wire fs). rewrite <- app_assoc.
  rewrite split_eq by apply NLNL_nonempty.
  rewrite breakAt_frameText by assumption. now rewrite IH.
Qed.

Lemma split_frameText (f : WireFrame) :
  validFrame JSON_parse f ->
  split NL (frameText f) = [eventLine (frameType f); dataLine (frameData f)].
Proof.
  intros (_ & Ht & _ & _ & Hd & _). unfold frameText.
  rewrite split_NL_line by now apply noNewline_eventLine.
  rewrite split_NL_last by now apply noNewline_dataLine. reflexivity.
Qed.

Lemma parse_frameText (f : WireFrame) :
  validFrame JSON_parse f ->
  MessagesAPI.parseLines (split NL (frameText f))
  = {| MessagesAPI.eventType := Some (frameType f);
       MessagesAPI.dataLines := [frameData f] |}.
Proof.
  intros Hf. rewrite (split_frameText f Hf).
  destruct Hf as (_ & _ & Hts & _ & _ & Hds & _).
  unfold MessagesAPI.parseLines. cbn [fold_left].
  rewrite (forLine_event _ (eventLine (frameType f))) by apply startsWith_app_l, eq_refl.
  rewrite (forLine_data _ (dataLine (frameData f))) by apply startsWith_app_l, eq_refl.
  cbn [MessagesAPI.eventType MessagesAPI.dataLines app].
  assert (E1 : replacePrefixWs (lit "event:") (eventLine (frameType f)) = frameType f).
  { unfold eventLine. lits. exact Hts. }
  assert (E2 : replacePrefixWs (lit "data:") (dataLine (frameData f)) = frameData f).
  { unfold dataLine. lits. exact Hds. }
  now rewrite E1, E2.
Qed.

Lemma forChunks_wire (fs : list WireFrame) :
  Forall (validFrame JSON_parse) fs ->
  MessagesAPI.forChunks JSON_parse (map frameText fs) = (map frameEventOf fs, false).
Proof.
  intros H; induction H as [|f fs Hf _ IH]; [reflexivity|].
  cbn [map MessagesAPI.forChunks]. rewrite (parse_frameText f Hf), IH.
  destruct Hf as (Hne & _ & _ & Hnd & _ & _ & Hp).
  unfold MessagesAPI.frameEvent, MessagesAPI.parseData.
  cbn [MessagesAPI.dataLines MessagesAPI.eventType join MessagesAPI.isDone].
  rewrite Hp. apply eqb_neq in Hnd. rewrite Hnd.
  unfold frameEventOf, MessagesAPI.typeOrContent.
  destruct (frameType f); [contradiction | reflexivity].
Qed.

Lemma forChunks_frames (fs : list jsstring) :
  Forall dataFrame fs ->
  MessagesAPI.forChunks JSON_parse fs = (map (eventOfFrame JSON_parse) fs, false).
Proof.
  intros H; induction H as [|f fs Hf _ IH]; [reflexivity|].
  destruct Hf as (_ & _ & Hd & Hnd).
  rewrite (forChunks_cons JSON_parse f fs Hd), Hnd, IH. reflexivity.
Qed.

Lemma lines_wire (fs : list WireFrame) :
  Forall (validFrame JSON_parse) fs ->
  split NL (wire fs)
  = concat (map (fun f => [eventLine (frameType f); dataLine (frameData f); []]) fs)
    ++ [[]].
Proof.
  intros H; induction H as [|f fs Hf _ IH]; [reflexivity|].
  destruct Hf as (_ & Ht & _ & _ & Hd & _).
  unfold wire. cbn [map concat]. fold (wire fs).
  unfold frameText. rewrite <- !app_assoc.
  rewrite split_NL_line by now apply noNewline_eventLine.
  change (NLNL ++ wire fs) with (NL ++ [] ++ NL ++ wire fs).
  rewrite split_NL_line by now apply noNewline_dataLine.
  rewrite split_NL_line by constructor.
  now rewrite IH.
Qed.

Lemma fold_wire (fs : list WireFrame) (st : NimbleBrain.LineState) :
  Forall (validFrame JSON_parse) fs ->
  NimbleBrain.out
    (fold_left (NimbleBrain.forLine JSON_parse)
       (concat (map (fun f => [eventLine (frameType f); dataLine (frameData f); []]) fs))
       st)
  = NimbleBrain.out st ++ map frameEventOf fs.
Proof.
  intros H; revert st; induction H as [|f fs Hf _ IH]; intros st.
  - simpl. now rewrite app_nil_r.
  - cbn [map concat].
    change [eventLine (frameType f); dataLine (frameData f); []]
      with ([eventLine (frameType f); dataLine (frameData f)] ++ [[]]).
    rewrite <- app_assoc, !fold_left_app.
    destruct Hf as (Hne & _ & _ & _ & _ & _ & Hp).
    rewrite (fold_frame JSON_parse st _ _ _ Hne Hp), fold_blank, IH.
    cbn [NimbleBrain.out]. now rewrite <- app_assoc.
Qed.

(** On frames of the test suite's form the event is the type and the value
    written. *)
Corollary complete_wire (fs : list WireFrame) :
  Forall (validFrame JSON_parse) fs ->
  MessagesAPI.forChunks JSON_parse (complete NLNL (wire fs))
  = (map frameEventOf fs, false).
Proof.
  intros H. unfold complete. rewrite (split_wire fs H), removelast_last.
  now apply forChunks_wire.
Qed.

End WireFacts.

(** ** Facts about lines on the wire *)

Lemma split_lined (ls : list jsstring) :
  Forall noNewline ls -> split NL (lined ls) = ls ++ [[]].
Proof.
  intros H; induction H as [|l ls Hl _ IH]; [reflexivity|].
  unfold lined. cbn [map concat]. fold (lined ls). rewrite <- app_assoc.
  rewrite split_NL_line by assumption. now rewrite IH.
Qed.

Lemma complete_lined (ls : list jsstring) :
  Forall noNewline ls -> complete NL (lined ls) = ls.
Proof.
  intros H. unfold complete. rewrite (split_lined ls H). apply removelast_last.
Qed.

Section LinedFacts.

Variable JSON_parse : jsstring -> option JSValue.

Lemma lines_lineFrames (fs : list WireFrame) :
  Forall (lineFrame JSON_parse) fs ->
  split NL (wire fs)
  = concat (map (fun f => [eventLine (frameType f); dataLine (frameData f); []]) fs)
    ++ [[]].
Proof.
  intros H; induction H as [|f fs Hf _ IH]; [reflexivity|].
  destruct Hf as (_ & Ht & Hd & _).
  unfold wire. cbn [map concat]. fold (wire fs).
  unfold frameText. rewrite <- !app_assoc.
  rewrite split_NL_line by now apply noNewline_eventLine.
  change (NLNL ++ wire fs) with (NL ++ [] ++ NL ++ wire fs).
  rewrite split_NL_line by now apply noNewline_dataLine.
  rewrite split_NL_line by constructor.
  now rewrite IH.
Qed.

Lemma fold_lineFrames (fs : list WireFrame) (st : NimbleBrain.LineState) :
  Forall (lineFrame JSON_parse) fs ->
  NimbleBrain.out
    (fold_left (NimbleBrain.forLine JSON_parse)
       (concat (map (fun f => [eventLine (frameType f); dataLine (frameData f); []]) fs))
       st)
  = NimbleBrain.out st ++ map frameEventOf fs.
Proof.
  intros H; revert st; induction H as [|f fs Hf _ IH]; intros st.
  - simpl. now rewrite app_nil_r.
  - cbn [map concat].
    change [eventLine (frameType f); dataLine (frameData f); []]
      with ([eventLine (frameType f); dataLine (frameData f)] ++ [[]]).
    rewrite <- app_assoc, !fold_left_app.
    destruct Hf as (Hne & _ & _ & Hp).
    rewrite (fold_frame JSON_parse st _ _ _ Hne Hp), fold_blank, IH.
    cbn [NimbleBrain.out]. now rewrite <- app_assoc.
Qed.

(** A [data: ] line after the lines [pre], an [event: ] line and lines that
    are no [event: ] line. *)
Lemma linesRun_data_line (pre mid : list jsstring) (t j : jsstring) :
  Forall (fun l => startsWith (lit "event: ") l = false) mid ->
  linesRun JSON_parse (pre ++ eventLine t :: mid ++ [dataLine j])
  = linesRun JSON_parse (pre ++ eventLine t :: mid)
    ++ match t, JSON_parse j with
       | _ :: _, Some v => [{| type := t; data := v |}]
       | _, _ => []
       end.
Proof.
  intros Hmid. unfold linesRun.
  replace (pre ++ eventLine t :: mid ++ [dataLine j])
    with ((pre ++ eventLine t :: mid) ++ [dataLine j])
    by (rewrite <- app_assoc; reflexivity).
  rewrite fold_left_app. cbn [fold_left].
  rewrite forLine_data' by apply startsWith_app.
  replace (slice 6 (dataLine j)) with j by reflexivity.
  assert (Ht : NimbleBrain.currentEventType
                 (fold_left (NimbleBrain.forLine JSON_parse)
                    (pre ++ eventLine t :: mid)
                    {| NimbleBrain.currentEventType := [];
                       NimbleBrain.out := [] |}) = t).
  { rewrite fold_left_app. cbn [fold_left].
    rewrite fold_no_event' by assumption. now rewrite forLine_eventLine. }
  rewrite Ht. destruct t as [|c t]; [now rewrite app_nil_r|].
  destruct (JSON_parse j); [reflexivity | now rewrite app_nil_r].
Qed.

(** Lines before the first [event: ] line. *)
Lemma linesRun_untyped (mid : list jsstring) (j : jsstring) :
  Forall (fun l => startsWith (lit "event: ") l = false) mid ->
  linesRun JSON_parse (mid ++ [dataLine j]) = [].
Proof.
  intros Hmid. unfold linesRun. rewrite fold_untyped; [reflexivity | | reflexivity].
  apply Forall_app. split; [assumption|].
  constructor; [apply data_not_event', startsWith_app | constructor].
Qed.

End LinedFacts.

(** ** The claims *)

(** C1. Chunk boundaries do not matter: two ways of cutting the same byte
    stream into chunks (inside the delimiter, inside a UTF-8 character, byte
    by byte) give the same run, for both generators: the same events in the
    same order and the same completion. *)
Theorem chunking_invariance
    (JSON_parse : jsstring -> option JSValue) (D : TextDecoder)
    (st : N) (t : jsstring) (cs1 cs2 : list (list byte)) (e : ReadEnd) :
  concat cs1 = concat cs2 ->
  let r1 := {| status := st; text := t; body := Some {| chunks := cs1; ending := e |} |} in
  let r2 := {| status := st; text := t; body := Some {| chunks := cs2; ending := e |} |} in
  MessagesAPI.stream JSON_parse D r1 = MessagesAPI.stream JSON_parse D r2
  /\ NimbleBrain.streamMessage JSON_parse D r1 = NimbleBrain.streamMessage JSON_parse D r2.
Proof.
  intros Hcs r1 r2.
  destruct (ok r1) eqn:Hok.
  - assert (A1 : accepted r1 {| chunks := cs1; ending := e |}) by (split; [exact Hok | reflexivity]).
    assert (A2 : accepted r2 {| chunks := cs2; ending := e |}) by (split; [exact Hok | reflexivity]).
    rewrite (stream_accepted _ _ _ _ A1), (stream_accepted _ _ _ _ A2).
    rewrite (streamMessage_accepted _ _ _ _ A1), (streamMessage_accepted _ _ _ _ A2).
    unfold delivered, endOf. cbn [chunks ending]. rewrite Hcs. split; reflexivity.
  - unfold MessagesAPI.stream, NimbleBrain.streamMessage.
    change (ok r2) with (ok r1). rewrite Hok. split; reflexivity.
Qed.

Lemma chunking_invariance_witness :
  concat [firstn 31 sampleBytes; skipn 31 sampleBytes] = concat (byteByByte sampleBytes)
  /\ (let r1 := {| status := 200; text := [];
                   body := Some {| chunks := [firstn 31 sampleBytes; skipn 31 sampleBytes];
                                   ending := CleanClose |} |} in
      let r2 := {| status := 200; text := [];
                   body := Some {| chunks := byteByByte sampleBytes;
                                   ending := CleanClose |} |} in
      MessagesAPI.stream JSON.parse UTF8.decoder r1
      = MessagesAPI.stream JSON.parse UTF8.decoder r2
      /\ NimbleBrain.streamMessage JSON.parse UTF8.decoder r1
         = NimbleBrain.streamMessage JSON.parse UTF8.decoder r2).
Proof.
  split; [reflexivity|].
  apply (chunking_invariance JSON.parse UTF8.decoder 200 []
           [firstn 31 sampleBytes; skipn 31 sampleBytes]
           (byteByByte sampleBytes) CleanClose).
  reflexivity.
Defined.

(** C6, as amended. While the loop of [MessagesAPI.stream] runs, after every
    chunk its buffer is exactly the text received that follows the last
    blank-line delimiter the scan consumed: it is what the specification's
    scan leaves, it holds no delimiter, and it is a suffix of the text whose
    complement is empty or ends with a delimiter.  The buffer of
    [NimbleBrain.streamMessage] is the text after the last newline instead:
    it holds no newline and its complement is empty or ends with one. *)
Theorem buffer_invariant
    (JSON_parse : jsstring -> option JSValue) (D : TextDecoder)
    (reads : list jsstring) (v : jsstring) (values : list (list byte)) :
  MessagesAPI.returned (MessagesAPI.whileLoop JSON_parse reads) = false ->
  (let received := concat (reads ++ [v]) in
   let buf := MessagesAPI.buffer (MessagesAPI.whileLoop JSON_parse (reads ++ [v])) in
   buf = afterLastDelimiter received
   /\ breakAt NLNL buf = None
   /\ exists resolved,
        received = resolved ++ buf
        /\ (resolved = [] \/ exists p, resolved = p ++ NLNL))
  /\
  (let received := decoded D (concat values) in
   let buf := NimbleBrain.buffer D (NimbleBrain.whileLoop JSON_parse D values) in
   buf = pending NL received
   /\ breakAt NL buf = None
   /\ exists resolved,
        received = resolved ++ buf
        /\ (resolved = [] \/ exists p, resolved = p ++ NL)).
Proof.
  intros Hrun. split; cbv zeta.
  - assert (Hbuf : MessagesAPI.buffer (MessagesAPI.whileLoop JSON_parse (reads ++ [v]))
                   = pending NLNL (concat (reads ++ [v]))).
    { unfold MessagesAPI.whileLoop. rewrite fold_left_app. simpl fold_left.
      fold (MessagesAPI.whileLoop JSON_parse reads).
      rewrite (iteration_eq JSON_parse _ v Hrun). cbn [MessagesAPI.buffer].
      destruct (whileLoop_spec JSON_parse reads) as (_ & _ & Hb).
      rewrite (Hb Hrun), concat_app. simpl concat. rewrite app_nil_r.
      symmetry. apply pending_app, NLNL_nonempty. }
    rewrite Hbuf. split; [symmetry; apply afterLastDelimiter_pending|].
    split; [apply pending_closed, NLNL_nonempty | apply pending_suffix, NLNL_nonempty].
  - rewrite whileLoop_spec'. cbn [NimbleBrain.buffer].
    split; [reflexivity|].
    split; [apply pending_closed, NL_nonempty | apply pending_suffix, NL_nonempty].
Qed.

Lemma buffer_invariant_witness :
  MessagesAPI.returned
    (MessagesAPI.whileLoop JSON.parse [lit "event: content\ndata: {}\n"]) = false
  /\ MessagesAPI.buffer
       (MessagesAPI.whileLoop JSON.parse
          ([lit "event: content\ndata: {}\n"] ++ [lit "\n\nevent: do"]))
     = afterLastDelimiter
         (concat ([lit "event: content\ndata: {}\n"] ++ [lit "\n\nevent: do"])).
Proof.
  split; [reflexivity|].
  apply (buffer_invariant JSON.parse UTF8.decoder
           [lit "event: content\ndata: {}\n"] (lit "\n\nevent: do") []).
  reflexivity.
Defined.

(** C6 as stated fails for [NimbleBrain.streamMessage]: with no blank line
    received yet, its buffer holds only the text after the last newline. *)
Lemma buffer_invariant_counterexample :
  let values := [UTF8.encodeAscii (lit "event: a\ndata: {}\nxy")] in
  NimbleBrain.buffer UTF8.decoder
    (NimbleBrain.whileLoop JSON.parse UTF8.decoder values) = lit "xy"
  /\ afterLastDelimiter (decoded UTF8.decoder (concat values))
     = lit "event: a\ndata: {}\nxy"
  /\ NimbleBrain.buffer UTF8.decoder
       (NimbleBrain.whileLoop JSON.parse UTF8.decoder values)
     <> afterLastDelimiter (decoded UTF8.decoder (concat values)).
Proof.
  cbv zeta. split; [reflexivity|]. split; [reflexivity|].
  vm_compute. discriminate.
Qed.

(** C3, as amended. A frame with no [data:] line yields no event: in
    [MessagesAPI.stream] the frame is skipped whatever its [event:] line
    says, and in [NimbleBrain.streamMessage] a line that is not a [data: ]
    line yields nothing. *)
Theorem frame_without_data_skipped
    (JSON_parse : jsstring -> option JSValue)
    (pre post : list jsstring) (chunk : jsstring)
    (st : NimbleBrain.LineState) (line : jsstring) :
  Forall (fun l => startsWith (lit "data:") l = false) (split NL chunk) ->
  startsWith (lit "data: ") line = false ->
  MessagesAPI.forChunks JSON_parse (pre ++ chunk :: post)
  = MessagesAPI.forChunks JSON_parse (pre ++ post)
  /\ NimbleBrain.out (NimbleBrain.forLine JSON_parse st line) = NimbleBrain.out st.
Proof.
  intros Hchunk Hline. split.
  - apply forChunks_skip, frameEvent_none.
    unfold MessagesAPI.parseLines. now rewrite fold_no_data.
  - now apply forLine_no_data.
Qed.

Lemma frame_without_data_skipped_witness :
  Forall (fun l => startsWith (lit "data:") l = false)
         (split NL (lit "event: tool.complete"))
  /\ startsWith (lit "data: ") (lit "event: tool.complete") = false
  /\ MessagesAPI.forChunks JSON.parse
       ([lit "event: content\ndata: {}"] ++ lit "event: tool.complete" :: [])
     = MessagesAPI.forChunks JSON.parse ([lit "event: content\ndata: {}"] ++ []).
Proof.
  assert (H1 : Forall (fun l => startsWith (lit "data:") l = false)
                      (split NL (lit "event: tool.complete"))).
  { vm_compute. repeat constructor. }
  split; [exact H1|]. split; [reflexivity|].
  apply (frame_without_data_skipped JSON.parse _ _ _
           {| NimbleBrain.currentEventType := []; NimbleBrain.out := [] |}
           (lit "event: tool.complete") H1).
  reflexivity.
Defined.

(** C3 as stated fails: the frame [event: tool.complete] alone yields no
    event in either generator, where the claim has one event with data [{}]. *)
Lemma frame_without_data_counterexample :
  let r := respond 200 [] [lit "event: tool.complete\n\n"] CleanClose in
  yielded (stream r) = []
  /\ yielded (streamMessage r) = []
  /\ yielded (stream r) <> [event "tool.complete" (JObject [])]
  /\ yielded (streamMessage r) <> [event "tool.complete" (JObject [])].
Proof.
  cbv zeta. repeat split; try reflexivity; vm_compute; discriminate.
Qed.

(** C10. A frame that is only [event: done] is ignored by
    [MessagesAPI.stream]: it yields no event and does not end the decoding,
    so the run is the one of the frames around it; the generator returns at
    a frame exactly when that frame has a data line and the type [done]. *)
Theorem bare_done_frame_ignored
    (JSON_parse : jsstring -> option JSValue) (D : TextDecoder)
    (r : Response) (b : Body)
    (pre post : list jsstring) (chunk : jsstring) :
  accepted r b ->
  complete NLNL (delivered D b) = pre ++ lit "event: done" :: post ->
  MessagesAPI.stream JSON_parse D r
  = {| yielded := fst (MessagesAPI.forChunks JSON_parse (pre ++ post));
       completion :=
         if snd (MessagesAPI.forChunks JSON_parse (pre ++ post)) then Returned
         else endOf b |}
  /\ MessagesAPI.forChunks JSON_parse (pre ++ lit "event: done" :: post)
     = MessagesAPI.forChunks JSON_parse (pre ++ post)
  /\ snd (MessagesAPI.forChunks JSON_parse [chunk])
     = match MessagesAPI.dataLines (MessagesAPI.parseLines (split NL chunk)) with
       | [] => false
       | _ :: _ =>
           MessagesAPI.isDone
             (MessagesAPI.eventType (MessagesAPI.parseLines (split NL chunk)))
       end.
Proof.
  intros Hacc Hframes.
  assert (Hskip : MessagesAPI.forChunks JSON_parse (pre ++ lit "event: done" :: post)
                  = MessagesAPI.forChunks JSON_parse (pre ++ post)).
  { apply forChunks_skip. reflexivity. }
  split; [|split].
  - rewrite (stream_accepted _ _ _ _ Hacc). cbv zeta.
    now rewrite Hframes, Hskip.
  - exact Hskip.
  - cbn [MessagesAPI.forChunks]. unfold MessagesAPI.frameEvent.
    destruct (MessagesAPI.dataLines _); [reflexivity|].
    destruct (MessagesAPI.isDone _); reflexivity.
Qed.

Lemma bare_done_frame_ignored_witness :
  MessagesAPI.stream JSON.parse UTF8.decoder
    (respond 200 []
       [lit "event: content\ndata: {'n':1}\n\nevent: done\n\n";
        lit "event: content\ndata: {'n':2}\n\n"] CleanClose)
  = {| yielded := [event "content" (JObject [(lit "n", JNumber false 1 0)]);
                   event "content" (JObject [(lit "n", JNumber false 2 0)])];
       completion := Returned |}.
Proof.
  refine (proj1 (bare_done_frame_ignored JSON.parse UTF8.decoder _
            {| chunks := map UTF8.encodeAscii
                           [lit "event: content\ndata: {'n':1}\n\nevent: done\n\n";
                            lit "event: content\ndata: {'n':2}\n\n"];
               ending := CleanClose |}
            [lit "event: content\ndata: {'n':1}"]
            [lit "event: content\ndata: {'n':2}"] [] _ _)).
  - split; reflexivity.
  - reflexivity.
Defined.

(** C7, as amended. In a frame of [MessagesAPI.stream] the last [event:]
    line wins, also after [data:] lines: the frame's type is the value of
    that line, and the event yielded carries this value, or [content] when
    the value is empty. *)
Theorem last_event_line_wins
    (JSON_parse : jsstring -> option JSValue)
    (chunk : jsstring) (pre post : list jsstring) (l : jsstring) :
  split NL chunk = pre ++ l :: post ->
  startsWith (lit "event:") l = true ->
  Forall (fun x => startsWith (lit "event:") x = false) post ->
  let f := MessagesAPI.parseLines (split NL chunk) in
  let value := replacePrefixWs (lit "event:") l in
  MessagesAPI.eventType f = Some value
  /\ option_map type (MessagesAPI.frameEvent JSON_parse f)
     = match MessagesAPI.dataLines f with
       | [] => None
       | _ :: _ => Some (match value with [] => lit "content" | _ :: _ => value end)
       end.
Proof.
  intros Hs Hl Hpost f value.
  assert (Ht : MessagesAPI.eventType f = Some value).
  { unfold f, MessagesAPI.parseLines. rewrite Hs, fold_left_app. simpl fold_left.
    rewrite fold_no_event by assumption. now rewrite forLine_event. }
  split; [exact Ht|].
  unfold MessagesAPI.frameEvent. destruct (MessagesAPI.dataLines f); [reflexivity|].
  cbn [option_map type]. rewrite Ht. destruct value; reflexivity.
Qed.

Lemma last_event_line_wins_witness :
  let chunk := lit "data: {}\nevent: first\ndata: 1\nevent: second" in
  split NL chunk = [lit "data: {}"; lit "event: first"; lit "data: 1"] ++ lit "event: second" :: []
  /\ MessagesAPI.eventType (MessagesAPI.parseLines (split NL chunk)) = Some (lit "second").
Proof.
  cbv zeta. split; [reflexivity|].
  apply (last_event_line_wins JSON.parse
           (lit "data: {}\nevent: first\ndata: 1\nevent: second")
           [lit "data: {}"; lit "event: first"; lit "data: 1"] []
           (lit "event: second")).
  - reflexivity.
  - reflexivity.
  - constructor.
Defined.

(** C7 as stated fails when the last [event:] line has an empty value: the
    event yielded has the type [content], not that value. *)
Lemma last_event_line_counterexample :
  let lines := split NL (lit "event: first\nevent:\ndata: {}") in
  lines = [lit "event: first"; lit "event:"; lit "data: {}"]
  /\ replacePrefixWs (lit "event:") (lit "event:") = []
  /\ option_map type (MessagesAPI.frameEvent JSON.parse (MessagesAPI.parseLines lines))
     = Some (lit "content")
  /\ option_map type (MessagesAPI.frameEvent JSON.parse (MessagesAPI.parseLines lines))
     <> Some (replacePrefixWs (lit "event:") (lit "event:")).
Proof.
  cbv zeta. repeat split; try reflexivity. vm_compute. discriminate.
Qed.




(** C4, as amended. In [MessagesAPI.stream] a frame whose joined data text
    [JSON.parse] rejects yields an event whose data is [{ raw: dataText }],
    and decoding goes on with the next frame (unless the frame is the
    [done] frame, after which the generator returns).  In
    [NimbleBrain.streamMessage] a [data: ] line that [JSON.parse] rejects
    yields no event and leaves the state as it was, so decoding goes on.
    In neither does a payload abort the run: a body closed cleanly ends it
    normally. *)
Theorem payload_fallback
    (JSON_parse : jsstring -> option JSValue) (D : TextDecoder)
    (chunk : jsstring) (rest : list jsstring)
    (st : NimbleBrain.LineState) (line : jsstring)
    (r : Response) (b : Body) :
  MessagesAPI.dataLines (MessagesAPI.parseLines (split NL chunk)) <> [] ->
  JSON_parse (join NL (MessagesAPI.dataLines (MessagesAPI.parseLines (split NL chunk))))
  = None ->
  startsWith (lit "event: ") line = false ->
  JSON_parse (slice 6 line) = None ->
  accepted r b -> ending b = CleanClose ->
  let f := MessagesAPI.parseLines (split NL chunk) in
  let ev := {| type := MessagesAPI.typeOrContent (MessagesAPI.eventType f);
               data := JObject [(lit "raw", JString (join NL (MessagesAPI.dataLines f)))] |} in
  MessagesAPI.forChunks JSON_parse (chunk :: rest)
  = (if MessagesAPI.isDone (MessagesAPI.eventType f) then ([ev], true)
     else (ev :: fst (MessagesAPI.forChunks JSON_parse rest),
           snd (MessagesAPI.forChunks JSON_parse rest)))
  /\ NimbleBrain.forLine JSON_parse st line = st
  /\ completion (MessagesAPI.stream JSON_parse D r) = Returned
  /\ completion (NimbleBrain.streamMessage JSON_parse D r) = Returned.
Proof.
  intros Hd Hp Hl Hq Hacc Hend f ev. repeat split.
  - rewrite (forChunks_cons JSON_parse chunk rest Hd). fold f.
    unfold MessagesAPI.parseData. fold f in Hp. rewrite Hp. reflexivity.
  - now apply forLine_unparsed.
  - rewrite (stream_accepted _ _ _ _ Hacc). cbv zeta. cbn [completion].
    unfold endOf. rewrite Hend. now destruct (snd _).
  - rewrite (streamMessage_accepted _ _ _ _ Hacc). cbn [completion].
    unfold endOf. now rewrite Hend.
Qed.

Lemma payload_fallback_witness :
  MessagesAPI.forChunks JSON.parse
    [lit "data: not-json-{{{"; lit "event: content\ndata: {}"]
  = ([event "content" (JObject [(lit "raw", JString (lit "not-json-{{{"))]);
      event "content" (JObject [])], false).
Proof.
  refine (proj1 (payload_fallback JSON.parse UTF8.decoder
            (lit "data: not-json-{{{") [lit "event: content\ndata: {}"]
            {| NimbleBrain.currentEventType := lit "content"; NimbleBrain.out := [] |}
            (lit "data: not-json-{{{")
            (respond 200 [] [lit "data: not-json-{{{\n\n"] CleanClose)
            {| chunks := map UTF8.encodeAscii [lit "data: not-json-{{{\n\n"];
               ending := CleanClose |}
            _ _ _ _ _ _)).
  - vm_compute. discriminate.
  - reflexivity.
  - reflexivity.
  - reflexivity.
  - split; reflexivity.
  - reflexivity.
Defined.

(** C4 as stated fails for [NimbleBrain.streamMessage]: the payload that
    does not parse yields no event at all, where [MessagesAPI.stream] yields
    the fallback event. *)
Lemma payload_fallback_counterexample :
  let r := respond 200 []
             [lit "event: content\ndata: not-json-{{{\n\nevent: content\ndata: {}\n\n"]
             CleanClose in
  yielded (streamMessage r) = [event "content" (JObject [])]
  /\ yielded (stream r)
     = [event "content" (JObject [(lit "raw", JString (lit "not-json-{{{"))]);
        event "content" (JObject [])]
  /\ ~ In (event "content" (JObject [(lit "raw", JString (lit "not-json-{{{"))]))
          (yielded (streamMessage r)).
Proof.
  cbv zeta. split; [reflexivity|]. split; [reflexivity|].
  vm_compute. intros [H|[]]. discriminate.
Qed.

(** C9, as amended. In [NimbleBrain.streamMessage] the current event type
    outlives the frame.  Take a stream whose text is lines, each with its
    newline: any lines, an [event: ] line with the value [t], lines that are
    no [event: ] line (blank lines and other [data: ] lines among them) and
    a [data: ] line with the payload [j].  Its events are the events of the
    stream that stops before this last line, followed, when [t] is not
    empty and [j] parses as JSON, by one event of type [t] with the parsed
    payload, and by nothing otherwise.  A stream with no [event: ] line
    before the [data: ] line yields nothing. *)
Theorem type_persists_across_frames
    (JSON_parse : jsstring -> option JSValue) (D : TextDecoder)
    (r r0 r1 : Response) (b b0 b1 : Body)
    (pre mid : list jsstring) (t j : jsstring) :
  accepted r b -> accepted r0 b0 -> accepted r1 b1 ->
  Forall noNewline (pre ++ eventLine t :: mid ++ [dataLine j]) ->
  Forall (fun l => startsWith (lit "event: ") l = false) mid ->
  decoded D (concat (chunks b)) = lined (pre ++ eventLine t :: mid ++ [dataLine j]) ->
  decoded D (concat (chunks b0)) = lined (pre ++ eventLine t :: mid) ->
  decoded D (concat (chunks b1)) = lined (mid ++ [dataLine j]) ->
  yielded (NimbleBrain.streamMessage JSON_parse D r)
  = yielded (NimbleBrain.streamMessage JSON_parse D r0)
    ++ match t, JSON_parse j with
       | _ :: _, Some v => [{| type := t; data := v |}]
       | _, _ => []
       end
  /\ yielded (NimbleBrain.streamMessage JSON_parse D r1) = [].
Proof.
  intros Hacc Hacc0 Hacc1 Hnl Hmid Htext Htext0 Htext1.
  rewrite (streamMessage_accepted _ _ _ _ Hacc),
          (streamMessage_accepted _ _ _ _ Hacc0),
          (streamMessage_accepted _ _ _ _ Hacc1).
  cbn [yielded]. rewrite Htext, Htext0, Htext1.
  apply Forall_app in Hnl. destruct Hnl as [Hpre Hrest].
  apply Forall_cons_iff in Hrest. destruct Hrest as [He Hrest].
  pose proof Hrest as Hrest'.
  apply Forall_app in Hrest. destruct Hrest as [Hm Hd].
  rewrite !complete_lined.
  - split.
    + exact (linesRun_data_line JSON_parse pre mid t j Hmid).
    + exact (linesRun_untyped JSON_parse mid j Hmid).
  - exact Hrest'.
  - apply Forall_app. split; [assumption|]. now constructor.
  - apply Forall_app. split; [assumption|]. now constructor.
Qed.

Lemma type_persists_across_frames_witness :
  yielded (streamMessage
             (respond 200 []
                [lit "event: content\ndata: {'n':1}\n\nid";
                 lit ": 7\n\ndata: {'n':2}\n"] CleanClose))
  = yielded (streamMessage
               (respond 200 []
                  [lit "event: content\ndata: {'n':1}\n\nid"; lit ": 7\n\n"]
                  CleanClose))
    ++ [event "content" (JObject [(lit "n", JNumber false 2 0)])]
  /\ yielded (streamMessage
                (respond 200 []
                   [lit "data: {'n':1}\n\nid: 7\n\ndata: {'n':2}\n"] CleanClose))
     = [].
Proof.
  refine (type_persists_across_frames JSON.parse UTF8.decoder
            (respond 200 []
               [lit "event: content\ndata: {'n':1}\n\nid";
                lit ": 7\n\ndata: {'n':2}\n"] CleanClose)
            (respond 200 []
               [lit "event: content\ndata: {'n':1}\n\nid"; lit ": 7\n\n"]
               CleanClose)
            (respond 200 []
               [lit "data: {'n':1}\n\nid: 7\n\ndata: {'n':2}\n"] CleanClose)
            _ _ _
            [] [lit "data: {'n':1}"; []; lit "id: 7"; []]
            (lit "content") (lit "{'n':2}") _ _ _ _ _ _ _ _).
  - split; reflexivity.
  - split; reflexivity.
  - split; reflexivity.
  - vm_compute. repeat constructor; discriminate.
  - vm_compute. repeat constructor.
  - reflexivity.
  - reflexivity.
  - reflexivity.
Defined.

(** C9 as stated fails: a [data: ] line is not always emitted with the type
    of the most recent [event: ] line.  After [event: ] with no value the
    type is the empty string and the line that follows yields nothing; and
    a payload that is not JSON yields nothing under any type. *)
Lemma type_persists_counterexample :
  let r := respond 200 []
             [lit "event: content\ndata: {'n':1}\n\nevent: \ndata: {'n':2}\n\n"]
             CleanClose in
  let r' := respond 200 [] [lit "event: content\ndata: oops\n\n"] CleanClose in
  streamMessage r
  = {| yielded := [event "content" (JObject [(lit "n", JNumber false 1 0)])];
       completion := Returned |}
  /\ streamMessage r' = {| yielded := []; completion := Returned |}.
Proof. cbv zeta. split; reflexivity. Qed.

(** C8, as amended. A body that closes cleanly makes both generators end
    normally, whatever it delivered.  After exactly N complete frames, none
    of them terminal, [MessagesAPI.stream] has yielded exactly the N events
    of these frames when every frame has a [data:] line, and
    [NimbleBrain.streamMessage] has when every frame is one [event: ] line
    naming a type followed by one [data: ] line of JSON text (no type is
    terminal for it). *)
Theorem graceful_end
    (JSON_parse : jsstring -> option JSValue) (D : TextDecoder)
    (r : Response) (b : Body) :
  accepted r b -> ending b = CleanClose ->
  completion (MessagesAPI.stream JSON_parse D r) = Returned
  /\ completion (NimbleBrain.streamMessage JSON_parse D r) = Returned
  /\ (forall fs : list jsstring,
        Forall dataFrame fs ->
        delivered D b = delimited fs ->
        yielded (MessagesAPI.stream JSON_parse D r)
        = map (eventOfFrame JSON_parse) fs
        /\ length (yielded (MessagesAPI.stream JSON_parse D r)) = length fs)
  /\ (forall ws : list WireFrame,
        Forall (lineFrame JSON_parse) ws ->
        decoded D (concat (chunks b)) = wire ws ->
        yielded (NimbleBrain.streamMessage JSON_parse D r) = map frameEventOf ws
        /\ length (yielded (NimbleBrain.streamMessage JSON_parse D r)) = length ws).
Proof.
  intros Hacc Hend.
  rewrite (stream_accepted _ _ _ _ Hacc), (streamMessage_accepted _ _ _ _ Hacc).
  cbv zeta. cbn [yielded completion]. unfold endOf. rewrite Hend.
  split; [now destruct (snd _)|]. split; [reflexivity|]. split.
  - intros fs Hfs Htext. rewrite Htext.
    unfold complete. rewrite (split_delimited fs Hfs), removelast_last.
    rewrite (forChunks_frames JSON_parse fs Hfs). cbn [fst].
    now rewrite length_map.
  - intros ws Hws Htext. rewrite Htext.
    unfold complete. rewrite (lines_lineFrames JSON_parse ws Hws), removelast_last.
    rewrite (fold_lineFrames JSON_parse ws _ Hws).
    change (NimbleBrain.out (NimbleBrain.lineState D (NimbleBrain.start D)))
      with (@nil StreamEvent).
    cbn [app]. now rewrite length_map.
Qed.

Lemma graceful_end_witness :
  let r := respond 200 []
             [lit "event:  think\ndata: {}\n\nevent: con";
              lit "tent\ndata:  {'text':'Hello'}\n\n"] CleanClose in
  completion (stream r) = Returned
  /\ completion (streamMessage r) = Returned
  /\ (yielded (stream r)
      = [event "think" (JObject []);
         event "content" (JObject [(lit "text", JString (lit "Hello"))])]
      /\ length (yielded (stream r)) = 2)
  /\ (yielded (streamMessage r)
      = [event " think" (JObject []);
         event "content" (JObject [(lit "text", JString (lit "Hello"))])]
      /\ length (yielded (streamMessage r)) = 2).
Proof.
  cbv zeta.
  destruct (graceful_end JSON.parse UTF8.decoder
              (respond 200 []
                 [lit "event:  think\ndata: {}\n\nevent: con";
                  lit "tent\ndata:  {'text':'Hello'}\n\n"] CleanClose)
              {| chunks := map UTF8.encodeAscii
                             [lit "event:  think\ndata: {}\n\nevent: con";
                              lit "tent\ndata:  {'text':'Hello'}\n\n"];
                 ending := CleanClose |})
    as (H1 & H2 & H3 & H4).
  - split; reflexivity.
  - reflexivity.
  - split; [exact H1|]. split; [exact H2|]. split.
    + apply (H3 [lit "event:  think\ndata: {}";
                 lit "event: content\ndata:  {'text':'Hello'}"]).
      * repeat constructor; try reflexivity; vm_compute; discriminate.
      * reflexivity.
    + apply (H4 [ {| frameType := lit " think"; frameData := lit "{}";
                     frameValue := JObject [] |};
                  {| frameType := lit "content"; frameData := lit " {'text':'Hello'}";
                     frameValue := JObject [(lit "text", JString (lit "Hello"))] |} ]).
      * repeat constructor; try discriminate; try reflexivity;
          vm_compute; repeat constructor; discriminate.
      * reflexivity.
Defined.

(** C8 as stated fails on frames the wire format allows: after a frame with
    data and a frame that is only [event: tool.complete], both generators
    yield one event, not two; and [NimbleBrain.streamMessage] yields nothing
    for a frame that has a [data: ] line but no [event: ] line. *)
Lemma graceful_end_counterexample :
  let r := respond 200 []
             [lit "event: content\ndata: {}\n\nevent: tool.complete\n\n"] CleanClose in
  let r' := respond 200 [] [lit "data: {'n':1}\n\n"] CleanClose in
  stream r = {| yielded := [event "content" (JObject [])]; completion := Returned |}
  /\ streamMessage r
     = {| yielded := [event "content" (JObject [])]; completion := Returned |}
  /\ stream r'
     = {| yielded := [event "content" (JObject [(lit "n", JNumber false 1 0)])];
          completion := Returned |}
  /\ streamMessage r' = {| yielded := []; completion := Returned |}.
Proof. cbv zeta. repeat split; reflexivity. Qed.




(** ** The repository's tests, run on the model *)

(** [should stream SSE events]. *)
Example test_stream_sse_events :
  stream (respond 200 []
            [lit "event: message.start\ndata: {'messageId':'msg-1'}\n\nevent: content\ndata: {'text':'Hello'}\n\nevent: content\ndata: {'text':' world'}\n\nevent: done\ndata: {}\n\n"]
            CleanClose)
  = {| yielded :=
         [event "message.start" (JObject [(lit "messageId", JString (lit "msg-1"))]);
          event "content" (JObject [(lit "text", JString (lit "Hello"))]);
          event "content" (JObject [(lit "text", JString (lit " world"))]);
          event "done" (JObject [])];
       completion := Returned |}.
Proof. reflexivity. Qed.

(** [should handle chunked SSE data], the scenario of the specification. *)
Example test_chunked_sse_data :
  stream (respond 200 []
            [lit "event: content\ndata: {'te";
             lit "xt':'chunk1'}\n\nevent: done\ndata: {}\n\n"]
            CleanClose)
  = {| yielded :=
         [event "content" (JObject [(lit "text", JString (lit "chunk1"))]);
          event "done" (JObject [])];
       completion := Returned |}.
Proof. reflexivity. Qed.

(** [should throw on non-ok response]. *)
Example test_non_ok_response :
  stream unauthorized
  = {| yielded := [];
       completion :=
         Thrown (Error (JString (lit "Stream request failed: 401 Unauthorized"))) |}.
Proof. reflexivity. Qed.

(** [should throw when no response body]. *)
Example test_no_response_body :
  stream {| status := 200; text := []; body := None |}
  = {| yielded := [];
       completion := Thrown (Error (JString (lit "No response body for streaming"))) |}.
Proof. reflexivity. Qed.

(** [should handle tool events]. *)
Example test_tool_events :
  map type
    (yielded
       (stream (respond 200 []
                  [lit "event: tool.start\ndata: {'tool':'search','display':'Searching...'}\n\nevent: tool.complete\ndata: {'tool':'search'}\n\nevent: done\ndata: {}\n\n"]
                  CleanClose)))
  = [lit "tool.start"; lit "tool.complete"; lit "done"].
Proof. reflexivity. Qed.

(** * Further properties of the two generators *)

Section Growth.

Variable JSON_parse : jsstring -> option JSValue.
Variable D : TextDecoder.

Lemma iterations_grow (vs : list jsstring) (st : MessagesAPI.LoopState) :
  exists later,
    MessagesAPI.out (fold_left (MessagesAPI.iteration JSON_parse) vs st)
    = MessagesAPI.out st ++ later
    /\ implb (MessagesAPI.returned st)
             (MessagesAPI.returned (fold_left (MessagesAPI.iteration JSON_parse) vs st))
       = true.
Proof.
  revert st; induction vs as [|v vs IH]; intros st.
  - exists []. simpl. rewrite app_nil_r. split; [reflexivity|].
    now destruct (MessagesAPI.returned st).
  - simpl fold_left. destruct (IH (MessagesAPI.iteration JSON_parse st v)) as (l & Ho & Hr).
    destruct (MessagesAPI.returned st) eqn:E.
    + assert (Es : MessagesAPI.iteration JSON_parse st v = st).
      { unfold MessagesAPI.iteration. now rewrite E. }
      rewrite Es in *. rewrite E in Hr. exists l. split; assumption.
    + pose proof (iteration_eq JSON_parse st v E) as Eq.
      rewrite Eq in Ho. cbn [MessagesAPI.out] in Ho. rewrite <- app_assoc in Ho.
      rewrite Eq. eexists. split; [exact Ho | reflexivity].
Qed.

Lemma forLine_grows (st : NimbleBrain.LineState) (l : jsstring) :
  exists later,
    NimbleBrain.out (NimbleBrain.forLine JSON_parse st l)
    = NimbleBrain.out st ++ later.
Proof.
  unfold NimbleBrain.forLine.
  destruct (startsWith (lit "event: ") l); [exists []; now rewrite app_nil_r|].
  destruct (_ && _); [|exists []; now rewrite app_nil_r].
  destruct (JSON_parse _); [eexists; reflexivity | exists []; now rewrite app_nil_r].
Qed.

Lemma lines_grow (ls : list jsstring) (st : NimbleBrain.LineState) :
  exists later,
    NimbleBrain.out (fold_left (NimbleBrain.forLine JSON_parse) ls st)
    = NimbleBrain.out st ++ later.
Proof.
  revert st; induction ls as [|l ls IH]; intros st.
  - exists []. simpl. now rewrite app_nil_r.
  - simpl. destruct (IH (NimbleBrain.forLine JSON_parse st l)) as (l2 & H2).
    destruct (forLine_grows st l) as (l1 & H1).
    exists (l1 ++ l2). now rewrite H2, H1, app_assoc.
Qed.

Lemma iterations_grow' (vs : list (list byte)) (st : NimbleBrain.LoopState D) :
  exists later,
    NimbleBrain.out
      (NimbleBrain.lineState D (fold_left (NimbleBrain.iteration JSON_parse D) vs st))
    = NimbleBrain.out (NimbleBrain.lineState D st) ++ later.
Proof.
  revert st; induction vs as [|v vs IH]; intros st.
  - exists []. simpl. now rewrite app_nil_r.
  - simpl fold_left.
    destruct (IH (NimbleBrain.iteration JSON_parse D st v)) as (l2 & H2).
    rewrite iteration_eq' in H2. cbn [NimbleBrain.lineState] in H2.
    destruct (lines_grow
                (complete NL (NimbleBrain.buffer D st
                              ++ snd (decode D (NimbleBrain.decoder D st) v)))
                (NimbleBrain.lineState D st)) as (l1 & H1).
    exists (l1 ++ l2). rewrite <- iteration_eq' in H2. now rewrite H2, H1, app_assoc.
Qed.

End Growth.

(** X1. Output only grows: whatever arrives later, the events either loop
    has yielded so far stay as they are and in front; and once
    [MessagesAPI.stream] has returned on [done], what arrives later changes
    nothing: the events, the buffer and the mark stay as they are. *)
Theorem output_only_grows
    (JSON_parse : jsstring -> option JSValue) (D : TextDecoder)
    (reads more : list jsstring) (values extra : list (list byte)) :
  (exists later,
     MessagesAPI.out (MessagesAPI.whileLoop JSON_parse (reads ++ more))
     = MessagesAPI.out (MessagesAPI.whileLoop JSON_parse reads) ++ later)
  /\ (MessagesAPI.returned (MessagesAPI.whileLoop JSON_parse reads) = true ->
      MessagesAPI.whileLoop JSON_parse (reads ++ more)
      = MessagesAPI.whileLoop JSON_parse reads)
  /\ (exists later,
        NimbleBrain.out
          (NimbleBrain.lineState D (NimbleBrain.whileLoop JSON_parse D (values ++ extra)))
        = NimbleBrain.out
            (NimbleBrain.lineState D (NimbleBrain.whileLoop JSON_parse D values))
          ++ later).
Proof.
  unfold MessagesAPI.whileLoop, NimbleBrain.whileLoop. rewrite !fold_left_app.
  destruct (iterations_grow JSON_parse more
              (fold_left (MessagesAPI.iteration JSON_parse) reads MessagesAPI.start))
    as (l & Ho & Hr).
  split; [now exists l|]. split.
  - intros Hret. now apply iterations_returned.
  - apply iterations_grow'.
Qed.

Lemma output_only_grows_witness :
  MessagesAPI.whileLoop JSON.parse
    ([lit "event: content\ndata: {}\n\nevent: done\ndata: {}\n\nevent: con"]
     ++ [lit "tent\ndata: {'late':1}\n\n"])
  = MessagesAPI.whileLoop JSON.parse
      [lit "event: content\ndata: {}\n\nevent: done\ndata: {}\n\nevent: con"].
Proof.
  apply (proj1 (proj2 (output_only_grows JSON.parse UTF8.decoder
           [lit "event: content\ndata: {}\n\nevent: done\ndata: {}\n\nevent: con"]
           [lit "tent\ndata: {'late':1}\n\n"] [] []))).
  reflexivity.
Defined.

(** X2. Lines that carry neither field are ignored: dropping every line of a
    frame that starts with neither [event:] nor [data:] (an [id:] or [retry:]
    field, a comment) leaves the frame [MessagesAPI.stream] parses unchanged,
    and dropping every line that starts with neither [event: ] nor [data: ]
    leaves the run of [NimbleBrain.streamMessage] unchanged. *)
Theorem other_fields_ignored
    (JSON_parse : jsstring -> option JSValue)
    (ls : list jsstring) (st : NimbleBrain.LineState) :
  MessagesAPI.parseLines (filter isField ls) = MessagesAPI.parseLines ls
  /\ fold_left (NimbleBrain.forLine JSON_parse) (filter isSpacedField ls) st
     = fold_left (NimbleBrain.forLine JSON_parse) ls st.
Proof.
  split.
  - unfold MessagesAPI.parseLines.
    generalize {| MessagesAPI.eventType := None; MessagesAPI.dataLines := [] |}.
    induction ls as [|l ls IH]; intros f; [reflexivity|].
    cbn [filter]. unfold isField at 1.
    destruct (startsWith (lit "event:") l) eqn:He.
    + cbn [orb fold_left]. apply IH.
    + destruct (startsWith (lit "data:") l) eqn:Hd.
      * cbn [orb fold_left]. apply IH.
      * cbn [orb fold_left]. rewrite IH. f_equal.
        unfold MessagesAPI.forLine. now rewrite He, Hd.
  - revert st. induction ls as [|l ls IH]; intros st; [reflexivity|].
    cbn [filter]. unfold isSpacedField at 1.
    destruct (startsWith (lit "event: ") l) eqn:He.
    + cbn [orb fold_left]. apply IH.
    + destruct (startsWith (lit "data: ") l) eqn:Hd.
      * cbn [orb fold_left]. apply IH.
      * cbn [orb fold_left]. rewrite IH. f_equal.
        unfold NimbleBrain.forLine. now rewrite He, Hd.
Qed.

Lemma split_open (sep t : jsstring) :
  sep <> [] -> breakAt sep t = None -> split sep t = [t].
Proof. intros Hsep H. rewrite split_eq by assumption. now rewrite H. Qed.

(** Text after the last separator changes nothing as long as it holds no
    separator itself. *)
Lemma complete_tail (sep a tail : jsstring) :
  sep <> [] -> pending sep a = [] -> breakAt sep tail = None ->
  complete sep (a ++ tail) = complete sep a.
Proof.
  intros Hsep Hp Ht. rewrite complete_app by assumption.
  rewrite Hp. cbn [app]. unfold complete at 2.
  rewrite (split_open sep tail Hsep Ht). cbn [removelast]. apply app_nil_r.
Qed.

Lemma startsWith_prefix (p q r : jsstring) :
  startsWith (p ++ q) (p ++ r) = startsWith q r.
Proof.
  induction p as [|c p IH]; [reflexivity|].
  cbn [app startsWith]. now rewrite N.eqb_refl, IH.
Qed.

Section TypedFrames.

Variable JSON_parse : jsstring -> option JSValue.

Lemma valid_typed (f : WireFrame) : validFrame JSON_parse f -> typedFrame JSON_parse f.
Proof. intros (H1 & H2 & H3 & _ & H5 & H6 & H7). repeat split; assumption. Qed.

Lemma split_typed (fs : list WireFrame) :
  Forall (typedFrame JSON_parse) fs ->
  split NLNL (wire fs) = map frameText fs ++ [[]].
Proof.
  intros H; induction H as [|f fs Hf _ IH]; [reflexivity|].
  destruct Hf as (_ & Ht & _ & Hd & _).
  unfold wire. cbn [map concat]. fold (wire fs). rewrite <- app_assoc.
  rewrite split_eq by apply NLNL_nonempty.
  rewrite breakAt_frameText by assumption. now rewrite IH.
Qed.

Lemma parse_typed (f : WireFrame) :
  typedFrame JSON_parse f ->
  MessagesAPI.parseLines (split NL (frameText f))
  = {| MessagesAPI.eventType := Some (frameType f);
       MessagesAPI.dataLines := [frameData f] |}.
Proof.
  intros (_ & Ht & Hts & Hd & Hds & _). unfold frameText.
  rewrite split_NL_line by now apply noNewline_eventLine.
  rewrite split_NL_last by now apply noNewline_dataLine.
  unfold MessagesAPI.parseLines. cbn [fold_left].
  rewrite (forLine_event _ (eventLine (frameType f))) by apply startsWith_app_l, eq_refl.
  rewrite (forLine_data _ (dataLine (frameData f))) by apply startsWith_app_l, eq_refl.
  cbn [MessagesAPI.eventType MessagesAPI.dataLines app].
  assert (E1 : replacePrefixWs (lit "event:") (eventLine (frameType f)) = frameType f).
  { unfold eventLine. lits. exact Hts. }
  assert (E2 : replacePrefixWs (lit "data:") (dataLine (frameData f)) = frameData f).
  { unfold dataLine. lits. exact Hds. }
  now rewrite E1, E2.
Qed.

(** What [MessagesAPI.stream] makes of one frame of this form. *)
Lemma forChunks_typed (f : WireFrame) (rest : list jsstring) :
  typedFrame JSON_parse f ->
  MessagesAPI.forChunks JSON_parse (frameText f :: rest)
  = if eqb (frameType f) (lit "done") then ([frameEventOf f], true)
    else (frameEventOf f :: fst (MessagesAPI.forChunks JSON_parse rest),
          snd (MessagesAPI.forChunks JSON_parse rest)).
Proof.
  intros Hf. cbn [MessagesAPI.forChunks]. rewrite (parse_typed f Hf).
  destruct Hf as (Hne & _ & _ & _ & _ & Hp).
  unfold MessagesAPI.frameEvent, MessagesAPI.parseData.
  cbn [MessagesAPI.dataLines MessagesAPI.eventType join MessagesAPI.isDone].
  rewrite Hp. unfold frameEventOf, MessagesAPI.typeOrContent.
  destruct (frameType f) as [|c t] eqn:E; [contradiction|].
  destruct (eqb (c :: t) (lit "done")); [reflexivity|].
  destruct (MessagesAPI.forChunks JSON_parse rest); reflexivity.
Qed.

Lemma lines_typed (fs : list WireFrame) :
  Forall (typedFrame JSON_parse) fs ->
  split NL (wire fs)
  = concat (map (fun f => [eventLine (frameType f); dataLine (frameData f); []]) fs)
    ++ [[]].
Proof.
  intros H; induction H as [|f fs Hf _ IH]; [reflexivity|].
  destruct Hf as (_ & Ht & _ & Hd & _).
  unfold wire. cbn [map concat]. fold (wire fs).
  unfold frameText. rewrite <- !app_assoc.
  rewrite split_NL_line by now apply noNewline_eventLine.
  change (NLNL ++ wire fs) with (NL ++ [] ++ NL ++ wire fs).
  rewrite split_NL_line by now apply noNewline_dataLine.
  rewrite split_NL_line by constructor.
  now rewrite IH.
Qed.

Lemma fold_typed (fs : list WireFrame) (st : NimbleBrain.LineState) :
  Forall (typedFrame JSON_parse) fs ->
  NimbleBrain.out
    (fold_left (NimbleBrain.forLine JSON_parse)
       (concat (map (fun f => [eventLine (frameType f); dataLine (frameData f); []]) fs))
       st)
  = NimbleBrain.out st ++ map frameEventOf fs.
Proof.
  intros H; revert st; induction H as [|f fs Hf _ IH]; intros st.
  - simpl. now rewrite app_nil_r.
  - cbn [map concat].
    change [eventLine (frameType f); dataLine (frameData f); []]
      with ([eventLine (frameType f); dataLine (frameData f)] ++ [[]]).
    rewrite <- app_assoc, !fold_left_app.
    destruct Hf as (Hne & _ & _ & _ & _ & Hp).
    rewrite (fold_frame JSON_parse st _ _ _ Hne Hp), fold_blank, IH.
    cbn [NimbleBrain.out]. now rewrite <- app_assoc.
Qed.

Lemma pending_wire (fs : list WireFrame) :
  Forall (typedFrame JSON_parse) fs ->
  pending NLNL (wire fs) = [] /\ pending NL (wire fs) = [].
Proof.
  intros H. unfold pending.
  rewrite (split_typed fs H), (lines_typed fs H), !last_last. split; reflexivity.
Qed.

End TypedFrames.

Lemma pending_delimited (fs : list jsstring) :
  Forall dataFrame fs -> pending NLNL (delimited fs) = [].
Proof.
  intros H. unfold pending. now rewrite (split_delimited fs H), last_last.
Qed.

(** X3. Text that follows the last delimiter is never decoded, however the
    body ends: behind complete frames with data, [MessagesAPI.stream] drops a
    tail without a blank line (a last frame whose delimiter never arrived),
    and [NimbleBrain.streamMessage] drops a tail without a newline. *)
Theorem unterminated_tail_dropped
    (JSON_parse : jsstring -> option JSValue) (D : TextDecoder)
    (r : Response) (b : Body) (fs : list jsstring) (tail : jsstring)
    (r' : Response) (b' : Body) (ws : list WireFrame) (tail' : jsstring) :
  accepted r b -> Forall dataFrame fs -> breakAt NLNL tail = None ->
  delivered D b = delimited fs ++ tail ->
  accepted r' b' -> Forall (typedFrame JSON_parse) ws -> breakAt NL tail' = None ->
  decoded D (concat (chunks b')) = wire ws ++ tail' ->
  MessagesAPI.stream JSON_parse D r
  = {| yielded := map (eventOfFrame JSON_parse) fs; completion := endOf b |}
  /\ NimbleBrain.streamMessage JSON_parse D r'
     = {| yielded := map frameEventOf ws; completion := endOf b' |}.
Proof.
  intros Hacc Hfs Htail Htext Hacc' Hws Htail' Htext'. split.
  - rewrite (stream_accepted _ _ _ _ Hacc). cbv zeta. rewrite Htext.
    rewrite complete_tail
      by (try apply NLNL_nonempty; try assumption; now apply pending_delimited).
    unfold complete. rewrite (split_delimited fs Hfs), removelast_last.
    now rewrite (forChunks_frames JSON_parse fs Hfs).
  - rewrite (streamMessage_accepted _ _ _ _ Hacc'). rewrite Htext'.
    rewrite complete_tail
      by (try apply NL_nonempty; try assumption;
          now apply (pending_wire JSON_parse ws Hws)).
    unfold complete. rewrite (lines_typed JSON_parse ws Hws), removelast_last.
    now rewrite (fold_typed JSON_parse ws _ Hws).
Qed.

Lemma unterminated_tail_dropped_witness :
  let r := respond 200 []
             [lit "event: content\ndata: {'text':'Hello'}\n\nevent: done\ndata: {}\n"]
             CleanClose in
  MessagesAPI.stream JSON.parse UTF8.decoder r
  = {| yielded := [event "content" (JObject [(lit "text", JString (lit "Hello"))])];
       completion := Returned |}
  /\ NimbleBrain.streamMessage JSON.parse UTF8.decoder
       (respond 200 [] [lit "event: content\ndata: {'text':'Hello'}\n\ndata: {'late':1}"]
          CleanClose)
     = {| yielded := [event "content" (JObject [(lit "text", JString (lit "Hello"))])];
          completion := Returned |}.
Proof.
  cbv zeta.
  apply (unterminated_tail_dropped JSON.parse UTF8.decoder
           _ {| chunks := map UTF8.encodeAscii
                            [lit "event: content\ndata: {'text':'Hello'}\n\nevent: done\ndata: {}\n"];
                ending := CleanClose |}
           [lit "event: content\ndata: {'text':'Hello'}"] (lit "event: done\ndata: {}\n")
           _ {| chunks := map UTF8.encodeAscii
                            [lit "event: content\ndata: {'text':'Hello'}\n\ndata: {'late':1}"];
                ending := CleanClose |}
           [ {| frameType := lit "content"; frameData := lit "{'text':'Hello'}";
                frameValue := JObject [(lit "text", JString (lit "Hello"))] |} ]
           (lit "data: {'late':1}")).
  - split; reflexivity.
  - repeat constructor; try reflexivity; vm_compute; discriminate.
  - reflexivity.
  - reflexivity.
  - split; reflexivity.
  - repeat constructor; try discriminate; try reflexivity;
      vm_compute; repeat constructor; discriminate.
  - reflexivity.
  - reflexivity.
Defined.

(** ** CRLF line endings *)

Lemma crlf_head (ls : list jsstring) :
  Forall noNewline ls ->
  crlf ls = [] \/ exists c x, crlf ls = c :: x /\ c <> 10%N.
Proof.
  intros H. destruct H as [|l ls Hl _]; [now left|]. right.
  unfold crlf. cbn [map concat]. destruct l as [|c l].
  - eexists _, _. split; [reflexivity | discriminate].
  - apply Forall_cons_iff in Hl as [Hc _].
    eexists _, _. split; [reflexivity | exact Hc].
Qed.

Lemma crlf_cons (l : jsstring) (ls : list jsstring) :
  crlf (l :: ls) = (l ++ [13%N]) ++ NL ++ crlf ls.
Proof. unfold crlf. cbn [map concat]. now rewrite <- !app_assoc. Qed.

Lemma noNewline_cr (l : jsstring) : noNewline l -> noNewline (l ++ [13%N]).
Proof.
  intros H. apply Forall_app. split; [exact H|]. repeat constructor. discriminate.
Qed.

(** No blank line ever forms between CRLF-terminated lines. *)
Lemma crlf_no_blank (ls : list jsstring) :
  Forall noNewline ls -> breakAt NLNL (crlf ls) = None.
Proof.
  intros H; induction H as [|l ls Hl Hls IH]; [reflexivity|].
  rewrite crlf_cons, breakAt_NLNL_skip by now apply noNewline_cr.
  destruct (crlf_head ls Hls) as [E | (c & x & E & Hc)].
  - rewrite E. reflexivity.
  - rewrite E in *. rewrite breakAt_NLNL_newline by assumption. now rewrite IH.
Qed.

Lemma lines_crlf (ls : list jsstring) :
  Forall noNewline ls ->
  split NL (crlf ls) = map (fun l => l ++ [13%N]) ls ++ [[]].
Proof.
  intros H; induction H as [|l ls Hl _ IH]; [reflexivity|].
  rewrite crlf_cons, split_NL_line by now apply noNewline_cr.
  now rewrite IH.
Qed.

Lemma last_skipn (n : nat) (s : jsstring) (d : codeunit) :
  n < length s -> last (skipn n s) d = last s d.
Proof.
  revert s; induction n as [|n IH]; intros s Hn; [reflexivity|].
  destruct s as [|c s]; [simpl in Hn; lia|].
  cbn [skipn]. rewrite IH by (simpl in Hn; lia).
  destruct s; [simpl in Hn; lia | reflexivity].
Qed.

Section CarriageReturn.

Variable JSON_parse : jsstring -> option JSValue.

Lemma forLine_cr (st : NimbleBrain.LineState) (l : jsstring) :
  crTyped st -> crTyped (NimbleBrain.forLine JSON_parse st (l ++ [13%N])).
Proof.
  intros [Ht Ho]. unfold NimbleBrain.forLine.
  destruct (startsWith (lit "event: ") (l ++ [13%N])) eqn:He.
  - split; [|exact Ho]. right. cbn [NimbleBrain.currentEventType]. unfold slice.
    pose proof (startsWith_length _ _ He) as Hlen.
    change (length (lit "event: ")) with 7 in Hlen.
    assert (Hne : length (l ++ [13%N]) <> 7).
    { intros E. apply startsWith_spec in He as [t Et].
      assert (t = []).
      { apply (f_equal (@length _)) in Et. rewrite E, length_app in Et.
        change (length (lit "event: ")) with 7 in Et.
        destruct t; [reflexivity | simpl in Et; lia]. }
      subst t. rewrite app_nil_r in Et.
      apply (f_equal (fun s => last s 0%N)) in Et. rewrite last_last in Et.
      vm_compute in Et. discriminate. }
    rewrite last_skipn by lia. apply last_last.
  - destruct (_ && _) eqn:Ed; [|split; assumption].
    destruct (JSON_parse _); [|split; assumption].
    split; [exact Ht|]. cbn [NimbleBrain.out NimbleBrain.currentEventType].
    apply Forall_app. split; [exact Ho|]. constructor; [|constructor].
    cbn [type]. destruct Ht as [E|E]; [|exact E].
    rewrite E, andb_false_r in Ed. discriminate.
Qed.

Lemma fold_cr (ls : list jsstring) (st : NimbleBrain.LineState) :
  crTyped st ->
  crTyped (fold_left (NimbleBrain.forLine JSON_parse)
                     (map (fun l => l ++ [13%N]) ls) st).
Proof.
  revert st; induction ls as [|l ls IH]; intros st H; [exact H|].
  cbn [map fold_left]. apply IH. now apply forLine_cr.
Qed.

End CarriageReturn.

(** X4. A stream sent with CRLF line endings: [MessagesAPI.stream] never
    finds a frame delimiter and yields nothing, whatever the lines are;
    [NimbleBrain.streamMessage] keeps the carriage return in the type, so
    every event it yields has a type that ends with CR. *)
Theorem crlf_line_endings
    (JSON_parse : jsstring -> option JSValue) (D : TextDecoder)
    (r : Response) (b : Body) (ls : list jsstring) :
  accepted r b ->
  Forall noNewline ls ->
  decoded D (concat (chunks b)) = crlf ls ->
  finish D (fst (decode D (fresh D) (concat (chunks b)))) = [] ->
  MessagesAPI.stream JSON_parse D r = {| yielded := []; completion := endOf b |}
  /\ Forall (fun ev => last (type ev) 0%N = 13%N)
            (yielded (NimbleBrain.streamMessage JSON_parse D r)).
Proof.
  intros Hacc Hls Htext Hflush. split.
  - rewrite (stream_accepted _ _ _ _ Hacc). cbv zeta.
    assert (E : delivered D b = crlf ls).
    { unfold delivered. rewrite Htext, Hflush. destruct (ending b); apply app_nil_r. }
    rewrite E. unfold complete.
    rewrite (split_open NLNL (crlf ls) NLNL_nonempty (crlf_no_blank ls Hls)).
    reflexivity.
  - rewrite (streamMessage_accepted _ _ _ _ Hacc). cbn [yielded]. rewrite Htext.
    unfold complete. rewrite (lines_crlf ls Hls), removelast_last.
    apply fold_cr. split; [now left | constructor].
Qed.

Lemma crlf_line_endings_witness :
  let r := respond 200 []
             [lit "event: content\r\ndata: {'text':'Hello'}\r\n\r\nevent: done\r\ndata: {}\r\n\r\n"]
             CleanClose in
  MessagesAPI.stream JSON.parse UTF8.decoder r
  = {| yielded := []; completion := Returned |}
  /\ Forall (fun ev => last (type ev) 0%N = 13%N)
            (yielded (NimbleBrain.streamMessage JSON.parse UTF8.decoder r)).
Proof.
  cbv zeta.
  apply (crlf_line_endings JSON.parse UTF8.decoder _
           {| chunks := map UTF8.encodeAscii
                          [lit "event: content\r\ndata: {'text':'Hello'}\r\n\r\nevent: done\r\ndata: {}\r\n\r\n"];
              ending := CleanClose |}
           [lit "event: content"; lit "data: {'text':'Hello'}"; [];
            lit "event: done"; lit "data: {}"; []]).
  - split; reflexivity.
  - vm_compute. repeat constructor; discriminate.
  - reflexivity.
  - reflexivity.
Defined.

(** The flush of a decoder that writes no newline adds no frame. *)
Lemma breakAt_NLNL_tail (p f : jsstring) :
  breakAt NLNL p = None -> noNewline f -> breakAt NLNL (p ++ f) = None.
Proof.
  intros Hp Hf. induction p as [|c p IH].
  - cbn [app]. rewrite <- (app_nil_r f).
    now rewrite (breakAt_NLNL_skip f [] Hf).
  - rewrite breakAt_cons in Hp.
    destruct (startsWith NLNL (c :: p)) eqn:Es; [discriminate|].
    destruct (breakAt NLNL p) as [[u v]|] eqn:Eb; [discriminate|].
    cbn [app]. rewrite breakAt_cons, (IH eq_refl).
    assert (E : startsWith NLNL (c :: p ++ f) = false).
    { rewrite startsWith_NLNL in *. destruct (N.eqb 10 c); [|reflexivity].
      cbn [andb] in *. destruct p as [|c' p].
      - cbn [app]. destruct Hf as [|d f Hd _]; [reflexivity|].
        rewrite startsWith_NL. now apply not_newline.
      - cbn [app]. now rewrite startsWith_NL in *. }
    now rewrite E.
Qed.

Lemma complete_flush (text f : jsstring) :
  noNewline f -> complete NLNL (text ++ f) = complete NLNL text.
Proof.
  intros Hf. rewrite complete_app by apply NLNL_nonempty.
  assert (E : split NLNL (pending NLNL text ++ f) = [pending NLNL text ++ f]).
  { apply split_open; [apply NLNL_nonempty|].
    apply breakAt_NLNL_tail; [apply pending_closed, NLNL_nonempty | exact Hf]. }
  apply complete_open in E. destruct E as [E _].
  now rewrite E, app_nil_r.
Qed.

(** The UTF-8 decoder flushes nothing or U+FFFD. *)
Lemma flush_no_newline (s : DState UTF8.decoder) : noNewline (finish UTF8.decoder s).
Proof.
  cbn [finish UTF8.decoder]. unfold UTF8.flush.
  destruct (N.eqb (UTF8.bytesNeeded s) 0); repeat constructor. discriminate.
Qed.

(** X5. A transport failure loses no event and is reported after them: on
    the same bytes, wherever they stop, a broken body makes both generators
    yield what a clean close yields; [MessagesAPI.stream] then throws the
    read failure unless it had already returned on [done], and
    [NimbleBrain.streamMessage] always throws it.  The text decoder is any
    whose flush writes no newline; the UTF-8 decoder of the platform writes
    nothing or U+FFFD. *)
Theorem transport_failure
    (JSON_parse : jsstring -> option JSValue) (D : TextDecoder)
    (cs : list (list byte)) (reason : jsstring) :
  (forall s : DState D, noNewline (finish D s)) ->
  yielded (MessagesAPI.stream JSON_parse D (broken cs reason))
  = yielded (MessagesAPI.stream JSON_parse D (closed cs))
  /\ completion (MessagesAPI.stream JSON_parse D (broken cs reason))
     = (if snd (MessagesAPI.forChunks JSON_parse
                  (complete NLNL (decoded D (concat cs))))
        then Returned else Thrown (ReadFailure reason))
  /\ yielded (NimbleBrain.streamMessage JSON_parse D (broken cs reason))
     = yielded (NimbleBrain.streamMessage JSON_parse D (closed cs))
  /\ completion (NimbleBrain.streamMessage JSON_parse D (broken cs reason))
     = Thrown (ReadFailure reason).
Proof.
  intros Hflush.
  assert (Ab : accepted (broken cs reason) {| chunks := cs; ending := Broken reason |})
    by (split; reflexivity).
  assert (Ac : accepted (closed cs) {| chunks := cs; ending := CleanClose |})
    by (split; reflexivity).
  rewrite (stream_accepted _ _ _ _ Ab), (stream_accepted _ _ _ _ Ac).
  rewrite (streamMessage_accepted _ _ _ _ Ab), (streamMessage_accepted _ _ _ _ Ac).
  unfold delivered. cbn [chunks ending yielded completion]. cbv zeta.
  rewrite (complete_flush _ _ (Hflush _)), !app_nil_r.
  cbn [yielded completion]. auto.
Qed.

Lemma transport_failure_witness :
  let cs := [UTF8.encodeAscii (lit "event: content\ndata: {}\n\nevent: content\ndata: {'text':'")
             ++ [xc3]] in
  yielded (MessagesAPI.stream JSON.parse UTF8.decoder (broken cs (lit "reset")))
  = yielded (MessagesAPI.stream JSON.parse UTF8.decoder (closed cs))
  /\ completion (MessagesAPI.stream JSON.parse UTF8.decoder (broken cs (lit "reset")))
     = (if snd (MessagesAPI.forChunks JSON.parse
                  (complete NLNL (decoded UTF8.decoder (concat cs))))
        then Returned else Thrown (ReadFailure (lit "reset")))
  /\ yielded (NimbleBrain.streamMessage JSON.parse UTF8.decoder (broken cs (lit "reset")))
     = yielded (NimbleBrain.streamMessage JSON.parse UTF8.decoder (closed cs))
  /\ completion (NimbleBrain.streamMessage JSON.parse UTF8.decoder (broken cs (lit "reset")))
     = Thrown (ReadFailure (lit "reset")).
Proof.
  cbv zeta.
  apply (transport_failure JSON.parse UTF8.decoder
           [UTF8.encodeAscii (lit "event: content\ndata: {}\n\nevent: content\ndata: {'text':'")
            ++ [xc3]]
           (lit "reset")).
  exact flush_no_newline.
Defined.

(** ** Frames in detail *)

Lemma fold_dataLines (ls : list jsstring) (f : MessagesAPI.Frame) :
  MessagesAPI.dataLines (fold_left MessagesAPI.forLine ls f)
  = MessagesAPI.dataLines f
    ++ map (replacePrefixWs (lit "data:")) (filter (startsWith (lit "data:")) ls).
Proof.
  revert f; induction ls as [|l ls IH]; intros f.
  - simpl. now rewrite app_nil_r.
  - cbn [fold_left filter]. rewrite IH.
    destruct (startsWith (lit "data:") l) eqn:Hd.
    + rewrite (forLine_data f l Hd). cbn [MessagesAPI.dataLines map].
      now rewrite <- app_assoc.
    + unfold MessagesAPI.forLine. rewrite Hd.
      destruct (startsWith (lit "event:") l); reflexivity.
Qed.

(** X6. Without an [event:] line a frame of [MessagesAPI.stream] that has
    data is yielded with the type [content] and the payload made of the
    values of its [data:] lines, joined with newlines and parsed (or kept
    under [raw] when it is not JSON); the loop goes on with the next frame.
    Without data it yields nothing. *)
Theorem default_type_content
    (JSON_parse : jsstring -> option JSValue) (chunk : jsstring)
    (rest : list jsstring) :
  Forall (fun l => startsWith (lit "event:") l = false) (split NL chunk) ->
  let values := map (replacePrefixWs (lit "data:"))
                    (filter (startsWith (lit "data:")) (split NL chunk)) in
  let yield :=
    match values with
    | [] => None
    | _ :: _ =>
        Some {| type := lit "content";
                data := MessagesAPI.parseData JSON_parse (join NL values) |}
    end in
  MessagesAPI.frameEvent JSON_parse (MessagesAPI.parseLines (split NL chunk)) = yield
  /\ MessagesAPI.forChunks JSON_parse (chunk :: rest)
     = (match yield with Some ev => [ev] | None => [] end
        ++ fst (MessagesAPI.forChunks JSON_parse rest),
        snd (MessagesAPI.forChunks JSON_parse rest)).
Proof.
  intros H values yield.
  assert (Ed : MessagesAPI.dataLines (MessagesAPI.parseLines (split NL chunk)) = values).
  { unfold MessagesAPI.parseLines. now rewrite fold_dataLines. }
  assert (Et : MessagesAPI.eventType (MessagesAPI.parseLines (split NL chunk)) = None).
  { unfold MessagesAPI.parseLines. now rewrite fold_no_event. }
  assert (Ef : MessagesAPI.frameEvent JSON_parse
                 (MessagesAPI.parseLines (split NL chunk)) = yield).
  { unfold MessagesAPI.frameEvent. rewrite Ed, Et. subst yield.
    now destruct values. }
  split; [exact Ef|].
  cbn [MessagesAPI.forChunks]. rewrite Ef, Et. cbn [MessagesAPI.isDone].
  destruct (MessagesAPI.forChunks JSON_parse rest) as [evs ret].
  now destruct yield.
Qed.

Lemma default_type_content_witness :
  MessagesAPI.frameEvent JSON.parse
    (MessagesAPI.parseLines (split NL (lit "id: 7\ndata: {'text':\ndata:   'Hello'}")))
  = Some (event "content" (JObject [(lit "text", JString (lit "Hello"))]))
  /\ MessagesAPI.forChunks JSON.parse
       [lit "id: 7\ndata: {'text':\ndata:   'Hello'}"; lit "event: done\ndata: {}"]
     = ([event "content" (JObject [(lit "text", JString (lit "Hello"))]);
         event "done" (JObject [])], true).
Proof.
  apply (default_type_content JSON.parse
           (lit "id: 7\ndata: {'text':\ndata:   'Hello'}")
           [lit "event: done\ndata: {}"]).
  vm_compute. repeat constructor.
Defined.

Lemma linesRun_data (JSON_parse : jsstring -> option JSValue)
    (t : jsstring) (js : list jsstring) (vs : list JSValue)
    (o : list StreamEvent) :
  t <> [] ->
  Forall2 (fun j v => JSON_parse j = Some v) js vs ->
  fold_left (NimbleBrain.forLine JSON_parse) (map dataLine js)
            {| NimbleBrain.currentEventType := t; NimbleBrain.out := o |}
  = {| NimbleBrain.currentEventType := t;
       NimbleBrain.out := o ++ map (fun v => {| type := t; data := v |}) vs |}.
Proof.
  intros Ht H; revert o; induction H as [|j v js vs Hj _ IH]; intros o.
  - simpl. now rewrite app_nil_r.
  - cbn [map fold_left].
    rewrite (forLine_data' JSON_parse _ (dataLine j)) by apply startsWith_app.
    cbn [NimbleBrain.currentEventType NimbleBrain.out].
    replace (slice 6 (dataLine j)) with j by reflexivity.
    rewrite Hj. destruct t as [|c t]; [contradiction|].
    rewrite IH. now rewrite <- app_assoc.
Qed.

(** X7. A payload on several [data:] lines: [MessagesAPI.stream] puts the
    lines together again, in order and with a newline between them, whatever
    other lines stand between, and parses the whole;
    [NimbleBrain.streamMessage] parses every [data: ] line on its own and
    yields one event for each under the current type. *)
Theorem payload_on_several_lines
    (JSON_parse : jsstring -> option JSValue)
    (chunk t : jsstring) (js : list jsstring) (vs : list JSValue) :
  t <> [] ->
  Forall2 (fun j v => JSON_parse j = Some v) js vs ->
  option_map data
    (MessagesAPI.frameEvent JSON_parse (MessagesAPI.parseLines (split NL chunk)))
  = match filter (startsWith (lit "data:")) (split NL chunk) with
    | [] => None
    | ds => Some (MessagesAPI.parseData JSON_parse
                    (join NL (map (replacePrefixWs (lit "data:")) ds)))
    end
  /\ linesRun JSON_parse (eventLine t :: map dataLine js)
     = map (fun v => {| type := t; data := v |}) vs.
Proof.
  intros Ht Hjs. split.
  - unfold MessagesAPI.frameEvent, MessagesAPI.parseLines.
    rewrite fold_dataLines. cbn [MessagesAPI.dataLines app].
    destruct (filter _ _); reflexivity.
  - unfold linesRun. cbn [fold_left]. rewrite forLine_eventLine.
    cbn [NimbleBrain.out]. now rewrite (linesRun_data JSON_parse t js vs [] Ht Hjs).
Qed.

Lemma payload_on_several_lines_witness :
  option_map data
    (MessagesAPI.frameEvent JSON.parse
       (MessagesAPI.parseLines
          (split NL (lit "event: content\ndata: {'text':\n: ping\ndata: 'Hello'}"))))
  = Some (JObject [(lit "text", JString (lit "Hello"))])
  /\ linesRun JSON.parse (eventLine (lit "content") :: map dataLine [lit "1"; lit "2"])
     = [event "content" (JNumber false 1 0); event "content" (JNumber false 2 0)].
Proof.
  apply (payload_on_several_lines JSON.parse
           (lit "event: content\ndata: {'text':\n: ping\ndata: 'Hello'}")
           (lit "content") [lit "1"; lit "2"]
           [JNumber false 1 0; JNumber false 2 0]).
  - discriminate.
  - repeat constructor.
Defined.

(** X8. On a stream of frames of the test suite's form that ends with the
    [done] frame, closed cleanly, the two generators agree: both yield the
    events of all the frames, the [done] event last, and return. *)
Theorem generators_agree
    (JSON_parse : jsstring -> option JSValue) (D : TextDecoder)
    (r : Response) (b : Body) (ws : list WireFrame) (d : WireFrame) :
  accepted r b -> ending b = CleanClose ->
  Forall (validFrame JSON_parse) ws ->
  typedFrame JSON_parse d -> frameType d = lit "done" ->
  decoded D (concat (chunks b)) = wire (ws ++ [d]) ->
  finish D (fst (decode D (fresh D) (concat (chunks b)))) = [] ->
  MessagesAPI.stream JSON_parse D r
  = {| yielded := map frameEventOf (ws ++ [d]); completion := Returned |}
  /\ NimbleBrain.streamMessage JSON_parse D r = MessagesAPI.stream JSON_parse D r.
Proof.
  intros Hacc Hend Hws Hd Hdone Htext Hflush.
  assert (Hall : Forall (typedFrame JSON_parse) (ws ++ [d])).
  { apply Forall_app. split.
    - eapply Forall_impl; [|exact Hws]. apply valid_typed.
    - now constructor. }
  assert (H1 : MessagesAPI.stream JSON_parse D r
               = {| yielded := map frameEventOf (ws ++ [d]); completion := Returned |}).
  { rewrite (stream_accepted _ _ _ _ Hacc). cbv zeta.
    unfold delivered. rewrite Hend, Htext, Hflush, app_nil_r.
    unfold complete. rewrite (split_typed JSON_parse _ Hall), removelast_last.
    rewrite map_app, forChunks_app, (forChunks_wire JSON_parse ws Hws).
    cbn [fst snd map]. rewrite (forChunks_typed JSON_parse d [] Hd), Hdone.
    rewrite eqb_refl. cbn [fst snd]. now rewrite map_app. }
  split; [exact H1|]. rewrite H1.
  rewrite (streamMessage_accepted _ _ _ _ Hacc).
  unfold endOf. rewrite Hend, Htext.
  unfold complete. rewrite (lines_typed JSON_parse _ Hall), removelast_last.
  now rewrite (fold_typed JSON_parse _ _ Hall).
Qed.

Lemma generators_agree_witness :
  let r := respond 200 []
             [lit "event: content\ndata: {'te";
              lit "xt':'chunk1'}\n\nevent: done\ndata: {}\n\n"] CleanClose in
  MessagesAPI.stream JSON.parse UTF8.decoder r
  = {| yielded := [event "content" (JObject [(lit "text", JString (lit "chunk1"))]);
                   event "done" (JObject [])];
       completion := Returned |}
  /\ NimbleBrain.streamMessage JSON.parse UTF8.decoder r
     = MessagesAPI.stream JSON.parse UTF8.decoder r.
Proof.
  cbv zeta.
  apply (generators_agree JSON.parse UTF8.decoder _
           {| chunks := map UTF8.encodeAscii
                          [lit "event: content\ndata: {'te";
                           lit "xt':'chunk1'}\n\nevent: done\ndata: {}\n\n"];
              ending := CleanClose |}
           [ {| frameType := lit "content"; frameData := lit "{'text':'chunk1'}";
                frameValue := JObject [(lit "text", JString (lit "chunk1"))] |} ]
           {| frameType := lit "done"; frameData := lit "{}";
              frameValue := JObject [] |}).
  - split; reflexivity.
  - reflexivity.
  - repeat constructor; try discriminate; try reflexivity;
      vm_compute; repeat constructor; discriminate.
  - repeat split; try discriminate; try reflexivity;
      vm_compute; repeat constructor; discriminate.
  - reflexivity.
  - reflexivity.
  - reflexivity.
Defined.

(** X9. The space after the colon: [NimbleBrain.streamMessage] ignores an
    [event:] or [data:] line whose colon is not followed by a space, while
    [MessagesAPI.stream] takes the field and strips whatever white space
    follows the colon. *)
Theorem space_after_colon
    (JSON_parse : jsstring -> option JSValue)
    (rest : jsstring) (st : NimbleBrain.LineState) (f : MessagesAPI.Frame) :
  startsWith (lit " ") rest = false ->
  NimbleBrain.forLine JSON_parse st (lit "event:" ++ rest) = st
  /\ NimbleBrain.forLine JSON_parse st (lit "data:" ++ rest) = st
  /\ MessagesAPI.forLine f (lit "event:" ++ rest)
     = {| MessagesAPI.eventType := Some (dropWhile isWhiteSpace rest);
          MessagesAPI.dataLines := MessagesAPI.dataLines f |}
  /\ MessagesAPI.forLine f (lit "data:" ++ rest)
     = {| MessagesAPI.eventType := MessagesAPI.eventType f;
          MessagesAPI.dataLines :=
            MessagesAPI.dataLines f ++ [dropWhile isWhiteSpace rest] |}.
Proof.
  intros H.
  assert (He : startsWith (lit "event: ") (lit "event:" ++ rest) = false).
  { change (lit "event: ") with (lit "event:" ++ lit " ").
    now rewrite startsWith_prefix. }
  assert (Hd : startsWith (lit "data: ") (lit "data:" ++ rest) = false).
  { change (lit "data: ") with (lit "data:" ++ lit " ").
    now rewrite startsWith_prefix. }
  split; [|split; [|split]].
  - unfold NimbleBrain.forLine. rewrite He.
    assert (E : startsWith (lit "data: ") (lit "event:" ++ rest) = false) by reflexivity.
    now rewrite E.
  - unfold NimbleBrain.forLine. rewrite Hd.
    assert (E : startsWith (lit "event: ") (lit "data:" ++ rest) = false) by reflexivity.
    now rewrite E.
  - rewrite forLine_event by apply startsWith_app. reflexivity.
  - rewrite forLine_data by apply startsWith_app. reflexivity.
Qed.

Lemma space_after_colon_witness :
  NimbleBrain.forLine JSON.parse
    {| NimbleBrain.currentEventType := lit "content"; NimbleBrain.out := [] |}
    (lit "data:" ++ lit "{'text':'Hello'}")
  = {| NimbleBrain.currentEventType := lit "content"; NimbleBrain.out := [] |}.
Proof.
  apply (space_after_colon JSON.parse (lit "{'text':'Hello'}")
           {| NimbleBrain.currentEventType := lit "content"; NimbleBrain.out := [] |}
           {| MessagesAPI.eventType := None; MessagesAPI.dataLines := [] |}).
  reflexivity.
Defined.

(** * Properties of [waitForCompletion] *)

Section Waiting.

Variable showNumber : Z -> jsstring.
Variable w : World.
Variable id : jsstring.
Variable options : option WaitForCompletionOptions.

Notation pollingA := (ExecutionsAPI.polling showNumber w id options).
Notation pollingB := (Executions.polling showNumber w options).

Lemma pollingA_finished (fuel k : nat) (slept : list Z) (r : Waited) (e : Execution) :
  pollingA fuel k slept = Some r -> settled r = Fulfilled e ->
  isFinished (executionStatus e) = true
  /\ 0 < calls r /\ answer w (pred (calls r)) = ApiData e.
Proof.
  revert k slept; induction fuel as [|n IH]; intros k slept; [discriminate|].
  cbn [ExecutionsAPI.polling]. unfold ExecutionsAPI.get.
  destruct (answer w k) as [x|v|x] eqn:Ea.
  - destruct (isFinished (executionStatus x)) eqn:Ef.
    + intros H Hs. injection H as <-. cbn in Hs. injection Hs as <-.
      cbn [calls pred]. repeat split; [assumption | lia | assumption].
    + destruct (Z.gtb _ _).
      * intros H Hs. injection H as <-. discriminate.
      * apply IH.
  - intros H Hs. injection H as <-. discriminate.
  - intros H Hs. injection H as <-. discriminate.
Qed.

Lemma pollingB_finished (fuel k : nat) (slept : list Z) (r : Waited) (e : Execution) :
  pollingB fuel k slept = Some r -> settled r = Fulfilled e ->
  isFinished (executionStatus e) = true
  /\ 0 < calls r /\ answer w (pred (calls r)) = ApiData e.
Proof.
  revert k slept; induction fuel as [|n IH]; intros k slept; [discriminate|].
  cbn [Executions.polling]. unfold Executions.get.
  destruct (Z.ltb _ _); [|intros H Hs; injection H as <-; discriminate].
  destruct (answer w k) as [x|v|x] eqn:Ea.
  - destruct (isFinished (executionStatus x)) eqn:Ef.
    + intros H Hs. injection H as <-. cbn in Hs. injection Hs as <-.
      cbn [calls pred]. repeat split; [assumption | lia | assumption].
    + apply IH.
  - destruct (NimbleBrain.truthy v); intros H Hs; injection H as <-; discriminate.
  - intros H Hs. injection H as <-. discriminate.
Qed.

(** Rounds that find the execution unfinished and the deadline not passed
    lead to the next round, one sleep each. *)
Lemma pollingA_steps (m fuel k : nat) (slept : list Z) :
  (forall j, k <= j < k + m ->
     (exists e, answer w j = ApiData e /\ isFinished (executionStatus e) = false)
     /\ (now w (S j) - now w 0 <= timeoutOf options)%Z) ->
  pollingA (m + fuel) k slept
  = pollingA fuel (k + m) (slept ++ repeat (intervalOf options) m).
Proof.
  revert k slept; induction m as [|m IH]; intros k slept H.
  - cbn [repeat Nat.add]. now rewrite app_nil_r, Nat.add_0_r.
  - cbn [Nat.add ExecutionsAPI.polling]. unfold ExecutionsAPI.get.
    destruct (H k ltac:(lia)) as ((e & Ea & Ef) & Ht).
    rewrite Ea, Ef.
    replace (Z.gtb (now w (S k) - now w 0) (timeoutOf options)) with false
      by (symmetry; rewrite Z.gtb_ltb; apply Z.ltb_ge; exact Ht).
    rewrite IH by (intros j Hj; apply H; lia).
    cbn [repeat]. rewrite <- app_assoc. cbn [app].
    now replace (S k + m) with (k + S m) by lia.
Qed.

Lemma pollingB_steps (m fuel k : nat) (slept : list Z) :
  (forall j, k <= j < k + m ->
     (exists e, answer w j = ApiData e /\ isFinished (executionStatus e) = false)
     /\ (now w (S j) - now w 0 < timeoutOf options)%Z) ->
  pollingB (m + fuel) k slept
  = pollingB fuel (k + m) (slept ++ repeat (intervalOf options) m).
Proof.
  revert k slept; induction m as [|m IH]; intros k slept H.
  - cbn [repeat Nat.add]. now rewrite app_nil_r, Nat.add_0_r.
  - cbn [Nat.add Executions.polling]. unfold Executions.get.
    destruct (H k ltac:(lia)) as ((e & Ea & Ef) & Ht).
    apply Z.ltb_lt in Ht. rewrite Ht, Ea, Ef.
    rewrite IH by (intros j Hj; apply H; lia).
    cbn [repeat]. rewrite <- app_assoc. cbn [app].
    now replace (S k + m) with (k + S m) by lia.
Qed.

(** Under a ticking clock the reading of round [k] is at least [k]
    intervals after the start. *)
Lemma ticking_elapsed (i : Z) (k : nat) :
  ticking w i -> (Z.of_nat k * i <= now w (S k) - now w 0)%Z.
Proof.
  intros [H0 Hs]. induction k as [|k IH]; [lia|].
  specialize (Hs k). lia.
Qed.

Lemma rounds_exceed (t i : Z) (k : nat) :
  (0 < i)%Z -> Z.to_nat (t / i) + 1 <= k -> (t < Z.of_nat k * i)%Z.
Proof.
  intros Hi Hk.
  pose proof (Z.mul_succ_div_gt t i Hi) as H.
  assert (Hq : (t / i + 1 <= Z.of_nat k)%Z) by lia.
  nia.
Qed.

Lemma pollingA_bounded (n fuel k : nat) (slept : list Z) :
  (0 < intervalOf options)%Z -> ticking w (intervalOf options) ->
  k + S n = Z.to_nat (timeoutOf options / intervalOf options) + 2 ->
  S n <= fuel ->
  exists r, pollingA fuel k slept = Some r
            /\ calls r <= Z.to_nat (timeoutOf options / intervalOf options) + 2.
Proof.
  intros Hi Ht. revert fuel k slept; induction n as [|n IH]; intros fuel k slept Hk Hf;
    (destruct fuel as [|fuel]; [lia|]);
    cbn [ExecutionsAPI.polling]; destruct (ExecutionsAPI.get w k) as [e|x];
    try (eexists; split; [reflexivity | cbn [calls]; lia]);
    (destruct (isFinished (executionStatus e));
       [eexists; split; [reflexivity | cbn [calls]; lia]|]).
  - replace (Z.gtb (now w (S k) - now w 0) (timeoutOf options)) with true.
    + eexists; split; [reflexivity | cbn [calls]; lia].
    + symmetry. apply Z.gtb_lt.
      pose proof (ticking_elapsed _ k Ht).
      pose proof (rounds_exceed (timeoutOf options) _ k Hi ltac:(lia)). lia.
  - destruct (Z.gtb _ _); [eexists; split; [reflexivity | cbn [calls]; lia]|].
    apply IH; lia.
Qed.

Lemma pollingB_bounded (n fuel k : nat) (slept : list Z) :
  (0 < intervalOf options)%Z -> ticking w (intervalOf options) ->
  k + S n = Z.to_nat (timeoutOf options / intervalOf options) + 2 ->
  S n <= fuel ->
  exists r, pollingB fuel k slept = Some r
            /\ calls r <= Z.to_nat (timeoutOf options / intervalOf options) + 1.
Proof.
  intros Hi Ht. revert fuel k slept; induction n as [|n IH]; intros fuel k slept Hk Hf;
    (destruct fuel as [|fuel]; [lia|]); cbn [Executions.polling].
  - replace (Z.ltb (now w (S k) - now w 0) (timeoutOf options)) with false.
    + eexists; split; [reflexivity | cbn [calls]; lia].
    + symmetry. apply Z.ltb_ge.
      pose proof (ticking_elapsed _ k Ht).
      pose proof (rounds_exceed (timeoutOf options) _ k Hi ltac:(lia)). lia.
  - destruct (Z.ltb _ _); [|eexists; split; [reflexivity | cbn [calls]; lia]].
    destruct (Executions.get w k) as [[e|]|x];
      try (eexists; split; [reflexivity | cbn [calls]; lia]).
    destruct (isFinished (executionStatus e));
      [eexists; split; [reflexivity | cbn [calls]; lia]|].
    apply IH; lia.
Qed.

End Waiting.

(** X10. [waitForCompletion] never returns an execution that has not
    finished: in both versions an execution returned has one of the four
    final statuses and is the answer of the last call of [get]. *)
Theorem wait_returns_finished
    (showNumber : Z -> jsstring) (w : World) (id : jsstring)
    (options : option WaitForCompletionOptions)
    (fuel : nat) (r : Waited) (e : Execution) :
  ExecutionsAPI.waitForCompletion showNumber w id options fuel = Some r
  \/ Executions.waitForCompletion showNumber w options fuel = Some r ->
  settled r = Fulfilled e ->
  isFinished (executionStatus e) = true
  /\ 0 < calls r /\ answer w (pred (calls r)) = ApiData e.
Proof.
  intros [H|H] Hs.
  - exact (pollingA_finished showNumber w id options fuel 0 [] r e H Hs).
  - exact (pollingB_finished showNumber w options fuel 0 [] r e H Hs).
Qed.

Lemma wait_returns_finished_witness :
  isFinished (executionStatus (executionOf "completed")) = true
  /\ 0 < 3 /\ answer sampleWorld (pred 3) = ApiData (executionOf "completed").
Proof.
  apply (wait_returns_finished showInteger sampleWorld (lit "exec-1") None 5
           {| settled := Fulfilled (executionOf "completed"); calls := 3;
              sleeps := [1000%Z; 1000%Z] |}
           (executionOf "completed")).
  - left. reflexivity.
  - reflexivity.
Defined.

(** X11. The deadline and the first poll.  [ExecutionsAPI.waitForCompletion]
    asks the server before it looks at the clock: an execution that has
    finished is returned after one call, whatever the timeout (zero,
    negative) and whatever the clock.  [waitForCompletion] of
    src/nimblebrain.ts looks at the clock first: when the timeout is not
    above the time already elapsed (a timeout of zero) it throws the
    time-out error without a single call. *)
Theorem deadline_and_first_poll
    (showNumber : Z -> jsstring) (w : World) (id : jsstring)
    (options : option WaitForCompletionOptions) (fuel : nat) (e : Execution) :
  answer w 0 = ApiData e ->
  isFinished (executionStatus e) = true ->
  (timeoutOf options <= now w 1 - now w 0)%Z ->
  ExecutionsAPI.waitForCompletion showNumber w id options (S fuel)
  = Some {| settled := Fulfilled e; calls := 1; sleeps := [] |}
  /\ Executions.waitForCompletion showNumber w options (S fuel)
     = Some {| settled := RejectedWith (Executions.timedOut showNumber options);
               calls := 0; sleeps := [] |}.
Proof.
  intros Ha Hf Ht. split.
  - unfold ExecutionsAPI.waitForCompletion. cbn [ExecutionsAPI.polling].
    unfold ExecutionsAPI.get. now rewrite Ha, Hf.
  - unfold Executions.waitForCompletion. cbn [Executions.polling].
    apply Z.ltb_ge in Ht. now rewrite Ht.
Qed.

Lemma deadline_and_first_poll_witness :
  let w := {| now := fun i => (1000 * Z.of_nat i)%Z;
              answer := fun _ => ApiData (executionOf "failed") |} in
  let options := Some {| timeoutMs := Some 0%Z; pollIntervalMs := None |} in
  ExecutionsAPI.waitForCompletion showInteger w (lit "exec-1") options 1
  = Some {| settled := Fulfilled (executionOf "failed"); calls := 1; sleeps := [] |}
  /\ Executions.waitForCompletion showInteger w options 1
     = Some {| settled :=
                 RejectedWith
                   (Threw (Error (JString (lit "Execution timed out after 0ms"))));
               calls := 0; sleeps := [] |}.
Proof.
  cbv zeta.
  apply (deadline_and_first_poll showInteger
           {| now := fun i => (1000 * Z.of_nat i)%Z;
              answer := fun _ => ApiData (executionOf "failed") |}
           (lit "exec-1")
           (Some {| timeoutMs := Some 0%Z; pollIntervalMs := None |})
           0 (executionOf "failed")).
  - reflexivity.
  - reflexivity.
  - vm_compute. discriminate.
Defined.

(** X12. Polling is bounded.  When the poll interval is positive and the
    clock, read round after round, gains at least one interval per round,
    [waitForCompletion] settles: with [timeout / interval + 2] rounds it
    has returned or thrown, after at most [timeout / interval + 2] calls of
    [get] in [ExecutionsAPI] and at most [timeout / interval + 1] in
    src/nimblebrain.ts. *)
Theorem polling_is_bounded
    (showNumber : Z -> jsstring) (w : World) (id : jsstring)
    (options : option WaitForCompletionOptions) (fuel : nat) :
  (0 < intervalOf options)%Z ->
  ticking w (intervalOf options) ->
  Z.to_nat (timeoutOf options / intervalOf options) + 2 <= fuel ->
  (exists r,
     ExecutionsAPI.waitForCompletion showNumber w id options fuel = Some r
     /\ calls r <= Z.to_nat (timeoutOf options / intervalOf options) + 2)
  /\ (exists r,
        Executions.waitForCompletion showNumber w options fuel = Some r
        /\ calls r <= Z.to_nat (timeoutOf options / intervalOf options) + 1).
Proof.
  intros Hi Ht Hf. split.
  - apply (pollingA_bounded showNumber w id options
             (Z.to_nat (timeoutOf options / intervalOf options) + 1) fuel 0 []);
      try assumption; lia.
  - apply (pollingB_bounded showNumber w options
             (Z.to_nat (timeoutOf options / intervalOf options) + 1) fuel 0 []);
      try assumption; lia.
Qed.

Lemma sampleWorld_ticking : ticking sampleWorld 1000.
Proof. split; [cbn; lia | intros k; cbn [now sampleWorld]; lia]. Defined.

Lemma polling_is_bounded_witness :
  (exists r,
     ExecutionsAPI.waitForCompletion showInteger sampleWorld (lit "exec-1")
       (Some {| timeoutMs := Some 5000%Z; pollIntervalMs := Some 1000%Z |}) 7 = Some r
     /\ calls r <= 7)
  /\ (exists r,
        Executions.waitForCompletion showInteger sampleWorld
          (Some {| timeoutMs := Some 5000%Z; pollIntervalMs := Some 1000%Z |}) 7 = Some r
        /\ calls r <= 6).
Proof.
  apply (polling_is_bounded showInteger sampleWorld (lit "exec-1")
           (Some {| timeoutMs := Some 5000%Z; pollIntervalMs := Some 1000%Z |}) 7).
  - reflexivity.
  - exact sampleWorld_ticking.
  - vm_compute. lia.
Defined.

(** X13. A completion found after the deadline.  After [k] rounds that found
    the execution unfinished in time, let the deadline pass during the
    sleep and the execution finish.  [ExecutionsAPI.waitForCompletion]
    polls once more and returns the finished execution;
    [waitForCompletion] of src/nimblebrain.ts does not poll again and
    throws the time-out error.  Both have slept [k] times for the
    interval. *)
Theorem completion_after_deadline
    (showNumber : Z -> jsstring) (w : World) (id : jsstring)
    (options : option WaitForCompletionOptions)
    (k fuel : nat) (e : Execution) :
  unfinishedUntil w k ->
  (forall j, j < k -> (now w (S j) - now w 0 < timeoutOf options)%Z) ->
  (timeoutOf options <= now w (S k) - now w 0)%Z ->
  answer w k = ApiData e ->
  isFinished (executionStatus e) = true ->
  ExecutionsAPI.waitForCompletion showNumber w id options (k + S fuel)
  = Some {| settled := Fulfilled e; calls := S k;
            sleeps := repeat (intervalOf options) k |}
  /\ Executions.waitForCompletion showNumber w options (k + S fuel)
     = Some {| settled := RejectedWith (Executions.timedOut showNumber options);
               calls := k; sleeps := repeat (intervalOf options) k |}.
Proof.
  intros Hu Hin Hout Ha Hf. split.
  - unfold ExecutionsAPI.waitForCompletion.
    rewrite pollingA_steps
      by (intros j Hj; split; [apply Hu; lia | specialize (Hin j ltac:(lia)); lia]).
    cbn [Nat.add app ExecutionsAPI.polling]. unfold ExecutionsAPI.get.
    now rewrite Ha, Hf.
  - unfold Executions.waitForCompletion.
    rewrite pollingB_steps
      by (intros j Hj; split; [apply Hu; lia | apply Hin; lia]).
    cbn [Nat.add app Executions.polling].
    apply Z.ltb_ge in Hout. now rewrite Hout.
Qed.

Lemma sampleWorld_unfinished : unfinishedUntil sampleWorld 2.
Proof.
  intros j Hj. exists (executionOf "running").
  destruct j as [|[|j]]; [split; reflexivity | split; reflexivity | lia].
Defined.

Lemma completion_after_deadline_witness :
  let options := Some {| timeoutMs := Some 2500%Z; pollIntervalMs := None |} in
  ExecutionsAPI.waitForCompletion showInteger sampleWorld (lit "exec-1") options (2 + 1)
  = Some {| settled := Fulfilled (executionOf "completed"); calls := 3;
            sleeps := [1000%Z; 1000%Z] |}
  /\ Executions.waitForCompletion showInteger sampleWorld options (2 + 1)
     = Some {| settled :=
                 RejectedWith
                   (Threw (Error (JString (lit "Execution timed out after 2500ms"))));
               calls := 2; sleeps := [1000%Z; 1000%Z] |}.
Proof.
  cbv zeta.
  apply (completion_after_deadline showInteger sampleWorld (lit "exec-1")
           (Some {| timeoutMs := Some 2500%Z; pollIntervalMs := None |})
           2 0 (executionOf "completed")).
  - exact sampleWorld_unfinished.
  - intros j Hj. destruct j as [|[|j]]; [reflexivity | reflexivity | lia].
  - vm_compute. discriminate.
  - reflexivity.
  - reflexivity.
Defined.

(** X14. A failing [get] is not retried.  After [k] rounds that found the
    execution unfinished in time, an error answer of the server ends the
    wait at once, after [k + 1] calls: [ExecutionsAPI.waitForCompletion]
    throws the server's error value, [waitForCompletion] of
    src/nimblebrain.ts throws [Failed to get execution]. *)
Theorem failing_get_not_retried
    (showNumber : Z -> jsstring) (w : World) (id : jsstring)
    (options : option WaitForCompletionOptions)
    (k fuel : nat) (v : JSValue) :
  unfinishedUntil w k ->
  (forall j, j <= k -> (now w (S j) - now w 0 < timeoutOf options)%Z) ->
  answer w k = ApiError v ->
  NimbleBrain.truthy v = true ->
  ExecutionsAPI.waitForCompletion showNumber w id options (k + S fuel)
  = Some {| settled := RejectedWith (ThrewValue v); calls := S k;
            sleeps := repeat (intervalOf options) k |}
  /\ Executions.waitForCompletion showNumber w options (k + S fuel)
     = Some {| settled :=
                 RejectedWith (Threw (Error (JString (lit "Failed to get execution"))));
               calls := S k; sleeps := repeat (intervalOf options) k |}.
Proof.
  intros Hu Hin Ha Hv. split.
  - unfold ExecutionsAPI.waitForCompletion.
    rewrite pollingA_steps
      by (intros j Hj; split; [apply Hu; lia | specialize (Hin j ltac:(lia)); lia]).
    cbn [Nat.add app ExecutionsAPI.polling]. unfold ExecutionsAPI.get.
    now rewrite Ha.
  - unfold Executions.waitForCompletion.
    rewrite pollingB_steps
      by (intros j Hj; split; [apply Hu; lia | apply Hin; lia]).
    cbn [Nat.add app Executions.polling]. unfold Executions.get.
    specialize (Hin k (le_n k)). apply Z.ltb_lt in Hin.
    now rewrite Hin, Ha, Hv.
Qed.

Lemma failing_get_not_retried_witness :
  let w := {| now := fun i => (1000 * Z.of_nat i)%Z;
              answer := fun k =>
                if Nat.ltb k 1 then ApiData (executionOf "running")
                else ApiError (JObject [(lit "error", JString (lit "Not found"))]) |} in
  ExecutionsAPI.waitForCompletion showInteger w (lit "exec-1") None (1 + 1)
  = Some {| settled :=
              RejectedWith
                (ThrewValue (JObject [(lit "error", JString (lit "Not found"))]));
            calls := 2; sleeps := [1000%Z] |}
  /\ Executions.waitForCompletion showInteger w None (1 + 1)
     = Some {| settled :=
                 RejectedWith (Threw (Error (JString (lit "Failed to get execution"))));
               calls := 2; sleeps := [1000%Z] |}.
Proof.
  cbv zeta.
  apply (failing_get_not_retried showInteger
           {| now := fun i => (1000 * Z.of_nat i)%Z;
              answer := fun k =>
                if Nat.ltb k 1 then ApiData (executionOf "running")
                else ApiError (JObject [(lit "error", JString (lit "Not found"))]) |}
           (lit "exec-1") None 1 0
           (JObject [(lit "error", JString (lit "Not found"))])).
  - intros j Hj. exists (executionOf "running").
    destruct j as [|j]; [split; reflexivity | lia].
  - intros j Hj. destruct j as [|[|j]]; [reflexivity | reflexivity | lia].
  - reflexivity.
  - reflexivity.
Defined.


(** ** The repository's tests of [waitForCompletion], run on the model

    The clock of these runs advances by the sleep between two readings. *)

Example test_wait_immediate :
  ExecutionsAPI.waitForCompletion showInteger
    {| now := fun i => (1000 * Z.of_nat i)%Z;
       answer := fun _ => ApiData (executionOf "completed") |}
    (lit "exec-1") None 1
  = Some {| settled := Fulfilled (executionOf "completed"); calls := 1; sleeps := [] |}.
Proof. reflexivity. Qed.

Example test_wait_polls_until_complete :
  ExecutionsAPI.waitForCompletion showInteger
    {| now := fun i => (10 * Z.of_nat i)%Z; answer := answer sampleWorld |}
    (lit "exec-1") (Some {| timeoutMs := None; pollIntervalMs := Some 10%Z |}) 3
  = Some {| settled := Fulfilled (executionOf "completed"); calls := 3;
            sleeps := [10%Z; 10%Z] |}.
Proof. reflexivity. Qed.

Example test_wait_failed_status :
  ExecutionsAPI.waitForCompletion showInteger
    {| now := fun i => (1000 * Z.of_nat i)%Z;
       answer := fun _ => ApiData (executionOf "failed") |}
    (lit "exec-1") None 1
  = Some {| settled := Fulfilled (executionOf "failed"); calls := 1; sleeps := [] |}.
Proof. reflexivity. Qed.

Example test_wait_times_out :
  ExecutionsAPI.waitForCompletion showInteger
    {| now := fun i => (20 * Z.of_nat i)%Z;
       answer := fun _ => ApiData (executionOf "running") |}
    (lit "exec-1") (Some {| timeoutMs := Some 50%Z; pollIntervalMs := Some 20%Z |}) 3
  = Some {| settled :=
              RejectedWith
                (Threw (Error (JString
                   (lit "Execution exec-1 timed out after 50ms (status: running)"))));
            calls := 3; sleeps := [20%Z; 20%Z] |}.
Proof. reflexivity. Qed.

(** * Properties of the demo application's [sendMessage] *)

Section AppFacts.

Variable plusOther : JSValue -> JSValue -> option JSValue.
Variable messageOther : Exception -> jsstring.

Notation onEvent := (App.onEvent plusOther).
Notation onEvents := (App.onEvents plusOther).
Notation change := (App.change plusOther).
Notation changes := (App.changes plusOther).
Notation onError := (App.onError messageOther).
Notation sendMessage := (App.sendMessage plusOther messageOther).

Lemma onEvent_change (aid : jsstring) (ev : StreamEvent) (prev : list App.UIMessage) :
  onEvent aid ev prev = App.update aid (change ev) prev.
Proof.
  unfold App.onEvent, App.change.
  destruct (eqb (type ev) (lit "content")); [reflexivity|].
  destruct (eqb (type ev) (lit "tool.start")); [reflexivity|].
  destruct (eqb (type ev) (lit "tool.complete")); [reflexivity|].
  destruct (eqb (type ev) (lit "message.complete") || eqb (type ev) (lit "done"));
    [reflexivity|].
  destruct (eqb (type ev) (lit "error")); [reflexivity|].
  induction prev as [|m rest IH]; cbn [App.update]; [reflexivity|].
  rewrite <- IH. now destruct (eqb (App.id m) aid).
Qed.

Lemma update_fresh (aid : jsstring) (f : App.UIMessage -> option App.UIMessage)
    (l : list App.UIMessage) :
  App.fresh aid l -> App.update aid f l = Some l.
Proof.
  induction 1 as [|m rest Hm _ IH]; cbn [App.update]; [reflexivity|].
  apply eqb_neq in Hm. now rewrite Hm, IH.
Qed.

Lemma update_app (aid : jsstring) (f : App.UIMessage -> option App.UIMessage)
    (l l' : list App.UIMessage) :
  App.fresh aid l -> App.update aid f (l ++ l') =
                     match App.update aid f l' with
                     | Some r => Some (l ++ r)
                     | None => None
                     end.
Proof.
  induction 1 as [|m rest Hm _ IH]; cbn [App.update app].
  - now destruct (App.update aid f l').
  - apply eqb_neq in Hm. rewrite Hm, IH.
    now destruct (App.update aid f l').
Qed.

(** The list during a call: earlier messages, the user's, the placeholder. *)
Lemma update_target (aid : jsstring) (f : App.UIMessage -> option App.UIMessage)
    (l : list App.UIMessage) (u m : App.UIMessage) :
  App.fresh aid l -> App.id u <> aid -> App.id m = aid ->
  App.update aid f (l ++ [u; m]) =
  match f m with
  | Some m' => Some (l ++ [u; m'])
  | None => None
  end.
Proof.
  intros Hl Hu Hm. rewrite update_app by exact Hl.
  cbn [App.update]. apply eqb_neq in Hu. rewrite Hu.
  apply eqb_eq in Hm. rewrite Hm.
  now destruct (f m).
Qed.

Lemma change_id (ev : StreamEvent) (m m' : App.UIMessage) :
  change ev m = Some m' -> App.id m' = App.id m /\ App.role m' = App.role m.
Proof.
  unfold App.change.
  repeat (destruct (eqb (type ev) _); cbn [orb]);
    repeat match goal with
           | |- context [match ?x with _ => _ end] => destruct x
           end;
    intros E; inversion E; subst; cbn; auto.
Qed.

Lemma onEvents_target (aid : jsstring) (es : list StreamEvent)
    (l : list App.UIMessage) (u m : App.UIMessage) :
  App.fresh aid l -> App.id u <> aid -> App.id m = aid ->
  onEvents aid es (l ++ [u; m]) =
  match changes es m with
  | Some m' => Some (l ++ [u; m'])
  | None => None
  end.
Proof.
  intros Hl Hu. revert m.
  induction es as [|ev rest IH]; intros m Hm; cbn [App.onEvents App.changes].
  - reflexivity.
  - rewrite onEvent_change, update_target by assumption.
    destruct (change ev m) as [m'|] eqn:E; [|reflexivity].
    apply IH. apply change_id in E. destruct E as [E _]. congruence.
Qed.

Lemma changes_id (es : list StreamEvent) (m m' : App.UIMessage) :
  changes es m = Some m' -> App.id m' = App.id m /\ App.role m' = App.role m.
Proof.
  revert m. induction es as [|ev rest IH]; intros m; cbn [App.changes].
  - intros E. inversion E. auto.
  - destruct (change ev m) as [m1|] eqn:E; [|discriminate].
    intros E'. apply IH in E'. apply change_id in E.
    destruct E, E'. split; congruence.
Qed.

Lemma changes_app (es es' : list StreamEvent) (m : App.UIMessage) :
  changes (es ++ es') m =
  match changes es m with
  | Some m' => changes es' m'
  | None => None
  end.
Proof.
  revert m. induction es as [|ev rest IH]; intros m; cbn [App.changes app].
  - reflexivity.
  - destruct (change ev m); [apply IH|reflexivity].
Qed.

(** What a call that goes through computes. *)
Lemma sendMessage_sent (ready : bool) (input uid aid : jsstring)
    (stream : jsstring -> Run) (v : App.View) :
  App.sent ready input v -> App.fresh aid (App.messages v) -> uid <> aid ->
  sendMessage ready input uid aid stream v =
  match changes (yielded (stream (App.trim input))) (App.placeholder aid) with
  | None => None
  | Some m =>
      match completion (stream (App.trim input)) with
      | Returned =>
          Some {| App.messages :=
                    App.messages v ++ [App.userMessage uid (App.trim input); m];
                  App.streaming := false |}
      | Thrown x =>
          Some {| App.messages :=
                    App.messages v
                    ++ [App.userMessage uid (App.trim input);
                        {| App.id := App.id m; App.role := App.role m;
                           App.content :=
                             JString (lit "Error: " ++ App.messageOf messageOther x);
                           App.isStreaming := Some false;
                           App.toolActivity := App.toolActivity m |}];
                  App.streaming := false |}
      end
  end.
Proof.
  intros (Ht & Hr & Hs) Hl Hu. unfold App.sendMessage.
  destruct (App.trim input) as [|c rest] eqn:Et; [congruence|].
  rewrite Hr, Hs. cbn [negb orb].
  change (App.messages v ++ [_] ++ [_])
    with (App.messages v ++ [App.userMessage uid (c :: rest); App.placeholder aid]).
  rewrite onEvents_target by (assumption || reflexivity).
  destruct (changes _ _) as [m|] eqn:E; [|reflexivity].
  destruct (completion _); [reflexivity|].
  unfold App.onError. rewrite update_target; try assumption; try reflexivity.
  apply changes_id in E. now destruct E.
Qed.


(** Updates keep the list in shape. *)
Lemma update_keeps (aid : jsstring) (f : App.UIMessage -> option App.UIMessage)
    (l l' : list App.UIMessage) :
  (forall m m', f m = Some m' -> App.id m' = App.id m) ->
  App.update aid f l = Some l' ->
  map App.id l' = map App.id l
  /\ forall i m, nth_error l i = Some m -> App.id m <> aid ->
                 nth_error l' i = Some m.
Proof.
  intros Hf. revert l'.
  induction l as [|a rest IH]; intros l'; cbn [App.update].
  - intros E. inversion E. split; [reflexivity|]. intros [|i] m; discriminate.
  - destruct (eqb (App.id a) aid) eqn:Ea.
    + destruct (f a) as [a'|] eqn:Fa; [|discriminate].
      destruct (App.update aid f rest) as [r|]; [|discriminate].
      intros E. inversion E. subst l'.
      destruct (IH r eq_refl) as [Hi Hn]. split.
      * cbn [map]. now rewrite Hi, (Hf _ _ Fa).
      * intros [|i] m; cbn [nth_error].
        -- intros Em Hm. inversion Em. subst m.
           apply eqb_eq in Ea. contradiction.
        -- apply Hn.
    + destruct (App.update aid f rest) as [r|]; [|discriminate].
      intros E. inversion E. subst l'.
      destruct (IH r eq_refl) as [Hi Hn]. split.
      * cbn [map]. now rewrite Hi.
      * intros [|i] m; cbn [nth_error]; [auto|apply Hn].
Qed.

Lemma onEvents_keeps (aid : jsstring) (es : list StreamEvent)
    (l l' : list App.UIMessage) :
  onEvents aid es l = Some l' ->
  map App.id l' = map App.id l
  /\ forall i m, nth_error l i = Some m -> App.id m <> aid ->
                 nth_error l' i = Some m.
Proof.
  revert l. induction es as [|ev rest IH]; intros l; cbn [App.onEvents].
  - intros E. inversion E. auto.
  - destruct (onEvent aid ev l) as [l1|] eqn:E1; [|discriminate].
    intros E. rewrite onEvent_change in E1.
    apply update_keeps in E1; [|intros m m' Hm; now apply change_id in Hm].
    apply IH in E. destruct E1 as [Hi1 Hn1], E as [Hi Hn]. split.
    + congruence.
    + intros i m Hm Ha. apply Hn; [apply Hn1|]; assumption.
Qed.

(** The events that go well spell their text. *)
Lemma changes_wellFormed (es : list StreamEvent) (m : App.UIMessage) (c : jsstring) :
  forallb App.wellFormed es = true ->
  App.content m = JString c ->
  exists m', changes es m = Some m'
             /\ App.content m' = JString (c ++ App.spoken es).
Proof.
  revert m c. induction es as [|ev rest IH]; intros m c; cbn [forallb App.changes App.spoken].
  - intros _ Hc. exists m. now rewrite app_nil_r.
  - intros Hw Hc. apply andb_true_iff in Hw. destruct Hw as [Hev Hrest].
    unfold App.wellFormed in Hev. unfold App.change.
    destruct (eqb (type ev) (lit "content")) eqn:E1.
    + unfold App.textOf in *. unfold App.dataField.
      destruct (data ev) eqn:Ed; cbn [App.isNullish] in *; try discriminate;
        destruct (NimbleBrain.getProperty _ _) eqn:Eg; try discriminate;
        rewrite Hc; cbn [App.plus];
        (destruct (IH {| App.id := App.id m; App.role := App.role m;
                         App.content := JString (c ++ s);
                         App.isStreaming := App.isStreaming m;
                         App.toolActivity := App.toolActivity m |}
                      (c ++ s) Hrest eq_refl) as (m' & Hm' & Hc');
         exists m'; split; [exact Hm'|]; now rewrite Hc', app_assoc).
    + cbn [app].
      destruct (eqb (type ev) (lit "tool.start")) eqn:E2.
      { unfold App.dataField.
        destruct (data ev) eqn:Ed; cbn [App.isNullish negb] in Hev; try discriminate;
          apply IH; assumption. }
      destruct (eqb (type ev) (lit "tool.complete")) eqn:E3.
      { apply IH; assumption. }
      destruct (eqb (type ev) (lit "message.complete") || eqb (type ev) (lit "done")) eqn:E4.
      { apply IH; assumption. }
      destruct (eqb (type ev) (lit "error")) eqn:E5; [discriminate|].
      apply IH; assumption.
Qed.

(** The mark [isStreaming] falls with the first terminal event. *)
Lemma changes_isStreaming (es : list StreamEvent) (m m' : App.UIMessage) :
  changes es m = Some m' ->
  App.isStreaming m' = if existsb App.isTerminal es then Some false
                       else App.isStreaming m.
Proof.
  revert m. induction es as [|ev rest IH]; intros m; cbn [App.changes existsb].
  - intros E. now inversion E.
  - destruct (change ev m) as [m1|] eqn:E1; [|discriminate].
    intros E. apply IH in E. rewrite E. clear E IH.
    unfold App.change in E1. unfold App.isTerminal.
    destruct (eqb (type ev) (lit "content")) eqn:T1.
    { assert (T : eqb (type ev) (lit "message.complete") = false
                  /\ eqb (type ev) (lit "done") = false
                  /\ eqb (type ev) (lit "error") = false).
      { apply eqb_eq in T1. rewrite T1. now vm_compute. }
      destruct T as (-> & -> & ->). cbn [orb].
      destruct (App.dataField ev "text"); [|discriminate].
      destruct (App.plus _ _ _); [|discriminate].
      inversion E1. now destruct (existsb _ rest). }
    destruct (eqb (type ev) (lit "tool.start")) eqn:T2.
    { assert (T : eqb (type ev) (lit "message.complete") = false
                  /\ eqb (type ev) (lit "done") = false
                  /\ eqb (type ev) (lit "error") = false).
      { apply eqb_eq in T2. rewrite T2. now vm_compute. }
      destruct T as (-> & -> & ->). cbn [orb].
      destruct (App.dataField ev "display"); [|discriminate].
      destruct (App.dataField ev "tool"); [|discriminate].
      inversion E1. now destruct (existsb _ rest). }
    destruct (eqb (type ev) (lit "tool.complete")) eqn:T3.
    { assert (T : eqb (type ev) (lit "message.complete") = false
                  /\ eqb (type ev) (lit "done") = false
                  /\ eqb (type ev) (lit "error") = false).
      { apply eqb_eq in T3. rewrite T3. now vm_compute. }
      destruct T as (-> & -> & ->). cbn [orb].
      inversion E1. now destruct (existsb _ rest). }
    destruct (eqb (type ev) (lit "message.complete") || eqb (type ev) (lit "done")) eqn:T4.
    { cbn [orb]. inversion E1. now destruct (existsb _ rest). }
    cbn [orb].
    destruct (eqb (type ev) (lit "error")) eqn:T5.
    { destruct (App.dataField ev "error"); [|discriminate].
      inversion E1. now destruct (existsb _ rest). }
    inversion E1. reflexivity.
Qed.

(** An event that reads its data throws on [null]. *)
Lemma change_nullish (ev : StreamEvent) (m : App.UIMessage) :
  App.readsData ev = true -> App.isNullish (data ev) = true ->
  change ev m = None.
Proof.
  unfold App.readsData, App.change, App.dataField. intros Hr Hn.
  destruct (eqb (type ev) (lit "content")) eqn:T1.
  { destruct (data ev); try discriminate; reflexivity. }
  destruct (eqb (type ev) (lit "tool.start")) eqn:T2.
  { destruct (data ev); try discriminate; reflexivity. }
  cbn [orb] in Hr.
  assert (T : eqb (type ev) (lit "tool.complete") = false
              /\ eqb (type ev) (lit "message.complete") = false
              /\ eqb (type ev) (lit "done") = false).
  { apply eqb_eq in Hr. rewrite Hr. now vm_compute. }
  destruct T as (-> & -> & ->). cbn [orb]. rewrite Hr.
  destruct (data ev); try discriminate; reflexivity.
Qed.

Lemma changes_nullish (es : list StreamEvent) (ev : StreamEvent) (m : App.UIMessage) :
  In ev es -> App.readsData ev = true -> App.isNullish (data ev) = true ->
  changes es m = None.
Proof.
  intros Hin Hr Hn. revert m.
  induction es as [|e rest IH]; intros m; [contradiction|].
  cbn [App.changes]. destruct Hin as [->|Hin].
  - now rewrite change_nullish.
  - destruct (change e m); [now apply IH|reflexivity].
Qed.

End AppFacts.


(** X15. [sendMessage] leaves the earlier messages alone.  Whatever the
    stream yields or throws, a call that does not bring the view down keeps
    every message in its place, adds messages only at the end, and changes
    no message whose id is not the id of its placeholder. *)
Theorem earlier_messages_kept
    (plusOther : JSValue -> JSValue -> option JSValue)
    (messageOther : Exception -> jsstring)
    (ready : bool) (input uid aid : jsstring) (stream : jsstring -> Run)
    (v v' : App.View) :
  App.sendMessage plusOther messageOther ready input uid aid stream v = Some v' ->
  (exists added,
     map App.id (App.messages v') = map App.id (App.messages v) ++ added)
  /\ forall i m, nth_error (App.messages v) i = Some m -> App.id m <> aid ->
                 nth_error (App.messages v') i = Some m.
Proof.
  assert (Same : forall u, (exists added : list jsstring,
                   map App.id (App.messages u) = map App.id (App.messages u) ++ added)
                /\ forall i m, nth_error (App.messages u) i = Some m ->
                               App.id m <> aid ->
                               nth_error (App.messages u) i = Some m).
  { intros u. split; [exists []; now rewrite app_nil_r|auto]. }
  unfold App.sendMessage.
  destruct (App.trim input) as [|c rest]; [intros E; inversion E; apply Same|].
  destruct (negb ready || App.streaming v); [intros E; inversion E; apply Same|].
  cbv zeta.
  destruct (App.onEvents _ _ _ _) as [after|] eqn:Ea; [|discriminate].
  apply onEvents_keeps in Ea. destruct Ea as [Hi Hn].
  assert (Hstart : forall i m, nth_error (App.messages v) i = Some m ->
                     nth_error (App.messages v ++ [App.userMessage uid (c :: rest)]
                                ++ [App.placeholder aid]) i = Some m).
  { intros i m Hm. rewrite nth_error_app1; [exact Hm|].
    apply nth_error_Some. congruence. }
  destruct (completion _) as [|x].
  - intros E. inversion E. cbn [App.messages]. split.
    + rewrite Hi, map_app. eauto.
    + intros i m Hm Ha. apply Hn; [apply Hstart|]; assumption.
  - destruct (App.onError _ _ _ _) as [final|] eqn:Ef; [|discriminate].
    unfold App.onError in Ef.
    apply update_keeps in Ef; [|intros m m' Hm; now inversion Hm].
    destruct Ef as [Hi' Hn'].
    intros E. inversion E. cbn [App.messages]. split.
    + rewrite Hi', Hi, map_app. eauto.
    + intros i m Hm Ha. apply Hn'; [apply Hn; [apply Hstart|]|]; assumption.
Qed.

Lemma earlier_messages_kept_witness :
  let v := {| App.messages := [App.userMessage (lit "user-1") (lit "Hi")];
              App.streaming := false |} in
  let v' := {| App.messages :=
                 [App.userMessage (lit "user-1") (lit "Hi");
                  App.userMessage (lit "user-2") (lit "Hello");
                  {| App.id := lit "assistant-2"; App.role := lit "assistant";
                     App.content := JString (lit "Hello");
                     App.isStreaming := Some true;
                     App.toolActivity := JUndefined |}];
               App.streaming := false |} in
  (exists added,
     map App.id (App.messages v') = map App.id (App.messages v) ++ added)
  /\ forall i m, nth_error (App.messages v) i = Some m ->
                 App.id m <> lit "assistant-2" ->
                 nth_error (App.messages v') i = Some m.
Proof.
  cbv zeta.
  apply (earlier_messages_kept (fun _ _ => None) (fun _ => lit "Unknown error") true
           (lit " Hello ") (lit "user-2") (lit "assistant-2")
           (fun _ => stream sampleResponse)
           {| App.messages := [App.userMessage (lit "user-1") (lit "Hi")];
              App.streaming := false |}).
  vm_compute. reflexivity.
Defined.

(** X16. The answer is typed out.  When the stream ends normally and every
    [content] event carries a string under [text] (every [tool.start] event
    has data, and there is no [error] event), the call appends the user's
    trimmed input and the assistant's message, whose content is the texts
    of the [content] events in order. *)
Theorem answer_is_typed_out
    (plusOther : JSValue -> JSValue -> option JSValue)
    (messageOther : Exception -> jsstring)
    (ready : bool) (input uid aid : jsstring) (stream : jsstring -> Run)
    (v : App.View) :
  App.sent ready input v ->
  App.fresh aid (App.messages v) ->
  uid <> aid ->
  completion (stream (App.trim input)) = Returned ->
  forallb App.wellFormed (yielded (stream (App.trim input))) = true ->
  exists m,
    App.sendMessage plusOther messageOther ready input uid aid stream v
    = Some {| App.messages :=
                App.messages v ++ [App.userMessage uid (App.trim input); m];
              App.streaming := false |}
    /\ App.id m = aid
    /\ App.role m = lit "assistant"
    /\ App.content m = JString (App.spoken (yielded (stream (App.trim input)))).
Proof.
  intros Hs Hf Hu Hc Hw.
  rewrite (sendMessage_sent plusOther messageOther) by assumption.
  destruct (changes_wellFormed plusOther _ (App.placeholder aid) [] Hw eq_refl)
    as (m & Hm & Hcm).
  exists m. rewrite Hm, Hc. split; [reflexivity|].
  apply changes_id in Hm. destruct Hm as [Hi Hr].
  repeat split; assumption.
Qed.

Lemma answer_is_typed_out_witness :
  exists m,
    App.sendMessage (fun _ _ => None) (fun _ => lit "Unknown error") true
      (lit " Hello ") (lit "user-2") (lit "assistant-2")
      (fun _ => stream (respond 200 []
                  [lit "event: content\ndata: {'text':'Hel";
                   lit "lo'}\n\nevent: tool.start\ndata: {'tool':'search'}\n\n";
                   lit "event: content\ndata: {'text':' world'}\n\nevent: done\ndata: {}\n\n"]
                  CleanClose))
      {| App.messages := [App.userMessage (lit "user-1") (lit "Hi")];
         App.streaming := false |}
    = Some {| App.messages :=
                [App.userMessage (lit "user-1") (lit "Hi")]
                ++ [App.userMessage (lit "user-2") (lit "Hello"); m];
              App.streaming := false |}
    /\ App.id m = lit "assistant-2"
    /\ App.role m = lit "assistant"
    /\ App.content m = JString (lit "Hello world").
Proof.
  apply (answer_is_typed_out (fun _ _ => None) (fun _ => lit "Unknown error") true
           (lit " Hello ") (lit "user-2") (lit "assistant-2")
           (fun _ => stream (respond 200 []
                  [lit "event: content\ndata: {'text':'Hel";
                   lit "lo'}\n\nevent: tool.start\ndata: {'tool':'search'}\n\n";
                   lit "event: content\ndata: {'text':' world'}\n\nevent: done\ndata: {}\n\n"]
                  CleanClose))
           {| App.messages := [App.userMessage (lit "user-1") (lit "Hi")];
              App.streaming := false |}).
  - repeat split; try reflexivity. vm_compute. discriminate.
  - repeat constructor. vm_compute. discriminate.
  - vm_compute. discriminate.
  - reflexivity.
  - reflexivity.
Defined.

(** X17. The mark on the message and the flag of the view.  After a call
    that went through, the flag [isStreaming] of the view is down; the
    mark [isStreaming] of the assistant's message is down exactly when the
    stream threw or yielded a [message.complete], [done] or [error] event.
    A stream that just ends leaves the message marked as streaming. *)
Theorem streaming_mark
    (plusOther : JSValue -> JSValue -> option JSValue)
    (messageOther : Exception -> jsstring)
    (ready : bool) (input uid aid : jsstring) (stream : jsstring -> Run)
    (v v' : App.View) :
  App.sent ready input v ->
  App.fresh aid (App.messages v) ->
  uid <> aid ->
  App.sendMessage plusOther messageOther ready input uid aid stream v = Some v' ->
  App.streaming v' = false
  /\ exists m,
       App.messages v' = App.messages v ++ [App.userMessage uid (App.trim input); m]
       /\ App.id m = aid
       /\ App.isStreaming m
          = Some (negb (existsb App.isTerminal (yielded (stream (App.trim input)))
                        || match completion (stream (App.trim input)) with
                           | Thrown _ => true
                           | Returned => false
                           end)).
Proof.
  intros Hs Hf Hu.
  rewrite (sendMessage_sent plusOther messageOther) by assumption.
  destruct (App.changes _ _ _) as [m|] eqn:Em; [|discriminate].
  pose proof (changes_isStreaming _ _ _ _ Em) as Hi.
  apply changes_id in Em. destruct Em as [Eid _].
  destruct (completion _) as [|x]; intros E; inversion E; cbn [App.streaming App.messages].
  - split; [reflexivity|]. exists m. repeat split; [exact Eid|].
    rewrite Hi, orb_false_r. now destruct (existsb _ _).
  - split; [reflexivity|]. eexists. repeat split; [exact Eid|].
    cbn [App.isStreaming]. now rewrite orb_true_r.
Qed.

Lemma streaming_mark_witness :
  let v' := {| App.messages :=
                 [App.userMessage (lit "user-2") (lit "Hello");
                  {| App.id := lit "assistant-2"; App.role := lit "assistant";
                     App.content := JString (lit "Hello");
                     App.isStreaming := Some true;
                     App.toolActivity := JUndefined |}];
               App.streaming := false |} in
  App.streaming v' = false
  /\ exists m,
       App.messages v' = [] ++ [App.userMessage (lit "user-2") (lit "Hello"); m]
       /\ App.id m = lit "assistant-2"
       /\ App.isStreaming m = Some true.
Proof.
  cbv zeta.
  apply (streaming_mark (fun _ _ => None) (fun _ => lit "Unknown error") true
           (lit "Hello") (lit "user-2") (lit "assistant-2")
           (fun _ => stream sampleResponse)
           {| App.messages := []; App.streaming := false |}).
  - repeat split; try reflexivity. vm_compute. discriminate.
  - constructor.
  - vm_compute. discriminate.
  - vm_compute. reflexivity.
Defined.

(** X18. A failure replaces the answer.  When the stream throws
    [new Error(msg)] with a string, after whatever events, the assistant's
    message shows [Error: ] followed by [msg] and nothing of the text
    received before; it keeps its tool activity. *)
Theorem failure_replaces_answer
    (plusOther : JSValue -> JSValue -> option JSValue)
    (messageOther : Exception -> jsstring)
    (ready : bool) (input uid aid msg : jsstring) (stream : jsstring -> Run)
    (v v' : App.View) :
  App.sent ready input v ->
  App.fresh aid (App.messages v) ->
  uid <> aid ->
  completion (stream (App.trim input)) = Thrown (Error (JString msg)) ->
  App.sendMessage plusOther messageOther ready input uid aid stream v = Some v' ->
  exists m,
    App.messages v' = App.messages v ++ [App.userMessage uid (App.trim input); m]
    /\ App.id m = aid
    /\ App.content m = JString (lit "Error: " ++ msg)
    /\ App.isStreaming m = Some false.
Proof.
  intros Hs Hf Hu Hc.
  rewrite (sendMessage_sent plusOther messageOther) by assumption.
  destruct (App.changes _ _ _) as [m|] eqn:Em; [|discriminate].
  apply changes_id in Em. destruct Em as [Eid _].
  rewrite Hc. intros E. inversion E. cbn [App.messages].
  eexists. repeat split. exact Eid.
Qed.

Lemma failure_replaces_answer_witness :
  let v' := {| App.messages :=
                 [App.userMessage (lit "user-2") (lit "Hello");
                  {| App.id := lit "assistant-2"; App.role := lit "assistant";
                     App.content :=
                       JString (lit "Error: Stream request failed: 401 Unauthorized");
                     App.isStreaming := Some false;
                     App.toolActivity := JUndefined |}];
               App.streaming := false |} in
  exists m,
    App.messages v' = [] ++ [App.userMessage (lit "user-2") (lit "Hello"); m]
    /\ App.id m = lit "assistant-2"
    /\ App.content m
       = JString (lit "Error: " ++ lit "Stream request failed: 401 Unauthorized")
    /\ App.isStreaming m = Some false.
Proof.
  cbv zeta.
  apply (failure_replaces_answer (fun _ _ => None) (fun _ => lit "Unknown error") true
           (lit "Hello") (lit "user-2") (lit "assistant-2")
           (lit "Stream request failed: 401 Unauthorized")
           (fun _ => stream unauthorized)
           {| App.messages := []; App.streaming := false |}).
  - repeat split; try reflexivity. vm_compute. discriminate.
  - constructor.
  - vm_compute. discriminate.
  - reflexivity.
  - vm_compute. reflexivity.
Defined.

(** X19. A [content] event without [text] spells [undefined].  When the
    data of a [content] event has no member [text], as the object
    [{ raw: ... }] that [MessagesAPI.stream] makes of a payload that is not
    JSON, the update appends the nine letters [undefined] to the content
    of the assistant's message. *)
Theorem missing_text_spells_undefined
    (plusOther : JSValue -> JSValue -> option JSValue)
    (aid : jsstring) (ev : StreamEvent)
    (l : list App.UIMessage) (m : App.UIMessage) (c : jsstring) :
  type ev = lit "content" ->
  App.isNullish (data ev) = false ->
  NimbleBrain.getProperty (data ev) (lit "text") = JUndefined ->
  App.fresh aid l ->
  App.id m = aid ->
  App.content m = JString c ->
  App.onEvent plusOther aid ev (l ++ [m])
  = Some (l ++ [{| App.id := App.id m; App.role := App.role m;
                   App.content := JString (c ++ lit "undefined");
                   App.isStreaming := App.isStreaming m;
                   App.toolActivity := App.toolActivity m |}]).
Proof.
  intros Ht Hn Hg Hl Hm Hc.
  rewrite onEvent_change, update_app by exact Hl.
  cbn [App.update]. apply eqb_eq in Hm. rewrite Hm.
  unfold App.change, App.dataField. rewrite Ht. cbn [eqb].
  replace (eqb (lit "content") (lit "content")) with true by now vm_compute.
  destruct (data ev) eqn:Ed; cbn [App.isNullish] in Hn; try discriminate;
    rewrite Hg, Hc; reflexivity.
Qed.

Lemma missing_text_spells_undefined_witness :
  App.onEvent (fun _ _ => None) (lit "assistant-2")
    {| type := lit "content";
       data := MessagesAPI.parseData JSON.parse (lit "plain text") |}
    ([App.userMessage (lit "user-2") (lit "Hello")]
     ++ [{| App.id := lit "assistant-2"; App.role := lit "assistant";
            App.content := JString (lit "So far. ");
            App.isStreaming := Some true; App.toolActivity := JUndefined |}])
  = Some ([App.userMessage (lit "user-2") (lit "Hello")]
          ++ [{| App.id := lit "assistant-2"; App.role := lit "assistant";
                 App.content := JString (lit "So far. " ++ lit "undefined");
                 App.isStreaming := Some true; App.toolActivity := JUndefined |}]).
Proof.
  apply (missing_text_spells_undefined (fun _ _ => None) (lit "assistant-2")
           {| type := lit "content";
              data := MessagesAPI.parseData JSON.parse (lit "plain text") |}
           [App.userMessage (lit "user-2") (lit "Hello")]
           {| App.id := lit "assistant-2"; App.role := lit "assistant";
              App.content := JString (lit "So far. ");
              App.isStreaming := Some true; App.toolActivity := JUndefined |}
           (lit "So far. ")).
  - reflexivity.
  - reflexivity.
  - reflexivity.
  - repeat constructor. vm_compute. discriminate.
  - reflexivity.
  - reflexivity.
Defined.

(** X20. A [null] payload brings the view down.  When the stream yields a
    [content], [tool.start] or [error] event whose data is [null], the
    update of that event throws while reading a property of [null]: the
    call ends with no view, and the [catch] block of [sendMessage] does not
    see the exception. *)
Theorem null_payload_brings_view_down
    (plusOther : JSValue -> JSValue -> option JSValue)
    (messageOther : Exception -> jsstring)
    (ready : bool) (input uid aid : jsstring) (stream : jsstring -> Run)
    (v : App.View) (ev : StreamEvent) :
  App.sent ready input v ->
  App.fresh aid (App.messages v) ->
  uid <> aid ->
  In ev (yielded (stream (App.trim input))) ->
  App.readsData ev = true ->
  App.isNullish (data ev) = true ->
  App.sendMessage plusOther messageOther ready input uid aid stream v = None.
Proof.
  intros Hs Hf Hu Hin Hr Hn.
  rewrite (sendMessage_sent plusOther messageOther) by assumption.
  now rewrite (changes_nullish plusOther _ ev).
Qed.

Lemma null_payload_brings_view_down_witness :
  App.sendMessage (fun _ _ => None) (fun _ => lit "Unknown error") true
    (lit "Hello") (lit "user-2") (lit "assistant-2")
    (fun _ => stream (respond 200 []
                [lit "event: content\ndata: null\n\nevent: done\ndata: {}\n\n"]
                CleanClose))
    {| App.messages := []; App.streaming := false |}
  = None.
Proof.
  apply (null_payload_brings_view_down (fun _ _ => None) (fun _ => lit "Unknown error")
           true (lit "Hello") (lit "user-2") (lit "assistant-2")
           (fun _ => stream (respond 200 []
                [lit "event: content\ndata: null\n\nevent: done\ndata: {}\n\n"]
                CleanClose))
           {| App.messages := []; App.streaming := false |}
           (event "content" JNull)).
  - repeat split; try reflexivity. vm_compute. discriminate.
  - constructor.
  - vm_compute. discriminate.
  - vm_compute. left. reflexivity.
  - reflexivity.
  - reflexivity.
Defined.
